(** * enhanced-outlook-mcp: the schema translator and the tool dispatcher

    A shallow embedding of [src/index.js]: the function
    [jsonSchemaToZodShape], the closure [wrappedHandler] and the loop that
    registers every tool of [TOOLS] with the MCP server, together with the
    parts of the two libraries the file calls (zod's schema classes and the
    [McpServer] of the MCP SDK), and the properties of the specification
    stated over them.  After them come the handlers the dispatcher calls
    (the formatters and handlers of rules/create.js, rules/delete.js,
    folder/move.js, folder/create.js and the calendar module) and the
    session store of auth/multi-user-support.js, with the properties their
    code shows. *)

From Stdlib Require Import String Ascii List ZArith Bool Lia DecimalString.
Import ListNotations.
Open Scope string_scope.
Set Warnings "-register-all".

(* ===================================================================== *)
(** ** JavaScript numbers *)
(* ===================================================================== *)

Module Numbers.

Local Open Scope Z_scope.

(** A number is written the way JSON carries it, as a decimal literal:
    [significand] times ten to the [exponent].  Its value is the double
    nearest to the literal, so that two literals can stand for the same
    number, a literal too large for a double stands for an infinity, and
    one too small for zero.  [NaN] has no literal and is not modelled. *)
Record Number : Type := mkNumber { significand : Z; exponent : Z }.
Bind Scope Z_scope with Number.

(** An integer literal. *)
Definition Int (z : Z) : Number := mkNumber z 0.
Coercion Int : Z >-> Number.

(** Exact arithmetic on the non-negative rationals, [(p, q)] for [p / q]. *)
Definition times2 (x : Z * Z) (e : Z) : Z * Z :=
  let (p, q) := x in if 0 <=? e then (p * 2 ^ e, q) else (p, q * 2 ^ (- e)).

Definition times10 (x : Z * Z) (e : Z) : Z * Z :=
  let (p, q) := x in if 0 <=? e then (p * 10 ^ e, q) else (p, q * 10 ^ (- e)).

Definition leq (x y : Z * Z) : bool := fst x * snd y <=? fst y * snd x.
Definition ltq (x y : Z * Z) : bool := fst x * snd y <? fst y * snd x.
Definition eqq (x y : Z * Z) : bool := fst x * snd y =? fst y * snd x.

(** The largest [b] with [2 ^ b <= x], for a positive [x]. *)
Definition log2q (x : Z * Z) : Z :=
  let b := Z.log2 (fst x) - Z.log2 (snd x) in
  if leq (times2 (1, 1) b) x then b else b - 1.

(** The double nearest to [x]: a multiple of [2 ^ ex] with a significand of
    53 bits, [ex] being -1074 at least; of two nearest ones the one with
    the even significand. *)
Definition roundToDouble (x : Z * Z) : Z * Z :=
  let ex := Z.max (log2q x - 52) (-1074) in
  let (num, den) := times2 x (- ex) in
  let m := num / den in
  let r := num mod den in
  let m' := if (den <? 2 * r) || ((den =? 2 * r) && Z.odd m) then m + 1 else m in
  times2 (m', 1) ex.

(** The absolute value of the number. *)
Definition toDouble (n : Number) : Z * Z :=
  roundToDouble (times10 (Z.abs (significand n), 1) (exponent n)).

Definition isZero (n : Number) : bool :=
  if exponent n =? 0 then significand n =? 0 else fst (toDouble n) =? 0.

(** A double is below [2 ^ 1024]; what rounds to that or beyond is an
    infinity. *)
Definition isFinite (n : Number) : bool := ltq (toDouble n) (2 ^ 1024, 1).

(** The [n] with [10 ^ (n - 1) <= x < 10 ^ n], for a positive [x]. *)
Definition decimalExponent (x : Z * Z) : Z :=
  let n0 := (log2q x * 30103) / 100000 in
  match find (fun n => leq (times10 (1, 1) (n - 1)) x && ltq x (times10 (1, 1) n))
             [n0; n0 + 1; n0 + 2; n0 + 3] with
  | Some n => n
  | None => n0 + 1
  end.

(** The choice of [Number::toString]: the integer [s] of [k] digits, [k] as
    small as possible, for which [s * 10 ^ (n - k)] rounds to the double
    [x]; of two such [s] the one nearer to [x], the even one when they are
    as near.  Seventeen digits tell every double from the next.  The
    result is [s] with the power of ten that goes with it. *)
Fixpoint shortest (x : Z * Z) (n k : Z) (fuel : nat) : Z * Z :=
  let (num, den) := times10 x (k - n) in
  let lo := num / den in
  let hi := lo + 1 in
  let r := num mod den in
  let ok s := eqq (roundToDouble (times10 (s, 1) (n - k))) x in
  match fuel with
  | O => (lo, n - k)
  | S fuel' =>
      if ok lo && ok hi then
        (if (2 * r <? den) || ((2 * r =? den) && Z.even lo) then lo else hi, n - k)
      else if ok lo then (lo, n - k)
      else if ok hi then (hi, n - k)
      else shortest x n (k + 1) fuel'
  end.

(** [s * 10 ^ e] without the zeros at the end of [s]. *)
Fixpoint strip (s e : Z) (fuel : nat) : Z * Z :=
  match fuel with
  | O => (s, e)
  | S fuel' =>
      if (s mod 10 =? 0) && negb (s =? 0) then strip (s / 10) (e + 1) fuel' else (s, e)
  end.

(** The decimal digits of an integer. *)
Definition decimal (z : Z) : string := NilZero.string_of_int (Z.to_int z).

Fixpoint zeros (n : nat) : string :=
  match n with
  | O => ""
  | S n' => String "0" (zeros n')
  end.

(** The last steps of [Number::toString]: the digits [ds] of [s], [k] of
    them, set out for the value [0.ds * 10 ^ n]. *)
Definition format (ds : string) (n : Z) : string :=
  let k := Z.of_nat (String.length ds) in
  if (k <=? n) && (n <=? 21) then (ds ++ zeros (Z.to_nat (n - k)))%string
  else if (0 <? n) && (n <=? 21) then
    (substring 0 (Z.to_nat n) ds ++ "." ++ substring (Z.to_nat n) (Z.to_nat (k - n)) ds)%string
  else if (-6 <? n) && (n <=? 0) then ("0." ++ zeros (Z.to_nat (- n)) ++ ds)%string
  else
    let e := n - 1 in
    let sign := if e <? 0 then "-" else "+" in
    let tail := ("e" ++ sign ++ decimal (Z.abs e))%string in
    if k =? 1 then (ds ++ tail)%string
    else (substring 0 1 ds ++ "." ++ substring 1 (Z.to_nat (k - 1)) ds ++ tail)%string.

(** [Number::toString] in base ten.  An integer below [2 ^ 53] is a double
    and the only integer that rounds to it, so it prints as its digits. *)
Definition NumberToString (n : Number) : string :=
  if (exponent n =? 0) && (Z.abs (significand n) <? 2 ^ 53) then decimal (significand n)
  else
    let x := toDouble n in
    if fst x =? 0 then "0"
    else
      let sign := if significand n <? 0 then "-" else "" in
      let digits :=
        if ltq x (2 ^ 1024, 1) then
          let (s, e) := shortest x (decimalExponent x) 1 17 in
          let (s, e) := strip s e 20 in
          let ds := decimal s in
          format ds (e + Z.of_nat (String.length ds))
        else "Infinity" in
      (sign ++ digits)%string.

End Numbers.
Import Numbers.

(* ===================================================================== *)
(** ** JavaScript values *)
(* ===================================================================== *)

Module Js.

(** The values that travel through the dispatcher: what [JSON.parse] can
    produce, and [undefined].  An object is the list of its own properties
    in property order. *)
Inductive JsValue : Type :=
| JUndefined
| JNull
| JBool (b : bool)
| JNumber (n : Number)
| JString (s : string)
| JArray (elems : list JsValue)
| JObject (props : list (string * JsValue)).

(** What a handler can throw, or reject its promise with. *)
Inductive Thrown : Type :=
| ThrownError (message : string)
| ThrownValue (v : JsValue).

(** [ToBoolean]. *)
Definition truthy (v : JsValue) : bool :=
  match v with
  | JUndefined | JNull => false
  | JBool b => b
  | JNumber n => negb (isZero n)
  | JString s => negb (s =? "")
  | JArray _ | JObject _ => true
  end.

(** [a || b]. *)
Definition or_else (a b : JsValue) : JsValue := if truthy a then a else b.

Definition is_undefined (v : JsValue) : bool :=
  match v with JUndefined => true | _ => false end.

(** Objects whose property values have type [A]: [obj[key]], [key in obj]
    and [obj[key] = v], which overwrites an existing property in place and
    appends a new one at the end. *)
Fixpoint obj_get {A : Type} (obj : list (string * A)) (key : string) : option A :=
  match obj with
  | [] => None
  | (k, v) :: rest => if k =? key then Some v else obj_get rest key
  end.

Definition obj_has {A : Type} (obj : list (string * A)) (key : string) : bool :=
  match obj_get obj key with Some _ => true | None => false end.

Fixpoint obj_set {A : Type} (obj : list (string * A)) (key : string) (v : A)
  : list (string * A) :=
  match obj with
  | [] => [(key, v)]
  | (k, w) :: rest =>
      if k =? key then (k, v) :: rest else (k, w) :: obj_set rest key v
  end.

(** [obj[key]] on an object of values: a missing property reads as
    [undefined]. *)
Definition get_prop (props : list (string * JsValue)) (key : string) : JsValue :=
  match obj_get props key with Some v => v | None => JUndefined end.

(** [Array.prototype.includes] on an array of strings. *)
Definition includes (arr : list string) (key : string) : bool :=
  existsb (String.eqb key) arr.

(** The property names of [Object.prototype] in Node.  An object created
    by [{}] that has no own property of such a name reads under it what it
    inherits: a function, or its prototype under [__proto__]. *)
Definition Object_prototype : list string :=
  ["constructor"; "__defineGetter__"; "__defineSetter__"; "hasOwnProperty";
   "__lookupGetter__"; "__lookupSetter__"; "isPrototypeOf"; "propertyIsEnumerable";
   "toString"; "valueOf"; "__proto__"; "toLocaleString"].

End Js.
Import Js.

(* ===================================================================== *)
(** ** zod *)
(* ===================================================================== *)

Module Zod.

(** The schema classes [src/index.js] builds, and [ZodObject], which the
    MCP SDK wraps around the raw shape, as zod 3 has them.  Every schema
    carries the [description] of its definition. *)
Inductive ZodType : Type :=
| mkZodType (def : ZodTypeDef) (description : option string)
with ZodTypeDef : Type :=
| ZodString
| ZodNumber
| ZodBoolean
| ZodAny
| ZodArray (element : ZodType)
| ZodObject (shape : list (string * ZodType))
| ZodUnion (options : list ZodType)
| ZodEnum (values : list string)
| ZodOptional (innerType : ZodType).

Definition def_of (t : ZodType) : ZodTypeDef :=
  match t with mkZodType d _ => d end.

Definition description_of (t : ZodType) : option string :=
  match t with mkZodType _ d => d end.

(** [z.string()], [z.number()], [z.boolean()], [z.any()], [z.array(e)],
    [z.object(shape)], [z.union(options)], [z.enum(values)]. *)
Definition z_string : ZodType := mkZodType ZodString None.
Definition z_number : ZodType := mkZodType ZodNumber None.
Definition z_boolean : ZodType := mkZodType ZodBoolean None.
Definition z_any : ZodType := mkZodType ZodAny None.
Definition z_array (element : ZodType) : ZodType := mkZodType (ZodArray element) None.
Definition z_object (shape : list (string * ZodType)) : ZodType :=
  mkZodType (ZodObject shape) None.
Definition z_union (options : list ZodType) : ZodType := mkZodType (ZodUnion options) None.
Definition z_enum (values : list string) : ZodType := mkZodType (ZodEnum values) None.

(** [t.optional()]: a [ZodOptional] around [t], created with the
    definition of [t] as parameters, which hands on its description. *)
Definition optional (t : ZodType) : ZodType :=
  mkZodType (ZodOptional t) (description_of t).

(** [t.describe(d)]: the same schema with the description replaced. *)
Definition describe (t : ZodType) (d : string) : ZodType :=
  mkZodType (def_of t) (Some d).

(** [_parse]: [Some] of the parsed output when the data is valid, [None]
    when it is not.
    - [ZodString], [ZodNumber], [ZodBoolean] check the type of the data;
    - [ZodAny] lets everything through, [undefined] as well;
    - [ZodArray] wants an array and parses every element;
    - [ZodObject] (created by [z.object], so with the unknown keys policy
      [strip]) wants an object that is neither [null] nor an array, parses
      the value of every key of its shape, and builds its output from
      those keys alone: a key is set when its parsed value is not
      [undefined] or when the key is in the data;
    - [ZodUnion] returns the result of the first option that is valid;
    - [ZodEnum] wants a string that is one of its values;
    - [ZodOptional] lets [undefined] through and parses anything else with
      its inner type. *)
Fixpoint _parse (t : ZodType) (data : JsValue) {struct t} : option JsValue :=
  match t with
  | mkZodType d _ =>
      match d with
      | ZodString => match data with JString _ => Some data | _ => None end
      | ZodNumber => match data with JNumber _ => Some data | _ => None end
      | ZodBoolean => match data with JBool _ => Some data | _ => None end
      | ZodAny => Some data
      | ZodArray element =>
          match data with
          | JArray elems =>
              option_map JArray
                ((fix each (l : list JsValue) : option (list JsValue) :=
                    match l with
                    | [] => Some []
                    | x :: l' =>
                        match _parse element x, each l' with
                        | Some x', Some r => Some (x' :: r)
                        | _, _ => None
                        end
                    end) elems)
          | _ => None
          end
      | ZodObject shape =>
          match data with
          | JObject props =>
              option_map JObject
                ((fix pairs (sh : list (string * ZodType))
                    : option (list (string * JsValue)) :=
                    match sh with
                    | [] => Some []
                    | (key, keyValidator) :: sh' =>
                        match _parse keyValidator (get_prop props key), pairs sh' with
                        | Some v, Some r =>
                            Some (if negb (is_undefined v) || obj_has props key
                                  then (key, v) :: r else r)
                        | _, _ => None
                        end
                    end) shape)
          | _ => None
          end
      | ZodUnion options =>
          (fix first (os : list ZodType) : option JsValue :=
             match os with
             | [] => None
             | o :: os' =>
                 match _parse o data with
                 | Some r => Some r
                 | None => first os'
                 end
             end) options
      | ZodEnum values =>
          match data with
          | JString s => if includes values s then Some data else None
          | _ => None
          end
      | ZodOptional innerType =>
          match data with
          | JUndefined => Some JUndefined
          | _ => _parse innerType data
          end
      end
  end.

(** [t.safeParse(data).success]. *)
Definition accepts (t : ZodType) (data : JsValue) : bool :=
  match _parse t data with Some _ => true | None => false end.

(** [t instanceof ZodOptional]. *)
Definition is_ZodOptional (t : ZodType) : bool :=
  match def_of t with ZodOptional _ => true | _ => false end.

End Zod.
Import Zod.

(* ===================================================================== *)
(** ** JSON.stringify *)
(* ===================================================================== *)

Module JSON.

Definition quote : string := String (ascii_of_nat 34) "".
Definition backslash : string := String (ascii_of_nat 92) "".
Definition newline : string := String (ascii_of_nat 10) "".

Definition hex_digit (n : nat) : ascii :=
  if Nat.ltb n 10 then ascii_of_nat (48 + n) else ascii_of_nat (87 + n).

(** One code unit of [QuoteJSONString]: the short escapes of backspace,
    tab, line feed, form feed, carriage return, the double quote and the
    backslash; a four-digit lower-case escape for the other control
    characters; every other code unit as it is. *)
Definition quote_char (c : ascii) : string :=
  let n := nat_of_ascii c in
  if Nat.eqb n 8 then backslash ++ "b"
  else if Nat.eqb n 9 then backslash ++ "t"
  else if Nat.eqb n 10 then backslash ++ "n"
  else if Nat.eqb n 12 then backslash ++ "f"
  else if Nat.eqb n 13 then backslash ++ "r"
  else if Nat.eqb n 34 then backslash ++ quote
  else if Nat.eqb n 92 then backslash ++ backslash
  else if Nat.ltb n 32 then
    backslash ++ "u00" ++ String (hex_digit (n / 16)) (String (hex_digit (n mod 16)) "")
  else String c "".

Fixpoint quote_chars (s : string) : string :=
  match s with
  | EmptyString => ""
  | String c rest => quote_char c ++ quote_chars rest
  end.

Definition QuoteJSONString (s : string) : string :=
  quote ++ quote_chars s ++ quote.

(** [Array.prototype.join]. *)
Fixpoint join (sep : string) (parts : list string) : string :=
  match parts with
  | [] => ""
  | [p] => p
  | p :: rest => p ++ sep ++ join sep rest
  end.

(** The closing step of [SerializeJSONArray] and [SerializeJSONObject]:
    the members between the two brackets, one per line at the new
    indentation when there is a gap. *)
Definition wrap (open close gap stepback indent : string) (partial : list string)
  : string :=
  match partial with
  | [] => open ++ close
  | _ =>
      if gap =? "" then open ++ join "," partial ++ close
      else
        let separator := "," ++ newline ++ indent in
        open ++ newline ++ indent ++ join separator partial
             ++ newline ++ stepback ++ close
  end.

(** [SerializeJSONProperty]: [None] stands for [undefined] (the value has
    no JSON text).  An array prints [null] for such an element, an object
    leaves such a property out.  A number that is not finite prints as
    [null]. *)
Fixpoint SerializeJSONProperty (gap indent : string) (value : JsValue) {struct value}
  : option string :=
  match value with
  | JUndefined => None
  | JNull => Some "null"
  | JBool true => Some "true"
  | JBool false => Some "false"
  | JNumber n => Some (if isFinite n then NumberToString n else "null")
  | JString s => Some (QuoteJSONString s)
  | JArray elems =>
      let stepback := indent in
      let indent := indent ++ gap in
      let partial :=
        (fix each (l : list JsValue) : list string :=
           match l with
           | [] => []
           | x :: l' =>
               match SerializeJSONProperty gap indent x with
               | Some strP => strP
               | None => "null"
               end :: each l'
           end) elems in
      Some (wrap "[" "]" gap stepback indent partial)
  | JObject props =>
      let stepback := indent in
      let indent := indent ++ gap in
      let partial :=
        (fix each (l : list (string * JsValue)) : list string :=
           match l with
           | [] => []
           | (P, x) :: l' =>
               match SerializeJSONProperty gap indent x with
               | Some strP =>
                   (QuoteJSONString P ++ ":" ++ (if gap =? "" then "" else " ") ++ strP)
                     :: each l'
               | None => each l'
               end
           end) props in
      Some (wrap "{" "}" gap stepback indent partial)
  end.

(** The gap of a numeric [space]: that many blanks, ten at most. *)
Fixpoint spaces (n : nat) : string :=
  match n with
  | O => ""
  | S n' => " " ++ spaces n'
  end.

(** [JSON.stringify(value, null, space)]; [space] is [None] when the call
    gives the value alone.  The result is a string, or [undefined]. *)
Definition stringify (value : JsValue) (space : option nat) : JsValue :=
  let gap := match space with Some n => spaces (Nat.min n 10) | None => "" end in
  match SerializeJSONProperty gap "" value with
  | Some text => JString text
  | None => JUndefined
  end.

End JSON.

(* ===================================================================== *)
(** ** Effects: the log and rejections *)
(* ===================================================================== *)

Module Effects.

Inductive Level : Type := info | error.

(** One call of the logger: its level, its message and the value that
    follows the message. *)
Inductive LogMeta : Type :=
| MetaValue (v : JsValue)
| MetaThrown (e : Thrown).

Record LogEntry : Type := mkLogEntry {
  level : Level;
  message : string;
  meta : LogMeta
}.

(** How an asynchronous call settles. *)
Inductive Completion (A : Type) : Type :=
| Fulfilled (a : A)
| Rejected (e : Thrown).
Arguments Fulfilled {A} a.
Arguments Rejected {A} e.

(** An asynchronous computation: from the log so far to its completion and
    the log after it. *)
Definition Async (A : Type) : Type := list LogEntry -> Completion A * list LogEntry.

Definition ret {A : Type} (a : A) : Async A := fun log => (Fulfilled a, log).

Definition throw {A : Type} (e : Thrown) : Async A := fun log => (Rejected e, log).

Definition bind {A B : Type} (m : Async A) (k : A -> Async B) : Async B :=
  fun log =>
    match m log with
    | (Fulfilled a, log') => k a log'
    | (Rejected e, log') => (Rejected e, log')
    end.

(** [try { body } catch (error) { handler }]. *)
Definition try_catch {A : Type} (body : Async A) (handler : Thrown -> Async A) : Async A :=
  fun log =>
    match body log with
    | (Fulfilled a, log') => (Fulfilled a, log')
    | (Rejected e, log') => handler e log'
    end.

Definition logger_info (msg : string) (v : JsValue) : Async unit :=
  fun log => (Fulfilled tt, (log ++ [mkLogEntry info msg (MetaValue v)])%list).

Definition logger_error (msg : string) (e : Thrown) : Async unit :=
  fun log => (Fulfilled tt, (log ++ [mkLogEntry error msg (MetaThrown e)])%list).

End Effects.
Import Effects.

Declare Scope async_scope.
Delimit Scope async_scope with async.
Notation "x <- m ;; k" := (bind m (fun x => k))
  (at level 100, m at next level, right associativity) : async_scope.
Notation "m ;; k" := (bind m (fun _ => k))
  (at level 100, right associativity) : async_scope.

(* ===================================================================== *)
(** ** The MCP server of the SDK *)
(* ===================================================================== *)

Module Mcp.

Record RegisteredTool : Type := mkRegisteredTool {
  description : string;
  inputSchema : ZodType;
  callback : JsValue -> Async JsValue
}.

(** The server: the tools registered under their names, and whether a
    transport is connected, which is when requests start to arrive.  The
    registry is a plain object, created by [{}], with the own properties
    listed in [_registeredTools]. *)
Record McpServer : Type := mkMcpServer {
  _registeredTools : list (string * RegisteredTool);
  connected : bool
}.

Definition new_McpServer : McpServer := mkMcpServer [] false.

(** [this._registeredTools[name]] as a condition: the read finds the tool
    registered under the name, or else what the registry inherits under
    it, and either is truthy. *)
Definition taken (server : McpServer) (name : string) : bool :=
  obj_has (_registeredTools server) name || includes Object_prototype name.

(** [server.tool(name, description, paramsSchema, cb)]: throws when the
    registry reads as taken under the name; otherwise registers the
    callback under the name, with [z.object(paramsSchema)] as its input
    schema.  [inl] is the error thrown. *)
Definition tool (server : McpServer) (name description : string)
    (paramsSchema : list (string * ZodType)) (cb : JsValue -> Async JsValue)
  : Thrown + McpServer :=
  if taken server name
  then inl (ThrownError ("Tool " ++ name ++ " is already registered"))
  else inr (mkMcpServer
              (obj_set (_registeredTools server) name
                 (mkRegisteredTool description (z_object paramsSchema) cb))
              (connected server)).

(** [server.connect(transport)]. *)
Definition connect (server : McpServer) : McpServer :=
  mkMcpServer (_registeredTools server) true.

(** A tool can be invoked once a transport is connected and the tool is
    registered. *)
Definition invokable (server : McpServer) (name : string) : bool :=
  connected server && obj_has (_registeredTools server) name.

(** The handling of a [tools/call] request up to the callback: the
    arguments are parsed with the input schema of the tool; invalid
    arguments reject the request and the callback is not called; valid
    ones reach the callback as the parsed data.  A name under which no
    tool is registered rejects the request: as not found, or as disabled
    when the registry inherits something under the name.  What the server
    makes of a rejection afterwards is the transport's business and not
    modelled. *)
Definition callTool (server : McpServer) (name : string) (arguments : JsValue)
  : Async JsValue :=
  match obj_get (_registeredTools server) name with
  | None =>
      if includes Object_prototype name
      then throw (ThrownError ("Tool " ++ name ++ " disabled"))
      else throw (ThrownError ("Tool " ++ name ++ " not found"))
  | Some registered =>
      match _parse (inputSchema registered) arguments with
      | None => throw (ThrownError ("Invalid arguments for tool " ++ name))
      | Some args => callback registered args
      end
  end.

End Mcp.

(* ===================================================================== *)
(** ** The parameter schemas of the tools *)
(* ===================================================================== *)

Module Schema.

(** The [type] of a field: absent, one tag, or an array of tags. *)
Inductive TypeSpec : Type :=
| TypeAbsent
| TypeTag (t : string)
| TypeList (ts : list string).

Record FieldSpec : Type := mkFieldSpec {
  type : TypeSpec;
  enum : option (list string);
  description : option string
}.

Record JsonSchema : Type := mkJsonSchema {
  properties : option (list (string * FieldSpec));
  required : option (list string)
}.

End Schema.
Import Schema.

(* ===================================================================== *)
(** ** src/index.js *)
(* ===================================================================== *)

Module Index.

Record ToolDescriptor : Type := mkTool {
  name : string;
  description : option string;
  parameters : option JsonSchema;
  handler : JsValue -> Async JsValue
}.

(** [a || ''] on a string that may be absent. *)
Definition or_empty (a : option string) : string :=
  match a with
  | Some s => if s =? "" then "" else s
  | None => ""
  end.

(** The function mapped over [value.type] when it is an array. *)
Definition tagToZod (t : string) : ZodType :=
  if t =? "string" then z_string
  else if t =? "number" then z_number
  else if t =? "boolean" then z_boolean
  else if t =? "array" then z_array z_any
  else if t =? "object" then z_object []
  else z_any.

(** The [zodType] of one entry of [properties]: lines 41 to 78. *)
Definition zodTypeOf (value : FieldSpec) : ZodType :=
  match type value with
  | TypeList ts =>
      let types := map tagToZod ts in
      match types with
      | [t0; t1] => z_union [t0; t1]
      | [t0; t1; t2] => z_union [t0; t1; t2]
      | _ => z_any
      end
  | TypeTag t =>
      if t =? "string" then
        match enum value with
        | Some values => z_enum values
        | None => z_string
        end
      else if t =? "number" then z_number
      else if t =? "boolean" then z_boolean
      else if t =? "array" then z_array z_any
      else if t =? "object" then z_object []
      else z_any
  | TypeAbsent => z_any
  end.

(** [jsonSchema.required && jsonSchema.required.includes(key)]. *)
Definition isRequired (jsonSchema : JsonSchema) (key : string) : bool :=
  match required jsonSchema with
  | Some names => includes names key
  | None => false
  end.

(** The body of the loop over [Object.entries(jsonSchema.properties)]. *)
Definition addField (jsonSchema : JsonSchema) (zodShape : list (string * ZodType))
    (entry : string * FieldSpec) : list (string * ZodType) :=
  let (key, value) := entry in
  let zodType := zodTypeOf value in
  if isRequired jsonSchema key
  then obj_set zodShape key (describe zodType (or_empty (Schema.description value)))
  else obj_set zodShape key
         (describe (optional zodType) (or_empty (Schema.description value))).

Definition jsonSchemaToZodShape (jsonSchema : option JsonSchema)
  : list (string * ZodType) :=
  match jsonSchema with
  | None => []
  | Some schema =>
      match properties schema with
      | None => []
      | Some props => fold_left (addField schema) props []
      end
  end.

(** The envelope a wrapped handler returns. *)
Definition envelope (text : JsValue) : JsValue :=
  JObject [("content", JArray [JObject [("type", JString "text"); ("text", text)]])].

Definition wrappedHandler (tool : ToolDescriptor) (args : JsValue) : Async JsValue :=
  try_catch
    (logger_info ("Tool " ++ name tool ++ " called with args:") (JSON.stringify args None) ;;
     result <- handler tool (or_else args (JObject [])) ;;
     ret (envelope (JSON.stringify result (Some 2))))%async
    (fun error =>
       logger_error ("Error in tool " ++ name tool ++ ":") error ;;
       throw error)%async.

(** One turn of the registration loop. *)
Definition register (server : Mcp.McpServer) (tool : ToolDescriptor)
  : Thrown + Mcp.McpServer :=
  let zodShape := jsonSchemaToZodShape (parameters tool) in
  Mcp.tool server (name tool) (or_empty (description tool)) zodShape (wrappedHandler tool).

(** [for (const tool of TOOLS) { ... }]: the error that ended the loop, if
    one did, and the server as the loop left it. *)
Fixpoint registerAll (TOOLS : list ToolDescriptor) (server : Mcp.McpServer)
  : option Thrown * Mcp.McpServer :=
  match TOOLS with
  | [] => (None, server)
  | tool :: rest =>
      match register server tool with
      | inl e => (Some e, server)
      | inr server' => registerAll rest server'
      end
  end.

(** The module from the creation of the server on: the loop, then
    [server.connect(transport)].  An error thrown by the loop ends the
    evaluation of the module, and the connection is never made. *)
Definition main (TOOLS : list ToolDescriptor) : option Thrown * Mcp.McpServer :=
  match registerAll TOOLS Mcp.new_McpServer with
  | (Some e, server) => (Some e, server)
  | (None, server) => (None, Mcp.connect server)
  end.

End Index.
Import Index.

(* ===================================================================== *)
(** ** The vocabulary of the properties *)
(* ===================================================================== *)

Module Props.

(** The five primitive type tags of the schema dialect. *)
Definition primitive_tags : list string :=
  ["string"; "number"; "boolean"; "array"; "object"].

Definition is_primitive_tag (t : string) : bool := includes primitive_tags t.

(** A value matches a type tag: a string matches [string], a number
    [number], a boolean [boolean], an array [array], and an object that is
    neither [null] nor an array matches [object]. *)
Definition matches (v : JsValue) (t : string) : bool :=
  match v with
  | JString _ => t =? "string"
  | JNumber _ => t =? "number"
  | JBool _ => t =? "boolean"
  | JArray _ => t =? "array"
  | JObject _ => t =? "object"
  | JUndefined | JNull => false
  end.

(** The entry of [key] in [properties]: the loop assigns [zodShape[key]]
    once per entry, so the last entry of a key decides. *)
Fixpoint lastEntry {A : Type} (props : list (string * A)) (key : string) : option A :=
  match props with
  | [] => None
  | (k, v) :: rest =>
      match lastEntry rest key with
      | Some w => Some w
      | None => if k =? key then Some v else None
      end
  end.

(** The node the loop assigns to [zodShape[key]] for the entry [value]. *)
Definition fieldNode (schema : JsonSchema) (key : string) (value : FieldSpec) : ZodType :=
  if isRequired schema key
  then describe (zodTypeOf value) (or_empty (Schema.description value))
  else describe (optional (zodTypeOf value)) (or_empty (Schema.description value)).

(** Every tag of the list is one of the five primitive tags. *)
Definition all_primitive (ts : list string) : bool := forallb is_primitive_tag ts.

(** The [type] is a primitive tag, or a list of two or three of them. *)
Definition constrained (t : TypeSpec) : bool :=
  match t with
  | TypeAbsent => false
  | TypeTag tag => is_primitive_tag tag
  | TypeList ts =>
      all_primitive ts && (Nat.eqb (length ts) 2 || Nat.eqb (length ts) 3)
  end.

(** The [type] is missing, or a tag that is none of the five. *)
Definition undeclared (t : TypeSpec) : bool :=
  match t with
  | TypeAbsent => true
  | TypeTag tag => negb (is_primitive_tag tag)
  | TypeList _ => false
  end.

(** The field with its [enum] taken away. *)
Definition withoutEnum (value : FieldSpec) : FieldSpec :=
  mkFieldSpec (type value) None (Schema.description value).

(** The validation of a call: the arguments parsed by the input schema the
    server builds from the shape of a parameter schema. *)
Definition validate (jsonSchema : option JsonSchema) (arguments : JsValue)
  : option JsValue :=
  _parse (z_object (jsonSchemaToZodShape jsonSchema)) arguments.

(** A handler that logs the arguments it is invoked with and returns
    [null]. *)
Definition recordingHandler (args : JsValue) : Async JsValue :=
  (logger_info "handler invoked with" args ;; ret JNull)%async.

(** The schema without [key] in its [required] list. *)
Definition dropRequired (schema : JsonSchema) (key : string) : JsonSchema :=
  mkJsonSchema (properties schema)
    (option_map (filter (fun n => negb (n =? key))) (required schema)).

(** *** The schemas and tools of the examples *)

(** [{properties: {to: {type: ['string', 'array']}}, required: ['to']}] *)
Definition schema_to : JsonSchema :=
  mkJsonSchema (Some [("to", mkFieldSpec (TypeList ["string"; "array"]) None None)])
               (Some ["to"]).

(** [{properties: {subject: {type: 'string', description: 'Subject'},
                   body: {type: 'string'}}, required: ['subject']}] *)
Definition schema_subject_body : JsonSchema :=
  mkJsonSchema
    (Some [("subject", mkFieldSpec (TypeTag "string") None (Some "Subject"));
           ("body", mkFieldSpec (TypeTag "string") None None)])
    (Some ["subject"]).

(** [{properties: {filter: {type: ['string', 'number', 'boolean', 'array']}},
      required: ['filter']}] *)
Definition schema_four : JsonSchema :=
  mkJsonSchema
    (Some [("filter",
            mkFieldSpec (TypeList ["string"; "number"; "boolean"; "array"]) None None)])
    (Some ["filter"]).

(** [{properties: {x: {}}, required: ['x']}] *)
Definition schema_untyped_required : JsonSchema :=
  mkJsonSchema (Some [("x", mkFieldSpec TypeAbsent None None)]) (Some ["x"]).

(** [{properties: {importance: {type: 'string', enum: ['low', 'high']},
                   flags: {type: ['string', 'array'], enum: ['a']}}}] *)
Definition schema_enum : JsonSchema :=
  mkJsonSchema
    (Some [("importance", mkFieldSpec (TypeTag "string") (Some ["low"; "high"]) None);
           ("flags", mkFieldSpec (TypeList ["string"; "array"]) (Some ["a"]) None)])
    None.

(** [{properties: {subject: {type: 'string'}}, required: ['subject', 'ghost']}] *)
Definition schema_ghost : JsonSchema :=
  mkJsonSchema (Some [("subject", mkFieldSpec (TypeTag "string") None None)])
               (Some ["subject"; "ghost"]).

(** [{properties: {subject: {type: 'string'},
                   location: {type: ['string', 'object']}},
      required: ['subject']}] *)
Definition schema_event : JsonSchema :=
  mkJsonSchema
    (Some [("subject", mkFieldSpec (TypeTag "string") None None);
           ("location", mkFieldSpec (TypeList ["string"; "object"]) None None)])
    (Some ["subject"]).

Definition tool_create_event : ToolDescriptor :=
  mkTool "create_event" (Some "Create a calendar event") (Some schema_event)
         recordingHandler.

(** [{subject: 'Standup', location: {displayName: 'Room 123'}}] *)
Definition args_event : JsValue :=
  JObject [("subject", JString "Standup");
           ("location", JObject [("displayName", JString "Room 123")])].

(** The same arguments with the members of [location] gone. *)
Definition args_event_stripped : JsValue :=
  JObject [("subject", JString "Standup"); ("location", JObject [])].

Definition tool_list_emails (handler : JsValue -> Async JsValue) : ToolDescriptor :=
  mkTool "list_emails" None None handler.

(** A handler that returns [{status: 'success', count: 2}]. *)
Definition result_success : JsValue :=
  JObject [("status", JString "success"); ("count", JNumber 2)].

Definition tool_success : ToolDescriptor :=
  mkTool "count_emails" None None (fun _ => ret result_success).

(** The text [JSON.stringify({status: 'success', count: 2}, null, 2)]:
    three lines, the two members indented by two blanks. *)
Definition text_success : string :=
  "{" ++ JSON.newline
  ++ "  " ++ JSON.quote ++ "status" ++ JSON.quote ++ ": "
  ++ JSON.quote ++ "success" ++ JSON.quote ++ "," ++ JSON.newline
  ++ "  " ++ JSON.quote ++ "count" ++ JSON.quote ++ ": 2" ++ JSON.newline
  ++ "}".

(** The entry [wrappedHandler] logs before it calls the handler. *)
Definition calledEntry (tool : ToolDescriptor) (args : JsValue) : LogEntry :=
  mkLogEntry info ("Tool " ++ name tool ++ " called with args:")
             (MetaValue (JSON.stringify args None)).

(** The entry [wrappedHandler] logs when the handler has failed. *)
Definition failedEntry (tool : ToolDescriptor) (e : Thrown) : LogEntry :=
  mkLogEntry error ("Error in tool " ++ name tool ++ ":") (MetaThrown e).

(** A handler that throws [Error('boom')]. *)
Definition tool_boom : ToolDescriptor :=
  mkTool "explode" None None (fun _ => throw (ThrownError "boom")).

(** A handler that returns nothing. *)
Definition tool_void : ToolDescriptor :=
  mkTool "mark_as_read" None None (fun _ => ret JUndefined).

End Props.
Import Props.

(* ===================================================================== *)
(** ** Pretty-printed JSON, in the words of the specification *)
(* ===================================================================== *)

Module Pretty.

(** A line of a printed text: its nesting level, and what it holds after
    the indentation. *)
Definition Line : Type := (nat * string)%type.

(** Two blanks for every level of nesting. *)
Fixpoint indentation (level : nat) : string :=
  match level with
  | O => ""
  | S level' => "  " ++ indentation level'
  end.

(** The JSON literal of a value that is neither an array nor an object;
    [undefined], which is printed as an element of an array only, and a
    number that is not finite have the literal [null]. *)
Definition literal (v : JsValue) : string :=
  match v with
  | JBool true => "true"
  | JBool false => "false"
  | JNumber n => if isFinite n then NumberToString n else "null"
  | JString s => JSON.QuoteJSONString s
  | _ => "null"
  end.

(** [p] in front of the first line of a block, and behind its last
    line. *)
Definition prefix (p : string) (block : list Line) : list Line :=
  match block with
  | [] => []
  | (level, s) :: rest => (level, p ++ s) :: rest
  end.

Fixpoint suffix (p : string) (block : list Line) : list Line :=
  match block with
  | [] => []
  | [(level, s)] => [(level, s ++ p)]
  | l :: rest => l :: suffix p rest
  end.

(** The members of an array or an object one after the other, with a
    comma behind each of them but the last. *)
Fixpoint separate (members : list (list Line)) : list Line :=
  match members with
  | [] => []
  | [m] => m
  | m :: rest => (suffix "," m ++ separate rest)%list
  end.

(** The members between their brackets: an array or object without
    members is the two brackets on one line. *)
Definition bracket (level : nat) (open close : string) (members : list (list Line))
  : list Line :=
  match members with
  | [] => [(level, open ++ close)]
  | _ => ((level, open) :: separate members ++ [(level, close)])%list
  end.

(** The lines of a value printed at a nesting level: a literal on one
    line; an array or object with every member on lines of its own, one
    level deeper, an object member behind its quoted key, a colon and a
    blank.  An object leaves out the members whose value is
    [undefined]. *)
Fixpoint lines (level : nat) (v : JsValue) {struct v} : list Line :=
  match v with
  | JArray elems =>
      bracket level "[" "]"
        ((fix each (l : list JsValue) : list (list Line) :=
            match l with
            | [] => []
            | x :: l' => lines (S level) x :: each l'
            end) elems)
  | JObject props =>
      bracket level "{" "}"
        ((fix each (l : list (string * JsValue)) : list (list Line) :=
            match l with
            | [] => []
            | (key, x) :: l' =>
                if is_undefined x then each l'
                else prefix (JSON.QuoteJSONString key ++ ": ") (lines (S level) x) :: each l'
            end) props)
  | _ => [(level, literal v)]
  end.

(** The text of a block: every line behind its indentation, the lines
    separated by line feeds. *)
Definition text (block : list Line) : string :=
  String.concat JSON.newline (map (fun l => indentation (fst l) ++ snd l) block).

(** The pretty-printed JSON text of a value. *)
Definition pretty (v : JsValue) : string := text (lines 0 v).

(** The text of a block that starts in the middle of a line: its first
    line as it is, every other line behind a line feed and its
    indentation. *)
Fixpoint following (block : list Line) : string :=
  match block with
  | [] => ""
  | l :: rest => JSON.newline ++ indentation (fst l) ++ snd l ++ following rest
  end.

Definition inline (block : list Line) : string :=
  match block with
  | [] => ""
  | (_, s) :: rest => s ++ following rest
  end.

(** The block is not empty and starts at the level. *)
Definition startsAt (level : nat) (block : list Line) : Prop :=
  exists s rest, block = (level, s) :: rest.

End Pretty.

(* ===================================================================== *)
(** ** More of JavaScript: the operators the handlers use *)
(* ===================================================================== *)

Module JsOps.

(** [typeof v]. *)
Definition typeof (v : JsValue) : string :=
  match v with
  | JUndefined => "undefined"
  | JBool _ => "boolean"
  | JNumber _ => "number"
  | JString _ => "string"
  | JNull | JArray _ | JObject _ => "object"
  end.

(** [Array.isArray(v)]. *)
Definition isArray (v : JsValue) : bool :=
  match v with JArray _ => true | _ => false end.

(** [v.key] on a value that is neither [null] nor [undefined], for a key
    that no prototype defines (the handlers read keys such as
    [displayName], [emailAddress] or [userId]): the own property of an
    object, [undefined] on anything else. *)
Definition prop (v : JsValue) (key : string) : JsValue :=
  match v with
  | JObject props => get_prop props key
  | _ => JUndefined
  end.

(** [String(v)], which is also what a template literal makes of [v]: an
    array prints its elements separated by commas, [null] and [undefined]
    among them as nothing; an object prints as [[object Object]]. *)
Fixpoint ToString (v : JsValue) : string :=
  match v with
  | JUndefined => "undefined"
  | JNull => "null"
  | JBool true => "true"
  | JBool false => "false"
  | JNumber n => NumberToString n
  | JString s => s
  | JArray elems =>
      JSON.join ","
        ((fix each (l : list JsValue) : list string :=
            match l with
            | [] => []
            | x :: l' =>
                match x with
                | JUndefined | JNull => ""
                | _ => ToString x
                end :: each l'
            end) elems)
  | JObject _ => "[object Object]"
  end.

(** The [TypeError] of reading [key] of [null] or [undefined], with the
    message Node gives it. *)
Definition TypeError_read (v : JsValue) (key : string) : Thrown :=
  ThrownError ("Cannot read properties of " ++ ToString v ++ " (reading '" ++ key ++ "')").

End JsOps.
Import JsOps.

(* ===================================================================== *)
(** ** Strings: trim, split and the pattern of a named address *)
(* ===================================================================== *)

Module Str.

(** A string is the sequence of its code units, each below 256.  The
    white space of [trim] and of [\s] in that range: tab, line feed,
    vertical tab, form feed, carriage return, space and the no-break
    space. *)
Definition isWhiteSpace (c : ascii) : bool :=
  let n := nat_of_ascii c in
  Nat.eqb n 9 || Nat.eqb n 10 || Nat.eqb n 11 || Nat.eqb n 12 || Nat.eqb n 13
  || Nat.eqb n 32 || Nat.eqb n 160.

(** The line terminators, which [.] does not match. *)
Definition isLineTerminator (c : ascii) : bool :=
  let n := nat_of_ascii c in Nat.eqb n 10 || Nat.eqb n 13.

(** The separators of [/[,;]/]. *)
Definition isSeparator (c : ascii) : bool :=
  let n := nat_of_ascii c in Nat.eqb n 44 || Nat.eqb n 59.

Definition isLt (c : ascii) : bool := Nat.eqb (nat_of_ascii c) 60.
Definition isGt (c : ascii) : bool := Nat.eqb (nat_of_ascii c) 62.

Fixpoint trimStart (s : string) : string :=
  match s with
  | EmptyString => EmptyString
  | String c rest => if isWhiteSpace c then trimStart rest else s
  end.

Fixpoint trimEnd (s : string) : string :=
  match s with
  | EmptyString => EmptyString
  | String c rest =>
      match trimEnd rest with
      | EmptyString => if isWhiteSpace c then EmptyString else String c EmptyString
      | rest' => String c rest'
      end
  end.

(** [s.trim()]. *)
Definition trim (s : string) : string := trimEnd (trimStart s).

(** [s.split(/[,;]/)]: the pieces between the separators; the empty
    string gives one empty piece. *)
Fixpoint split (s : string) : list string :=
  match s with
  | EmptyString => [EmptyString]
  | String c rest =>
      if isSeparator c then EmptyString :: split rest
      else match split rest with
           | [] => [String c EmptyString]
           | piece :: pieces => String c piece :: pieces
           end
  end.

(** [([^>]+)>$] without the test that the group is not empty: the string
    is some characters other than [>] followed by one [>] at its end. *)
Fixpoint closing (s : string) : option string :=
  match s with
  | EmptyString => None
  | String c rest =>
      if isGt c then (if rest =? "" then Some EmptyString else None)
      else option_map (String c) (closing rest)
  end.

(** [\s*<([^>]+)>$] on the rest of the string after the first group: the
    white space is skipped to its end, a [<] must follow, and the second
    group is what lies between it and the closing [>]. *)
Definition afterName (s : string) : option string :=
  match trimStart s with
  | String c rest =>
      if isLt c then
        match closing rest with
        | Some address => if address =? "" then None else Some address
        | None => None
        end
      else None
  | EmptyString => None
  end.

(** [s.match(/^(.*?)\s*<([^>]+)>$/)]: the two groups of the match, or
    [None] for [null].  The first group is lazy: it is the shortest prefix
    without a line terminator after which the rest of the pattern
    matches. *)
Fixpoint nameAddress (s : string) : option (string * string) :=
  match afterName s with
  | Some address => Some (EmptyString, address)
  | None =>
      match s with
      | EmptyString => None
      | String c rest =>
          if isLineTerminator c then None
          else match nameAddress rest with
               | Some (name, address) => Some (String c name, address)
               | None => None
               end
      end
  end.

(** Some character of the string satisfies [p]. *)
Fixpoint hasChar (p : ascii -> bool) (s : string) : bool :=
  match s with
  | EmptyString => false
  | String c rest => p c || hasChar p rest
  end.

(** [s.split(/[,;]/).map(a => a.trim()).filter(Boolean)]. *)
Definition items (s : string) : list string :=
  filter (fun a => negb (a =? "")) (map trim (split s)).

End Str.

(* ===================================================================== *)
(** ** rules/create.js: the formatters *)
(* ===================================================================== *)

Module Rules.

(** [l.map(f)] for an [f] that can throw: the first throw ends the map. *)
Fixpoint mapThrow (f : JsValue -> Thrown + JsValue) (l : list JsValue)
  : Thrown + list JsValue :=
  match l with
  | [] => inr []
  | x :: rest =>
      match f x with
      | inl e => inl e
      | inr y =>
          match mapThrow f rest with
          | inl e => inl e
          | inr ys => inr (y :: ys)
          end
      end
  end.

(** The elements of an array. *)
Definition elements (v : JsValue) : list JsValue :=
  match v with JArray l => l | _ => [] end.

(** The function [formatEmailAddresses] maps over the addresses.  Reading
    [emailAddress] of [null] throws. *)
Definition formatAddress (address : JsValue) : Thrown + JsValue :=
  match address with
  | JNull => inl (TypeError_read JNull "emailAddress")
  | _ =>
      if (typeof address =? "object") && truthy (prop address "emailAddress")
      then inr address
      else if typeof address =? "string" then
        match Str.nameAddress (ToString address) with
        | Some (name, addr) =>
            inr (JObject [("emailAddress",
                           JObject [("name", JString (Str.trim name));
                                    ("address", JString (Str.trim addr))])])
        | None =>
            inr (JObject [("emailAddress",
                           JObject [("address", JString (Str.trim (ToString address)))])])
        end
      else if (typeof address =? "object") && truthy (prop address "email")
      then inr (JObject [("emailAddress",
                          JObject [("name", or_else (prop address "name") (JString ""));
                                   ("address", prop address "email")])])
      else inr (JObject [("emailAddress",
                          JObject [("address", JString (ToString address))])])
  end.

(** [formatEmailAddresses(addresses)]. *)
Definition formatEmailAddresses (addresses : JsValue) : Thrown + JsValue :=
  if negb (truthy addresses) then inr (JArray [])
  else
    let addresses1 :=
      if typeof addresses =? "string"
      then JArray (map JString (Str.items (ToString addresses)))
      else addresses in
    let addresses2 :=
      if negb (isArray addresses1) then JArray [addresses1] else addresses1 in
    match mapThrow formatAddress (elements addresses2) with
    | inl e => inl e
    | inr l => inr (JArray l)
    end.

(** An address in the format of the API: an object with a truthy
    [emailAddress]. *)
Definition formatted (address : JsValue) : bool :=
  match address with
  | JObject props => truthy (get_prop props "emailAddress")
  | _ => false
  end.

(** The four shapes of the statements of [formatRuleConditions] and
    [formatRuleActions], for a key [k] of the input [c] and the output
    [f]:
    - [AsList]: [if (c.k) f.k = Array.isArray(c.k) ? c.k : [c.k]];
    - [AsAddresses]: [if (c.k) f.k = formatEmailAddresses(c.k)];
    - [IfDefined]: [if (c.k !== undefined) f.k = c.k];
    - [IfTruthy]: [if (c.k) f.k = c.k]. *)
Inductive Copy : Type := AsList | AsAddresses | IfDefined | IfTruthy.

(** One statement: the output object after it, or the error thrown. *)
Definition copyField (c : JsValue) (formatted : list (string * JsValue))
    (step : Copy * string) : Thrown + list (string * JsValue) :=
  let (kind, key) := step in
  let v := prop c key in
  match kind with
  | AsList =>
      if truthy v
      then inr (obj_set formatted key (if isArray v then v else JArray [v]))
      else inr formatted
  | AsAddresses =>
      if truthy v
      then match formatEmailAddresses v with
           | inl e => inl e
           | inr r => inr (obj_set formatted key r)
           end
      else inr formatted
  | IfDefined =>
      if negb (is_undefined v) then inr (obj_set formatted key v) else inr formatted
  | IfTruthy =>
      if truthy v then inr (obj_set formatted key v) else inr formatted
  end.

(** The test of a statement on the input. *)
Definition kept (c : JsValue) (step : Copy * string) : bool :=
  match fst step with
  | IfDefined => negb (is_undefined (prop c (snd step)))
  | AsList | AsAddresses | IfTruthy => truthy (prop c (snd step))
  end.

(** The value a statement assigns when its test passes. *)
Definition copied (c : JsValue) (step : Copy * string) : Thrown + JsValue :=
  let v := prop c (snd step) in
  match fst step with
  | AsList => inr (if isArray v then v else JArray [v])
  | AsAddresses => formatEmailAddresses v
  | IfDefined | IfTruthy => inr v
  end.

(** The properties the statements assign, one after the other. *)
Fixpoint entries (c : JsValue) (steps : list (Copy * string))
  : Thrown + list (string * JsValue) :=
  match steps with
  | [] => inr []
  | step :: rest =>
      if kept c step then
        match copied c step with
        | inl e => inl e
        | inr w =>
            match entries c rest with
            | inl e => inl e
            | inr r => inr ((snd step, w) :: r)
            end
        end
      else entries c rest
  end.

(** The statements in sequence. *)
Fixpoint copyFields (c : JsValue) (steps : list (Copy * string))
    (formatted : list (string * JsValue)) : Thrown + list (string * JsValue) :=
  match steps with
  | [] => inr formatted
  | step :: rest =>
      match copyField c formatted step with
      | inl e => inl e
      | inr formatted' => copyFields c rest formatted'
      end
  end.

(** The statements of [formatRuleConditions], in the order of the source. *)
Definition conditionSteps : list (Copy * string) :=
  [(AsList, "bodyContains");
   (AsList, "bodyOrSubjectContains");
   (AsList, "categories");
   (AsAddresses, "fromAddresses");
   (IfDefined, "hasAttachments");
   (AsList, "headerContains");
   (IfTruthy, "importance");
   (IfDefined, "isApprovalRequest");
   (IfDefined, "isAutomaticForward");
   (IfDefined, "isAutomaticReply");
   (IfDefined, "isEncrypted");
   (IfDefined, "isMeetingRequest");
   (IfDefined, "isMeetingResponse");
   (IfDefined, "isReadReceipt");
   (IfTruthy, "messageActionFlag");
   (IfDefined, "notSentToMe");
   (AsList, "recipientContains");
   (AsList, "senderContains");
   (IfTruthy, "sensitivity");
   (IfDefined, "sentCcMe");
   (IfDefined, "sentOnlyToMe");
   (AsAddresses, "sentToAddresses");
   (IfDefined, "sentToMe");
   (IfDefined, "sentToOrCcMe");
   (AsList, "subjectContains");
   (IfTruthy, "withinSizeRange")].

(** The statements of [formatRuleActions], in the order of the source. *)
Definition actionSteps : list (Copy * string) :=
  [(AsList, "assignCategories");
   (IfTruthy, "copyToFolder");
   (IfDefined, "delete");
   (AsAddresses, "forwardAsAttachmentTo");
   (AsAddresses, "forwardTo");
   (IfDefined, "markAsRead");
   (IfTruthy, "markImportance");
   (IfTruthy, "moveToFolder");
   (IfDefined, "permanentDelete");
   (AsAddresses, "redirectTo");
   (IfDefined, "stopProcessingRules")].

(** A formatter over its statements; reading the first key of [null] or
    [undefined] throws. *)
Definition formatWith (steps : list (Copy * string)) (c : JsValue) : Thrown + JsValue :=
  match c with
  | JUndefined | JNull =>
      inl (TypeError_read c (match steps with (_, key) :: _ => key | [] => "" end))
  | _ =>
      match copyFields c steps [] with
      | inl e => inl e
      | inr formatted => inr (JObject formatted)
      end
  end.

Definition formatRuleConditions (conditions : JsValue) : Thrown + JsValue :=
  formatWith conditionSteps conditions.

Definition formatRuleActions (actions : JsValue) : Thrown + JsValue :=
  formatWith actionSteps actions.

End Rules.

(* ===================================================================== *)
(** ** The calendar handlers: formatLocation and formatAttendees *)
(* ===================================================================== *)

Module Calendar.

(** [formatLocation(location)]. *)
Definition formatLocation (location : JsValue) : JsValue :=
  if negb (truthy location) then JNull
  else if (typeof location =? "object") && truthy (prop location "displayName")
  then location
  else if typeof location =? "string"
  then JObject [("displayName", location)]
  else if typeof location =? "object"
  then JObject
         [("displayName",
           or_else (or_else (prop location "name") (prop location "displayName"))
                   (JString "Unknown Location"));
          ("address", prop location "address");
          ("coordinates", prop location "coordinates")]
  else JObject [("displayName", JString (ToString location))].

(** The location every object without a name ends as. *)
Definition unknownLocation : JsValue :=
  JObject [("displayName", JString "Unknown Location");
           ("address", JUndefined);
           ("coordinates", JUndefined)].

(** The function [formatAttendees] maps over the attendees. *)
Definition formatAttendee (attendee : JsValue) : Thrown + JsValue :=
  match attendee with
  | JNull => inl (TypeError_read JNull "emailAddress")
  | _ =>
      if (typeof attendee =? "object") && truthy (prop attendee "emailAddress")
      then inr attendee
      else if typeof attendee =? "string" then
        match Str.nameAddress (ToString attendee) with
        | Some (name, addr) =>
            inr (JObject [("emailAddress",
                           JObject [("name", JString (Str.trim name));
                                    ("address", JString (Str.trim addr))]);
                          ("type", JString "required")])
        | None =>
            inr (JObject [("emailAddress",
                           JObject [("address", JString (Str.trim (ToString attendee)))]);
                          ("type", JString "required")])
        end
      else if (typeof attendee =? "object") && truthy (prop attendee "email")
      then inr (JObject [("emailAddress",
                          JObject [("name", or_else (prop attendee "name") (JString ""));
                                   ("address", prop attendee "email")]);
                         ("type", or_else (prop attendee "type") (JString "required"))])
      else inr (JObject [("emailAddress",
                          JObject [("address", JString (ToString attendee))]);
                         ("type", JString "required")])
  end.

(** [formatAttendees(attendees)]. *)
Definition formatAttendees (attendees : JsValue) : Thrown + JsValue :=
  if negb (truthy attendees) then inr (JArray [])
  else
    let attendees1 :=
      if typeof attendees =? "string"
      then JArray (map JString (Str.items (ToString attendees)))
      else attendees in
    let attendees2 :=
      if negb (isArray attendees1) then JArray [attendees1] else attendees1 in
    match Rules.mapThrow formatAttendee (Rules.elements attendees2) with
    | inl e => inl e
    | inr l => inr (JArray l)
    end.

End Calendar.

(* ===================================================================== *)
(** ** The session store of auth/multi-user-support.js *)
(* ===================================================================== *)

Module Sessions.

(** The module-level [userSessions] map, from user ids to session
    objects; a user id is a string. *)
Definition SessionMap : Type := list (string * list (string * JsValue)).

(** The keys of an array, or of the characters of a string, from [i] on. *)
Fixpoint indexed {A : Type} (f : A -> JsValue) (i : nat) (l : list A)
  : list (string * JsValue) :=
  match l with
  | [] => []
  | x :: l' => (NumberToString (Z.of_nat i), f x) :: indexed f (S i) l'
  end.

(** [{...session}]: the own enumerable properties of the value. *)
Definition spread (session : JsValue) : list (string * JsValue) :=
  match session with
  | JObject props => props
  | JArray elems => indexed (fun x => x) 0 elems
  | JString s => indexed (fun c => JString (String c "")) 0 (list_ascii_of_string s)
  | _ => []
  end.

(** [storeUserSession(userId, session)] at the time [now] of
    [Date.now()]. *)
Definition storeUserSession (userId : string) (session : JsValue) (now : Z)
    (userSessions : SessionMap) : SessionMap :=
  obj_set userSessions userId (obj_set (spread session) "lastAccess" (JNumber now)).

(** [getUserSession(userId)] at the time [now]: the session, which is
    also updated in the map, or [null]. *)
Definition getUserSession (userId : string) (now : Z) (userSessions : SessionMap)
  : JsValue * SessionMap :=
  match obj_get userSessions userId with
  | Some session =>
      let session' := obj_set session "lastAccess" (JNumber now) in
      (JObject session', obj_set userSessions userId session')
  | None => (JNull, userSessions)
  end.

End Sessions.

(* ===================================================================== *)
(** ** The Graph client and the handlers that call it *)
(* ===================================================================== *)

Module Graph.

(** Modelled from the spec: the HTTP client of [utils/graph-api.js], which
    is not part of the sources at hand.  A client is made for a user;
    [get], [post], [patch] and [delete] send a request and resolve to the
    JSON of the answer, or reject with an [Error] that carries a message.
    Making the client sends nothing. *)
Record Request : Type := mkRequest {
  user : JsValue;
  method : string;
  path : string;
  payload : JsValue
}.

Inductive Response : Type :=
| Ok (json : JsValue)
| Failed (message : string).

(** The remote mailbox: what it answers to a request, given the requests
    made before. *)
Definition Mailbox : Type := list Request -> Request -> Response.

(** What a handler changes: the requests sent so far and the log. *)
Record State : Type := mkState {
  calls : list Request;
  log : list LogEntry
}.

Definition Handler (A : Type) : Type := State -> Completion A * State.

Definition ret {A : Type} (a : A) : Handler A := fun st => (Fulfilled a, st).

Definition throw {A : Type} (e : Thrown) : Handler A := fun st => (Rejected e, st).

Definition bind {A B : Type} (m : Handler A) (k : A -> Handler B) : Handler B :=
  fun st =>
    match m st with
    | (Fulfilled a, st') => k a st'
    | (Rejected e, st') => (Rejected e, st')
    end.

(** [try { body } catch (error) { handler }]. *)
Definition try_catch {A : Type} (body : Handler A) (handler : Thrown -> Handler A)
  : Handler A :=
  fun st =>
    match body st with
    | (Fulfilled a, st') => (Fulfilled a, st')
    | (Rejected e, st') => handler e st'
    end.

(** [await graphClient.method(path, payload)] on the client of [user]. *)
Definition request (mailbox : Mailbox) (r : Request) : Handler JsValue :=
  fun st =>
    let st' := mkState (calls st ++ [r]) (log st) in
    match mailbox (calls st) r with
    | Ok json => (Fulfilled json, st')
    | Failed message => (Rejected (ThrownError message), st')
    end.

(** [logger.info(msg)] and [logger.error(msg)], with the message alone. *)
Definition log_info (msg : string) : Handler unit :=
  fun st => (Fulfilled tt,
             mkState (calls st) (log st ++ [mkLogEntry info msg (MetaValue JUndefined)])).

Definition log_error (msg : string) : Handler unit :=
  fun st => (Fulfilled tt,
             mkState (calls st) (log st ++ [mkLogEntry error msg (MetaValue JUndefined)])).

(** [error.message] in a [catch] block. *)
Definition errorMessage (e : Thrown) : Handler JsValue :=
  match e with
  | ThrownError message => ret (JString message)
  | ThrownValue v =>
      match v with
      | JUndefined | JNull => throw (TypeError_read v "message")
      | _ => ret (prop v "message")
      end
  end.

(** [v.key] inside a handler: throws on [null] and [undefined]. *)
Definition read (v : JsValue) (key : string) : Handler JsValue :=
  match v with
  | JUndefined | JNull => throw (TypeError_read v key)
  | _ => ret (prop v key)
  end.

(** A function that can throw, called inside a handler. *)
Definition lift {A : Type} (r : Thrown + A) : Handler A :=
  match r with
  | inl e => throw e
  | inr a => ret a
  end.

(** [(params = {})]: the default of a missing argument. *)
Definition orEmpty (params : JsValue) : JsValue :=
  match params with JUndefined => JObject [] | _ => params end.

(** [{status: 'error', message}]. *)
Definition errorResult (message : string) : JsValue :=
  JObject [("status", JString "error"); ("message", JString message)].

End Graph.

Declare Scope handler_scope.
Delimit Scope handler_scope with handler.
Notation "x <- m ;; k" := (Graph.bind m (fun x => k))
  (at level 100, m at next level, right associativity) : handler_scope.
Notation "m ;; k" := (Graph.bind m (fun _ => k))
  (at level 100, right associativity) : handler_scope.

Module Folder.
Import Graph.

(** The words in which [moveEmailsHandler] and [copyEmailsHandler]
    differ; the two functions are the same text otherwise. *)
Record Wording : Type := mkWording {
  Doing : string;   (* Moving, Copying *)
  verb : string;    (* move, copy: the last segment of the path *)
  doing : string;   (* moving, copying *)
  Done : string     (* Moved, Copied *)
}.

Definition moving : Wording := mkWording "Moving" "move" "moving" "Moved".
Definition copying : Wording := mkWording "Copying" "copy" "copying" "Copied".

(** The request of one email. *)
Definition transferRequest (w : Wording) (userId destinationFolderId emailId : JsValue)
  : Request :=
  mkRequest userId "POST" ("/me/messages/" ++ ToString emailId ++ "/" ++ verb w)
            (JObject [("destinationId", destinationFolderId)]).

(** [for (const emailId of emailIds) { try { ... } catch (error) { ... } }]
    with the arrays [results.success] and [results.failed]. *)
Fixpoint transferLoop (mailbox : Mailbox) (w : Wording)
    (userId destinationFolderId : JsValue) (emailIds success failed : list JsValue)
  : Handler (list JsValue * list JsValue) :=
  match emailIds with
  | [] => ret (success, failed)
  | emailId :: rest =>
      (results <-
         try_catch
           (request mailbox (transferRequest w userId destinationFolderId emailId) ;;
            ret (success ++ [emailId], failed)%list)
           (fun error =>
              message <- errorMessage error ;;
              log_error ("Error " ++ doing w ++ " email " ++ ToString emailId ++ ": "
                         ++ ToString message) ;;
              ret (success,
                   (failed ++ [JObject [("id", emailId); ("error", message)]])%list)) ;;
       transferLoop mailbox w userId destinationFolderId rest (fst results) (snd results))%handler
  end.

Definition lengthOf (l : list JsValue) : string :=
  ToString (JNumber (Z.of_nat (length l))).

Definition transferEmailsHandler (mailbox : Mailbox) (w : Wording) (params0 : JsValue)
  : Handler JsValue :=
  let params := orEmpty params0 in
  match params with
  | JNull => throw (TypeError_read JNull "userId")
  | _ =>
      let userId := or_else (prop params "userId") (JString "default") in
      let emailIds := prop params "emailIds" in
      let destinationFolderId := prop params "destinationFolderId" in
      if negb (truthy emailIds) || negb (isArray emailIds)
         || Nat.eqb (length (Rules.elements emailIds)) 0
      then ret (errorResult "At least one email ID is required")
      else if negb (truthy destinationFolderId)
      then ret (errorResult "Destination folder ID is required")
      else
        try_catch
          (log_info (Doing w ++ " " ++ lengthOf (Rules.elements emailIds)
                     ++ " emails to folder " ++ ToString destinationFolderId
                     ++ " for user " ++ ToString userId) ;;
           results <- transferLoop mailbox w userId destinationFolderId
                        (Rules.elements emailIds) [] [] ;;
           ret (JObject
                  [("status",
                    JString (if Nat.eqb (length (snd results)) 0
                             then "success" else "partial"));
                   ("message",
                    JString (Done w ++ " " ++ lengthOf (fst results) ++ " of "
                             ++ lengthOf (Rules.elements emailIds) ++ " emails to folder"));
                   ("destinationFolderId", destinationFolderId);
                   ("results",
                    JObject [("success", JArray (fst results));
                             ("failed", JArray (snd results))])]))%handler
          (fun error =>
             message <- errorMessage error ;;
             log_error ("Error " ++ doing w ++ " emails: " ++ ToString message) ;;
             ret (errorResult ("Failed to " ++ verb w ++ " emails: " ++ ToString message)))%handler
  end.

Definition moveEmailsHandler (mailbox : Mailbox) (params : JsValue) : Handler JsValue :=
  transferEmailsHandler mailbox moving params.

Definition copyEmailsHandler (mailbox : Mailbox) (params : JsValue) : Handler JsValue :=
  transferEmailsHandler mailbox copying params.

End Folder.

Module RuleHandlers.
Import Graph.

(** [Object.keys(v).length] on a truthy value. *)
Definition keysCount (v : JsValue) : nat :=
  match v with
  | JObject props => length props
  | JArray l => length l
  | JString s => String.length s
  | _ => 0
  end.

(** [v !== false]. *)
Definition notFalse (v : JsValue) : bool :=
  match v with JBool false => false | _ => true end.

Definition createRuleHandler (mailbox : Mailbox) (params0 : JsValue) : Handler JsValue :=
  let params := orEmpty params0 in
  match params with
  | JNull => throw (TypeError_read JNull "userId")
  | _ =>
      let userId := or_else (prop params "userId") (JString "default") in
      if negb (truthy (prop params "displayName"))
      then ret (errorResult "Rule display name is required")
      else if negb (truthy (prop params "conditions"))
              || Nat.eqb (keysCount (prop params "conditions")) 0
      then ret (errorResult "At least one condition is required for the rule")
      else if negb (truthy (prop params "actions"))
              || Nat.eqb (keysCount (prop params "actions")) 0
      then ret (errorResult "At least one action is required for the rule")
      else
        try_catch
          (log_info ("Creating mail rule " ++ JSON.quote ++ ToString (prop params "displayName")
                     ++ JSON.quote ++ " for user " ++ ToString userId) ;;
           conditions <- lift (Rules.formatRuleConditions (prop params "conditions")) ;;
           actions <- lift (Rules.formatRuleActions (prop params "actions")) ;;
           rule <- request mailbox
                     (mkRequest userId "POST" "/me/mailFolders/inbox/messageRules"
                        (JObject [("displayName", prop params "displayName");
                                  ("sequence", or_else (prop params "sequence") (JNumber 0));
                                  ("isEnabled", JBool (notFalse (prop params "isEnabled")));
                                  ("conditions", conditions);
                                  ("actions", actions)])) ;;
           ruleId <- read rule "id" ;;
           displayName <- read rule "displayName" ;;
           ret (JObject [("status", JString "success");
                         ("message", JString "Rule created successfully");
                         ("ruleId", ruleId);
                         ("displayName", displayName)]))%handler
          (fun error =>
             message <- errorMessage error ;;
             log_error ("Error creating mail rule: " ++ ToString message) ;;
             ret (errorResult ("Failed to create mail rule: " ++ ToString message)))%handler
  end.

(** [deleteRuleHandler] of rules/create.js. *)
Definition deleteRuleHandler (mailbox : Mailbox) (params0 : JsValue) : Handler JsValue :=
  let params := orEmpty params0 in
  match params with
  | JNull => throw (TypeError_read JNull "userId")
  | _ =>
      let userId := or_else (prop params "userId") (JString "default") in
      let ruleId := prop params "ruleId" in
      if negb (truthy ruleId)
      then ret (errorResult "Rule ID is required")
      else
        try_catch
          (log_info ("Deleting mail rule " ++ ToString ruleId ++ " for user "
                     ++ ToString userId) ;;
           request mailbox
             (mkRequest userId "DELETE"
                ("/me/mailFolders/inbox/messageRules/" ++ ToString ruleId) JUndefined) ;;
           ret (JObject [("status", JString "success");
                         ("message", JString "Rule deleted successfully");
                         ("ruleId", ruleId)]))%handler
          (fun error =>
             message <- errorMessage error ;;
             log_error ("Error deleting mail rule: " ++ ToString message) ;;
             ret (errorResult ("Failed to delete mail rule: " ++ ToString message)))%handler
  end.

(** The statements that fill [updateData] in [updateRuleHandler]. *)
Definition updateData (params : JsValue) : Thrown + list (string * JsValue) :=
  let data0 : list (string * JsValue) := [] in
  let data1 :=
    if truthy (prop params "displayName")
    then obj_set data0 "displayName" (prop params "displayName") else data0 in
  let data2 :=
    if negb (is_undefined (prop params "sequence"))
    then obj_set data1 "sequence" (prop params "sequence") else data1 in
  let data3 :=
    if negb (is_undefined (prop params "isEnabled"))
    then obj_set data2 "isEnabled" (prop params "isEnabled") else data2 in
  match (if truthy (prop params "conditions")
         then match Rules.formatRuleConditions (prop params "conditions") with
              | inl e => inl e
              | inr conditions => inr (obj_set data3 "conditions" conditions)
              end
         else inr data3) with
  | inl e => inl e
  | inr data4 =>
      if truthy (prop params "actions")
      then match Rules.formatRuleActions (prop params "actions") with
           | inl e => inl e
           | inr actions => inr (obj_set data4 "actions" actions)
           end
      else inr data4
  end.

Definition updateRuleHandler (mailbox : Mailbox) (params0 : JsValue) : Handler JsValue :=
  let params := orEmpty params0 in
  match params with
  | JNull => throw (TypeError_read JNull "userId")
  | _ =>
      let userId := or_else (prop params "userId") (JString "default") in
      let ruleId := prop params "ruleId" in
      if negb (truthy ruleId)
      then ret (errorResult "Rule ID is required")
      else
        try_catch
          (log_info ("Updating mail rule " ++ ToString ruleId ++ " for user "
                     ++ ToString userId) ;;
           data <- lift (updateData params) ;;
           request mailbox
             (mkRequest userId "PATCH"
                ("/me/mailFolders/inbox/messageRules/" ++ ToString ruleId)
                (JObject data)) ;;
           ret (JObject [("status", JString "success");
                         ("message", JString "Rule updated successfully");
                         ("ruleId", ruleId)]))%handler
          (fun error =>
             message <- errorMessage error ;;
             log_error ("Error updating mail rule: " ++ ToString message) ;;
             ret (errorResult ("Failed to update mail rule: " ++ ToString message)))%handler
  end.

End RuleHandlers.

Module RulesDelete.
Import Graph.

(** The default of a destructured property: taken when the property is
    [undefined] only. *)
Definition orDefault (v d : JsValue) : JsValue :=
  match v with JUndefined => d | _ => v end.

(** The [TypeError] of destructuring [null], with the message of Node. *)
Definition TypeError_destructure (key : string) : Thrown :=
  ThrownError ("Cannot destructure property '" ++ key ++ "' of 'params' as it is null.").

(** [deleteRuleHandler] of rules/delete.js. *)
Definition deleteRuleHandler (mailbox : Mailbox) (params0 : JsValue) : Handler JsValue :=
  let params := orEmpty params0 in
  match params with
  | JNull => throw (TypeError_destructure "userId")
  | _ =>
      let userId := orDefault (prop params "userId") (JString "default") in
      let ruleId := prop params "ruleId" in
      if negb (truthy ruleId)
      then ret (errorResult "Rule ID required")
      else
        try_catch
          (request mailbox
             (mkRequest userId "DELETE"
                ("/me/mailFolders/inbox/messageRules/" ++ ToString ruleId) JUndefined) ;;
           ret (JObject [("status", JString "success");
                         ("message", JString "Rule deleted");
                         ("ruleId", ruleId)]))%handler
          (fun error =>
             message <- errorMessage error ;;
             ret (errorResult ("Failed: " ++ ToString message)))%handler
  end.

End RulesDelete.

Module FolderCreate.
Import Graph.

(** [createFolderHandler] of folder/create.js. *)
Definition createFolderHandler (mailbox : Mailbox) (params0 : JsValue) : Handler JsValue :=
  let params := orEmpty params0 in
  match params with
  | JNull => throw (RulesDelete.TypeError_destructure "userId")
  | _ =>
      let userId := RulesDelete.orDefault (prop params "userId") (JString "default") in
      let name := prop params "name" in
      let parentFolderId := prop params "parentFolderId" in
      if negb (truthy name)
      then ret (errorResult "Folder name required")
      else
        try_catch
          (log_info ("Creating folder " ++ JSON.quote ++ ToString name ++ JSON.quote
                     ++ " for user " ++ ToString userId) ;;
           let endpoint :=
             if truthy parentFolderId
             then "/me/mailFolders/" ++ ToString parentFolderId ++ "/childFolders"
             else "/me/mailFolders" in
           folder <- request mailbox
                       (mkRequest userId "POST" endpoint (JObject [("displayName", name)])) ;;
           id <- read folder "id" ;;
           ret (JObject [("status", JString "success");
                         ("message", JString "Folder created successfully");
                         ("folder",
                          JObject [("id", id);
                                   ("name", prop folder "displayName");
                                   ("parentFolderId", prop folder "parentFolderId");
                                   ("itemCount", prop folder "totalItemCount")])]))%handler
          (fun error =>
             message <- errorMessage error ;;
             log_error ("Error creating folder: " ++ ToString message) ;;
             ret (errorResult ("Failed to create folder: " ++ ToString message)))%handler
  end.

End FolderCreate.

(* ===================================================================== *)
(** ** Objects *)
(* ===================================================================== *)

Section Objects.
Context {A : Type}.

Lemma obj_get_set (obj : list (string * A)) (k key : string) (v : A) :
  obj_get (obj_set obj k v) key = if k =? key then Some v else obj_get obj key.
Proof.
  induction obj as [|[k0 w] rest IH]; simpl.
  - reflexivity.
  - destruct (k0 =? k) eqn:E0; simpl.
    + apply String.eqb_eq in E0; subst k0.
      destruct (k =? key); reflexivity.
    + rewrite IH. destruct (k0 =? key) eqn:E1; [|reflexivity].
      apply String.eqb_eq in E1; subst k0.
      rewrite String.eqb_sym, E0. reflexivity.
Qed.

Lemma obj_has_set (obj : list (string * A)) (k key : string) (v : A) :
  obj_has (obj_set obj k v) key = (k =? key) || obj_has obj key.
Proof.
  unfold obj_has. rewrite obj_get_set. destruct (k =? key); reflexivity.
Qed.

Lemma lastEntry_none_iff (props : list (string * A)) (key : string) :
  lastEntry props key = None <-> ~ In key (map fst props).
Proof.
  induction props as [|[k v] rest IH]; simpl.
  - tauto.
  - destruct (lastEntry rest key) eqn:E.
    + split; [discriminate|]. intros H; exfalso; apply H; right.
      destruct (in_dec string_dec key (map fst rest)) as [i|n]; [exact i|].
      apply IH in n. discriminate.
    + destruct (k =? key) eqn:Ek.
      * apply String.eqb_eq in Ek. split; [discriminate|]. intros H; exfalso; apply H; now left.
      * apply String.eqb_neq in Ek. split; [|reflexivity].
        intros _ [H|H]; [contradiction|]. now apply IH in H.
Qed.

End Objects.

(* ===================================================================== *)
(** ** zod: what the schemas of the translator accept *)
(* ===================================================================== *)

Lemma parse_array_any (d : option string) (elems : list JsValue) :
  _parse (mkZodType (ZodArray z_any) d) (JArray elems) = Some (JArray elems).
Proof.
  induction elems as [|x l IH]; [reflexivity|].
  simpl in *.
  match type of IH with
  | option_map _ ?e = _ => destruct e as [r|]; simpl in *; [|discriminate]
  end.
  injection IH as ->. reflexivity.
Qed.

Lemma parse_object_empty (d : option string) (props : list (string * JsValue)) :
  _parse (mkZodType (ZodObject []) d) (JObject props) = Some (JObject []).
Proof. reflexivity. Qed.

Lemma parse_describe (t : ZodType) (d : string) (v : JsValue) :
  _parse (describe t d) v = _parse t v.
Proof. destruct t as [def desc]. reflexivity. Qed.

Lemma parse_optional (t : ZodType) (v : JsValue) :
  _parse (optional t) v = if is_undefined v then Some JUndefined else _parse t v.
Proof. destruct v; reflexivity. Qed.

Lemma accepts_describe (t : ZodType) (d : string) (v : JsValue) :
  accepts (describe t d) v = accepts t v.
Proof. unfold accepts. now rewrite parse_describe. Qed.

Lemma accepts_optional (t : ZodType) (v : JsValue) :
  accepts (optional t) v = is_undefined v || accepts t v.
Proof. unfold accepts. rewrite parse_optional. destruct (is_undefined v); reflexivity. Qed.

Lemma accepts_union (d : option string) (options : list ZodType) (v : JsValue) :
  accepts (mkZodType (ZodUnion options) d) v = existsb (fun o => accepts o v) options.
Proof.
  induction options as [|o os IH]; [reflexivity|].
  unfold accepts in *. simpl in *.
  destruct (_parse o v); [reflexivity|]. exact IH.
Qed.

(** The schema of a tag accepts the values that match the tag, and a tag
    that is none of the five gives [z.any()]. *)
Lemma primitive_tag_cases (t : string) :
  is_primitive_tag t = true ->
  t = "string" \/ t = "number" \/ t = "boolean" \/ t = "array" \/ t = "object".
Proof.
  unfold is_primitive_tag, includes, primitive_tags. cbn [existsb].
  repeat rewrite orb_true_iff. repeat rewrite String.eqb_eq.
  intuition discriminate.
Qed.

Lemma accepts_tagToZod (t : string) (v : JsValue) :
  is_primitive_tag t = true -> accepts (tagToZod t) v = matches v t.
Proof.
  intros H. apply primitive_tag_cases in H.
  destruct H as [ -> | [ -> | [ -> | [ -> | -> ] ] ] ]; destruct v; try reflexivity.
  unfold accepts, tagToZod; simpl String.eqb; cbv iota.
  unfold z_array. now rewrite parse_array_any.
Qed.

Lemma accepts_tagToZod_unknown (t : string) (v : JsValue) :
  is_primitive_tag t = false -> accepts (tagToZod t) v = true.
Proof.
  unfold is_primitive_tag, includes, primitive_tags. cbn [existsb].
  repeat rewrite orb_false_iff. intros (E1 & E2 & E3 & E4 & E5 & _).
  unfold tagToZod. rewrite E1, E2, E3, E4, E5. reflexivity.
Qed.

Lemma existsb_tags (v : JsValue) (ts : list string) :
  all_primitive ts = true ->
  existsb (fun o => accepts o v) (map tagToZod ts) = existsb (matches v) ts.
Proof.
  induction ts as [|t ts IH]; simpl; [reflexivity|].
  rewrite andb_true_iff. intros [Ht Hts].
  now rewrite accepts_tagToZod, IH.
Qed.

(** A list of two or three primitive tags gives the union of their
    schemas. *)
Lemma accepts_zodTypeOf_list (value : FieldSpec) (ts : list string) (v : JsValue) :
  type value = TypeList ts ->
  length ts = 2 \/ length ts = 3 ->
  all_primitive ts = true ->
  accepts (zodTypeOf value) v = existsb (matches v) ts.
Proof.
  intros Ht Hlen Hprim. unfold zodTypeOf. rewrite Ht.
  rewrite <- (existsb_tags v ts Hprim).
  destruct ts as [|a [|b [|c [|e ts]]]]; simpl in Hlen; try lia;
    cbn [map]; unfold z_union; now rewrite accepts_union.
Qed.

(** A single primitive tag, without an [enum] on a string, gives the schema
    of the tag. *)
Lemma accepts_zodTypeOf_tag (value : FieldSpec) (t : string) (v : JsValue) :
  type value = TypeTag t ->
  is_primitive_tag t = true ->
  (t = "string" -> enum value = None) ->
  accepts (zodTypeOf value) v = matches v t.
Proof.
  intros Ht Hprim Henum. unfold zodTypeOf. rewrite Ht.
  rewrite <- (accepts_tagToZod t v Hprim). unfold tagToZod.
  destruct (t =? "string") eqn:E; [|reflexivity].
  apply String.eqb_eq in E. now rewrite (Henum E).
Qed.

Lemma accepts_zodTypeOf_enum (value : FieldSpec) (values : list string) (v : JsValue) :
  type value = TypeTag "string" ->
  enum value = Some values ->
  accepts (zodTypeOf value) v =
    match v with JString s => includes values s | _ => false end.
Proof.
  intros Ht He. unfold zodTypeOf. rewrite Ht, He. simpl.
  destruct v; try reflexivity.
  unfold accepts; simpl. now destruct (includes values s).
Qed.

Lemma zodTypeOf_undeclared (value : FieldSpec) :
  undeclared (type value) = true -> zodTypeOf value = z_any.
Proof.
  unfold undeclared, zodTypeOf, is_primitive_tag, includes, primitive_tags.
  destruct (type value) as [|t|ts]; intros H; [reflexivity| |discriminate].
  cbn [existsb] in H. apply negb_true_iff in H.
  repeat rewrite orb_false_iff in H. destruct H as (E1 & E2 & E3 & E4 & E5 & _).
  now rewrite E1, E2, E3, E4, E5.
Qed.

Lemma accepts_zodTypeOf_undeclared (value : FieldSpec) (v : JsValue) :
  undeclared (type value) = true -> accepts (zodTypeOf value) v = true.
Proof.
  unfold undeclared, zodTypeOf. destruct (type value) as [|t|ts]; intros H.
  - reflexivity.
  - apply negb_true_iff in H.
    transitivity (accepts (tagToZod t) v); [|now apply accepts_tagToZod_unknown].
    unfold tagToZod.
    destruct (t =? "string") eqn:E; [|reflexivity].
    apply String.eqb_eq in E; subst t. discriminate.
  - discriminate.
Qed.

(** A constrained type rejects [undefined]. *)
Lemma constrained_rejects_undefined (value : FieldSpec) :
  constrained (type value) = true -> accepts (zodTypeOf value) JUndefined = false.
Proof.
  unfold constrained. destruct (type value) as [|t|ts] eqn:Et; intros H.
  - discriminate.
  - destruct (enum value) as [values|] eqn:Ee.
    + destruct (t =? "string") eqn:E.
      * apply String.eqb_eq in E; subst t.
        now rewrite (accepts_zodTypeOf_enum value values JUndefined Et Ee).
      * apply String.eqb_neq in E.
        transitivity (accepts (tagToZod t) JUndefined);
          [|now rewrite accepts_tagToZod].
        unfold zodTypeOf, tagToZod. rewrite Et.
        destruct (t =? "string") eqn:E'; [|reflexivity].
        apply String.eqb_eq in E'. contradiction.
    + rewrite (accepts_zodTypeOf_tag value t JUndefined Et H); [reflexivity|auto].
  - apply andb_true_iff in H as [Hp Hl].
    rewrite (accepts_zodTypeOf_list value ts JUndefined Et); auto.
    + clear. induction ts; simpl; auto.
    + apply orb_true_iff in Hl as [Hl|Hl]; apply Nat.eqb_eq in Hl; auto.
Qed.

(* ===================================================================== *)
(** ** The shape the translator builds *)
(* ===================================================================== *)

Lemma addField_fieldNode (schema : JsonSchema) (zodShape : list (string * ZodType))
    (key : string) (value : FieldSpec) :
  addField schema zodShape (key, value) = obj_set zodShape key (fieldNode schema key value).
Proof. unfold addField, fieldNode. destruct (isRequired schema key); reflexivity. Qed.

Lemma fold_addField_get (schema : JsonSchema) (props : list (string * FieldSpec))
    (acc : list (string * ZodType)) (key : string) :
  obj_get (fold_left (addField schema) props acc) key =
    match lastEntry props key with
    | Some value => Some (fieldNode schema key value)
    | None => obj_get acc key
    end.
Proof.
  revert acc. induction props as [|[k value] rest IH]; intros acc; [reflexivity|].
  cbn [fold_left lastEntry]. rewrite IH.
  destruct (lastEntry rest key); [reflexivity|].
  rewrite addField_fieldNode, obj_get_set.
  destruct (k =? key) eqn:E; [|reflexivity].
  apply String.eqb_eq in E. now subst k.
Qed.

(** The shape holds, under every key of [properties], the node of the
    entry of that key, and nothing else. *)
Lemma shape_get (schema : JsonSchema) (props : list (string * FieldSpec)) (key : string) :
  properties schema = Some props ->
  obj_get (jsonSchemaToZodShape (Some schema)) key =
    option_map (fieldNode schema key) (lastEntry props key).
Proof.
  intros Hp. unfold jsonSchemaToZodShape. rewrite Hp, fold_addField_get.
  destruct (lastEntry props key); reflexivity.
Qed.

Lemma accepts_fieldNode (schema : JsonSchema) (key : string) (value : FieldSpec)
    (v : JsValue) :
  accepts (fieldNode schema key value) v =
    (negb (isRequired schema key) && is_undefined v) || accepts (zodTypeOf value) v.
Proof.
  unfold fieldNode. destruct (isRequired schema key); rewrite accepts_describe.
  - reflexivity.
  - now rewrite accepts_optional.
Qed.

Lemma description_fieldNode (schema : JsonSchema) (key : string) (value : FieldSpec) :
  description_of (fieldNode schema key value) = Some (or_empty (Schema.description value)).
Proof. unfold fieldNode. destruct (isRequired schema key); reflexivity. Qed.

Lemma optional_fieldNode (schema : JsonSchema) (key : string) (value : FieldSpec) :
  is_ZodOptional (fieldNode schema key value) = negb (isRequired schema key) ||
    is_ZodOptional (zodTypeOf value).
Proof.
  unfold fieldNode. destruct (isRequired schema key); [|reflexivity].
  simpl. destruct (zodTypeOf value); reflexivity.
Qed.

(** The translator never builds a [ZodOptional] as the type of a field; only
    the loop wraps one around it. *)
Lemma zodTypeOf_not_optional (value : FieldSpec) :
  is_ZodOptional (zodTypeOf value) = false.
Proof.
  unfold zodTypeOf. destruct (type value) as [|t|ts].
  - reflexivity.
  - destruct (t =? "string"); [destruct (enum value); reflexivity|].
    destruct (t =? "number"); [reflexivity|].
    destruct (t =? "boolean"); [reflexivity|].
    destruct (t =? "array"); [reflexivity|].
    destruct (t =? "object"); reflexivity.
  - destruct ts as [|a [|b [|c [|e ts]]]]; reflexivity.
Qed.

(** The input schema of a call accepts an object exactly when every node
    of the shape accepts the value the object has under its key. *)
Lemma accepts_object (d : option string) (shape : list (string * ZodType))
    (props : list (string * JsValue)) :
  accepts (mkZodType (ZodObject shape) d) (JObject props) =
    forallb (fun entry => accepts (snd entry) (get_prop props (fst entry))) shape.
Proof.
  induction shape as [|[key t] sh IH]; [reflexivity|].
  unfold accepts in *. simpl in *.
  destruct (_parse t (get_prop props key)); [|reflexivity].
  match type of IH with
  | match option_map _ ?e with _ => _ end = _ => destruct e
  end; simpl in *; exact IH.
Qed.

(** A list of tags of any other length than two or three gives [z.any()]. *)
Lemma zodTypeOf_other_length (value : FieldSpec) (ts : list string) :
  type value = TypeList ts ->
  length ts <> 2 -> length ts <> 3 ->
  zodTypeOf value = z_any.
Proof.
  intros Ht H2 H3. unfold zodTypeOf. rewrite Ht.
  destruct ts as [|a [|b [|c [|e ts]]]]; simpl in *; try reflexivity; lia.
Qed.

(** The [enum] of a field is read on the single tag [string] only. *)
Lemma zodTypeOf_withoutEnum (value : FieldSpec) :
  type value <> TypeTag "string" -> zodTypeOf (withoutEnum value) = zodTypeOf value.
Proof.
  intros H. unfold zodTypeOf, withoutEnum. simpl.
  destruct (type value) as [|t|ts]; try reflexivity.
  destruct (t =? "string") eqn:E; [|reflexivity].
  apply String.eqb_eq in E. now subst t.
Qed.

(* ===================================================================== *)
(** ** The schema translator: the claims *)
(* ===================================================================== *)

(** The node of a declared field: the first step of the proofs below. *)
Ltac node_of_entry schema props key value Hp He :=
  exists (fieldNode schema key value);
  split; [rewrite (shape_get schema props key Hp), He; reflexivity|].

(** C1 (the code at the failing input).  The claim wants every list of
    primitive tags, of any length, to give a validator that rejects the
    values outside the union.  For the field
    [{type: ['string', 'number', 'boolean', 'array']}] the translator falls
    back on [z.any()]: the node of the field is unconstrained and accepts
    the object [{}], which matches none of the four tags, and the call
    [{filter: {}}] passes validation. *)
Theorem C1_four_tags_fall_back_to_any :
  existsb (matches (JObject [])) ["string"; "number"; "boolean"; "array"] = false /\
  (exists node,
      obj_get (jsonSchemaToZodShape (Some schema_four)) "filter" = Some node /\
      def_of node = ZodAny /\
      accepts node (JObject []) = true) /\
  validate (Some schema_four) (JObject [("filter", JObject [])])
    = Some (JObject [("filter", JObject [])]).
Proof.
  split; [reflexivity|]. split; [|reflexivity].
  eexists. split; [reflexivity|]. split; reflexivity.
Qed.

(** C2.  For a field whose [type] is a list of two or three primitive
    tags, the node of the field in the derived shape accepts a supplied
    value exactly when the value matches one of the tags, and, when the
    field is listed in [required], rejects the omission of the field. *)
Theorem C2_union_accepts_its_alternatives_only
    (schema : JsonSchema) (props : list (string * FieldSpec)) (key : string)
    (value : FieldSpec) (ts : list string) :
  properties schema = Some props ->
  lastEntry props key = Some value ->
  type value = TypeList ts ->
  length ts = 2 \/ length ts = 3 ->
  all_primitive ts = true ->
  exists node,
    obj_get (jsonSchemaToZodShape (Some schema)) key = Some node /\
    (forall v, v <> JUndefined -> accepts node v = existsb (matches v) ts) /\
    (isRequired schema key = true -> accepts node JUndefined = false).
Proof.
  intros Hp He Ht Hlen Hprim.
  node_of_entry schema props key value Hp He.
  split.
  - intros v Hv. rewrite accepts_fieldNode.
    rewrite (accepts_zodTypeOf_list value ts v Ht Hlen Hprim).
    destruct v; cbn [is_undefined]; rewrite ?andb_false_r; try reflexivity.
    now elim Hv.
  - intros Hr. rewrite accepts_fieldNode, Hr.
    rewrite (accepts_zodTypeOf_list value ts JUndefined Ht Hlen Hprim).
    clear. induction ts; simpl; auto.
Qed.

(** C2 at the schema [{properties: {to: {type: ['string', 'array']}},
    required: ['to']}]: the node of [to] accepts ["a@example.com"] and
    [["a@example.com", "b@example.com"]], rejects [42] and rejects the
    omission of [to]; so do the calls with these arguments. *)
Lemma C2_witness :
  (exists node,
      obj_get (jsonSchemaToZodShape (Some schema_to)) "to" = Some node /\
      accepts node (JString "a@example.com") = true /\
      accepts node (JArray [JString "a@example.com"; JString "b@example.com"]) = true /\
      accepts node (JNumber 42) = false /\
      accepts node JUndefined = false) /\
  validate (Some schema_to) (JObject [("to", JString "a@example.com")]) <> None /\
  validate (Some schema_to)
    (JObject [("to", JArray [JString "a@example.com"; JString "b@example.com"])]) <> None /\
  validate (Some schema_to) (JObject [("to", JNumber 42)]) = None /\
  validate (Some schema_to) (JObject []) = None.
Proof.
  split.
  - destruct (C2_union_accepts_its_alternatives_only schema_to
                [("to", mkFieldSpec (TypeList ["string"; "array"]) None None)]
                "to" (mkFieldSpec (TypeList ["string"; "array"]) None None)
                ["string"; "array"] eq_refl eq_refl eq_refl (or_introl eq_refl) eq_refl)
      as (node & Hget & Hv & Hu).
    exists node. split; [exact Hget|].
    repeat split.
    + rewrite Hv; [reflexivity|discriminate].
    + rewrite Hv; [reflexivity|discriminate].
    + rewrite Hv; [reflexivity|discriminate].
    + apply Hu. reflexivity.
  - repeat split; try reflexivity; discriminate.
Defined.

(** C3, as the code has it.  Every field declared in [properties] has a
    node in the derived shape, and the node carries the description of the
    field, or the empty string when there is none.  A field that is not in
    [required] gets an optional node, which accepts the omission of the
    field.  A field that is in [required] gets a node without the optional
    wrapper: the node rejects the omission of the field when the [type] is
    a primitive tag or a list of two or three primitive tags; when the
    [type] is missing or a tag that is none of the five, the node is the
    unconstrained [z.any()], which accepts every value it is given,
    [undefined] as well. *)
Theorem C3_required_and_optional_nodes
    (schema : JsonSchema) (props : list (string * FieldSpec)) (key : string)
    (value : FieldSpec) :
  properties schema = Some props ->
  lastEntry props key = Some value ->
  exists node,
    obj_get (jsonSchemaToZodShape (Some schema)) key = Some node /\
    description_of node = Some (or_empty (Schema.description value)) /\
    (isRequired schema key = false ->
       is_ZodOptional node = true /\ accepts node JUndefined = true) /\
    (isRequired schema key = true ->
       is_ZodOptional node = false /\
       (constrained (type value) = true -> accepts node JUndefined = false) /\
       (undeclared (type value) = true ->
          def_of node = ZodAny /\ forall v, accepts node v = true)).
Proof.
  intros Hp He.
  node_of_entry schema props key value Hp He.
  split; [apply description_fieldNode|]. split; intros Hr.
  - rewrite optional_fieldNode, accepts_fieldNode, Hr. split; reflexivity.
  - rewrite optional_fieldNode, accepts_fieldNode, Hr, zodTypeOf_not_optional.
    split; [reflexivity|]. split.
    + intros Hc. now rewrite constrained_rejects_undefined.
    + intros Hu. split.
      * unfold fieldNode. rewrite Hr. cbn [describe def_of].
        now rewrite (zodTypeOf_undeclared value Hu).
      * intros v. rewrite accepts_fieldNode, Hr.
        now rewrite (accepts_zodTypeOf_undeclared value v Hu).
Qed.

(** C3 at a schema with [required: ['subject']] and an optional [body]:
    [subject] is required and described, [body] is optional with the empty
    description. *)
Lemma C3_witness :
  (exists node,
      obj_get (jsonSchemaToZodShape (Some schema_subject_body)) "subject" = Some node /\
      description_of node = Some "Subject" /\
      is_ZodOptional node = false /\ accepts node JUndefined = false) /\
  (exists node,
      obj_get (jsonSchemaToZodShape (Some schema_subject_body)) "body" = Some node /\
      description_of node = Some "" /\
      is_ZodOptional node = true /\ accepts node JUndefined = true).
Proof.
  split.
  - destruct (C3_required_and_optional_nodes schema_subject_body
                [("subject", mkFieldSpec (TypeTag "string") None (Some "Subject"));
                 ("body", mkFieldSpec (TypeTag "string") None None)]
                "subject" (mkFieldSpec (TypeTag "string") None (Some "Subject"))
                eq_refl eq_refl) as (node & Hget & Hd & _ & Hreq).
    exists node. destruct (Hreq eq_refl) as (Ho & Hu & _).
    repeat split; [exact Hget|exact Hd|exact Ho|exact (Hu eq_refl)].
  - destruct (C3_required_and_optional_nodes schema_subject_body
                [("subject", mkFieldSpec (TypeTag "string") None (Some "Subject"));
                 ("body", mkFieldSpec (TypeTag "string") None None)]
                "body" (mkFieldSpec (TypeTag "string") None None)
                eq_refl eq_refl) as (node & Hget & Hd & Hopt & _).
    exists node. destruct (Hopt eq_refl) as [Ho Hu].
    repeat split; [exact Hget|exact Hd|exact Ho|exact Hu].
Defined.

(** C3 as stated fails at [{properties: {x: {}}, required: ['x']}]: [x] is
    listed in [required], yet its node is the unconstrained [z.any()],
    which accepts [undefined], and under the object parser of zod 3 the
    call [{}], which omits [x], passes validation. *)
Lemma C3_counterexample :
  isRequired schema_untyped_required "x" = true /\
  (exists node,
      obj_get (jsonSchemaToZodShape (Some schema_untyped_required)) "x" = Some node /\
      accepts node JUndefined = true) /\
  validate (Some schema_untyped_required) (JObject []) = Some (JObject []).
Proof.
  split; [reflexivity|]. split; [|reflexivity].
  eexists. split; reflexivity.
Qed.

(** C4.  The translator is a total function on the schemas of the data
    model, in which the schema, its [properties], its [required] list and
    the [type], [enum] and [description] of a field can each be absent: it
    returns a shape for every one of them and throws for none.  An absent
    schema and a schema without [properties] give the empty shape, under
    which every argument object passes validation; a field whose [type]
    is missing, or a tag that is none of the five, gets a node that
    accepts every value. *)
Theorem C4_empty_shape_and_unconstrained_fallback :
  jsonSchemaToZodShape None = [] /\
  (forall required, jsonSchemaToZodShape (Some (mkJsonSchema None required)) = []) /\
  (forall args, validate None (JObject args) = Some (JObject [])) /\
  (forall schema props key value v,
      properties schema = Some props ->
      lastEntry props key = Some value ->
      undeclared (type value) = true ->
      exists node,
        obj_get (jsonSchemaToZodShape (Some schema)) key = Some node /\
        accepts node v = true).
Proof.
  repeat split.
  intros schema props key value v Hp He Hu.
  node_of_entry schema props key value Hp He.
  rewrite accepts_fieldNode, accepts_zodTypeOf_undeclared by exact Hu.
  apply orb_true_r.
Qed.

(** C4 at [{properties: {x: {}}, required: ['x']}]: the node of [x], a
    field without a [type], accepts the number [42]. *)
Lemma C4_witness :
  exists node,
    obj_get (jsonSchemaToZodShape (Some schema_untyped_required)) "x" = Some node /\
    accepts node (JNumber 42) = true.
Proof.
  destruct C4_empty_shape_and_unconstrained_fallback as (_ & _ & _ & H).
  exact (H schema_untyped_required [("x", mkFieldSpec TypeAbsent None None)] "x"
           (mkFieldSpec TypeAbsent None None) (JNumber 42) eq_refl eq_refl eq_refl).
Defined.

Lemma includes_In (values : list string) (s : string) :
  includes values s = true <-> In s values.
Proof.
  unfold includes. rewrite existsb_exists. split.
  - intros (x & Hin & Heq). apply String.eqb_eq in Heq. now subst x.
  - intros Hin. exists s. split; [exact Hin|apply String.eqb_refl].
Qed.

(** C8.  A field with [type: 'string'] and an [enum] gets a node that, of
    the values a call can supply, accepts the strings listed in the [enum]
    and nothing else.  On a field whose [type] is anything but the single
    tag [string] (a list of tags that contains [string] as well) the
    [enum] is not read: the node is the one the translator derives for
    the field without its [enum]. *)
Theorem C8_enum_restricts_strings_only
    (schema : JsonSchema) (props : list (string * FieldSpec)) (key : string)
    (value : FieldSpec) :
  properties schema = Some props ->
  lastEntry props key = Some value ->
  exists node,
    obj_get (jsonSchemaToZodShape (Some schema)) key = Some node /\
    (forall values,
        type value = TypeTag "string" -> enum value = Some values ->
        forall v, v <> JUndefined ->
          (accepts node v = true <-> exists s, v = JString s /\ In s values)) /\
    (type value <> TypeTag "string" ->
       obj_get (jsonSchemaToZodShape
                  (Some (mkJsonSchema (Some [(key, withoutEnum value)]) (required schema))))
               key = Some node).
Proof.
  intros Hp He.
  node_of_entry schema props key value Hp He.
  split.
  - intros values Ht Hen v Hv. rewrite accepts_fieldNode.
    rewrite (accepts_zodTypeOf_enum value values v Ht Hen).
    destruct v; cbn [is_undefined]; rewrite ?andb_false_r; cbn [orb];
      try (split; [discriminate|intros (s0 & Hs & _); discriminate]).
    + now elim Hv.
    + rewrite includes_In. split.
      * intros Hin. exists s. now split.
      * intros (s0 & Hs & Hin). now injection Hs as ->.
  - intros Hne.
    rewrite (shape_get (mkJsonSchema (Some [(key, withoutEnum value)]) (required schema))
               [(key, withoutEnum value)] key eq_refl).
    cbn [lastEntry]. rewrite String.eqb_refl. cbn [option_map].
    unfold fieldNode, isRequired. cbn [required Schema.description withoutEnum].
    now rewrite zodTypeOf_withoutEnum.
Qed.

(** C8 at [{properties: {importance: {type: 'string', enum: ['low', 'high']},
    flags: {type: ['string', 'array'], enum: ['a']}}}]: the node of
    [importance] accepts ["high"] and rejects ["urgent"]; the node of
    [flags], whose [enum] is not read, accepts the string ["zzz"]. *)
Lemma C8_witness :
  (exists node,
      obj_get (jsonSchemaToZodShape (Some schema_enum)) "importance" = Some node /\
      accepts node (JString "high") = true /\
      accepts node (JString "urgent") = false) /\
  (exists node,
      obj_get (jsonSchemaToZodShape (Some schema_enum)) "flags" = Some node /\
      accepts node (JString "zzz") = true).
Proof.
  split.
  - destruct (C8_enum_restricts_strings_only schema_enum
                [("importance", mkFieldSpec (TypeTag "string") (Some ["low"; "high"]) None);
                 ("flags", mkFieldSpec (TypeList ["string"; "array"]) (Some ["a"]) None)]
                "importance" (mkFieldSpec (TypeTag "string") (Some ["low"; "high"]) None)
                eq_refl eq_refl) as (node & Hget & Henum & _).
    exists node. split; [exact Hget|]. split.
    + apply (Henum ["low"; "high"] eq_refl eq_refl); [discriminate|].
      exists "high". split; [reflexivity|]. right. now left.
    + destruct (accepts node (JString "urgent")) eqn:E; [|reflexivity].
      apply (Henum ["low"; "high"] eq_refl eq_refl) in E; [|discriminate].
      destruct E as (s & Hs & [Hin|[Hin|[]]]); subst s; discriminate.
  - destruct (C8_enum_restricts_strings_only schema_enum
                [("importance", mkFieldSpec (TypeTag "string") (Some ["low"; "high"]) None);
                 ("flags", mkFieldSpec (TypeList ["string"; "array"]) (Some ["a"]) None)]
                "flags" (mkFieldSpec (TypeList ["string"; "array"]) (Some ["a"]) None)
                eq_refl eq_refl) as (node & Hget & _ & Hign).
    exists node. split; [exact Hget|].
    assert (Hnode : Some (describe (optional (z_union [z_string; z_array z_any])) "")
                    = Some node) by (apply Hign; discriminate).
    injection Hnode as <-. reflexivity.
Defined.

Lemma includes_filter_other (names : list string) (key k : string) :
  k <> key ->
  includes (filter (fun n => negb (n =? key)) names) k = includes names k.
Proof.
  intros Hne. unfold includes.
  induction names as [|n names IH]; [reflexivity|].
  cbn [filter existsb]. destruct (n =? key) eqn:E; cbn [negb existsb].
  - apply String.eqb_eq in E; subst n.
    apply String.eqb_neq in Hne. now rewrite Hne.
  - now rewrite IH.
Qed.

Lemma isRequired_dropRequired (schema : JsonSchema) (key k : string) :
  k <> key -> isRequired (dropRequired schema key) k = isRequired schema k.
Proof.
  intros Hne. unfold isRequired, dropRequired. cbn [required].
  destruct (required schema) as [names|]; [|reflexivity].
  cbn [option_map]. now apply includes_filter_other.
Qed.

Lemma fold_addField_ext (schema schema' : JsonSchema)
    (props : list (string * FieldSpec)) (acc : list (string * ZodType)) :
  (forall k, In k (map fst props) -> isRequired schema' k = isRequired schema k) ->
  fold_left (addField schema') props acc = fold_left (addField schema) props acc.
Proof.
  revert acc. induction props as [|[k value] rest IH]; intros acc H; [reflexivity|].
  cbn [fold_left]. rewrite IH by (intros k0 Hk0; apply H; now right).
  f_equal. unfold addField. now rewrite (H k (or_introl eq_refl)).
Qed.

(** C10.  A name that is listed in [required] and is not a key of
    [properties] has no node in the derived shape, and the shape is the
    one of the schema without the name in [required]: every call passes or
    fails validation as if the name were not required, so its omission is
    never the reason of a rejection. *)
Theorem C10_required_name_without_property
    (schema : JsonSchema) (props : list (string * FieldSpec)) (key : string) :
  properties schema = Some props ->
  isRequired schema key = true ->
  ~ In key (map fst props) ->
  obj_get (jsonSchemaToZodShape (Some schema)) key = None /\
  jsonSchemaToZodShape (Some schema) = jsonSchemaToZodShape (Some (dropRequired schema key)) /\
  (forall args, validate (Some schema) args = validate (Some (dropRequired schema key)) args).
Proof.
  intros Hp _ Hnot.
  assert (Hshape : jsonSchemaToZodShape (Some schema)
                   = jsonSchemaToZodShape (Some (dropRequired schema key))).
  { unfold jsonSchemaToZodShape. cbn [properties dropRequired]. rewrite Hp.
    symmetry. apply fold_addField_ext. intros k Hk.
    apply isRequired_dropRequired. intros ->. contradiction. }
  split; [|split].
  - rewrite (shape_get schema props key Hp).
    apply lastEntry_none_iff in Hnot. now rewrite Hnot.
  - exact Hshape.
  - intros args. unfold validate. now rewrite Hshape.
Qed.

(** C10 at [{properties: {subject: {type: 'string'}}, required: ['subject',
    'ghost']}]: [ghost] has no node, and the call [{subject: 'hi'}], which
    omits [ghost], passes validation. *)
Lemma C10_witness :
  obj_get (jsonSchemaToZodShape (Some schema_ghost)) "ghost" = None /\
  validate (Some schema_ghost) (JObject [("subject", JString "hi")])
    = Some (JObject [("subject", JString "hi")]).
Proof.
  destruct (C10_required_name_without_property schema_ghost
              [("subject", mkFieldSpec (TypeTag "string") None None)] "ghost"
              eq_refl eq_refl) as (Hnone & _ & Hvalid).
  - intros [H|[]]. discriminate.
  - split; [exact Hnone|]. rewrite Hvalid. reflexivity.
Defined.

(* ===================================================================== *)
(** ** The registration loop *)
(* ===================================================================== *)

Lemma register_inl (server : Mcp.McpServer) (tool : ToolDescriptor) :
  obj_has (Mcp._registeredTools server) (name tool) = true ->
  exists e, register server tool = inl e.
Proof.
  intros H. unfold register, Mcp.tool, Mcp.taken. rewrite H. eexists. reflexivity.
Qed.

Lemma register_inr (server server' : Mcp.McpServer) (tool : ToolDescriptor) :
  register server tool = inr server' ->
  Mcp.connected server' = Mcp.connected server /\
  forall n, obj_has (Mcp._registeredTools server') n
            = (name tool =? n) || obj_has (Mcp._registeredTools server) n.
Proof.
  unfold register, Mcp.tool.
  destruct (Mcp.taken server (name tool)); [discriminate|].
  intros H. injection H as <-. cbn [Mcp.connected Mcp._registeredTools].
  split; [reflexivity|]. intros n. apply obj_has_set.
Qed.

(** The loop never connects the server. *)
Lemma registerAll_connected (TOOLS : list ToolDescriptor) (server : Mcp.McpServer) :
  Mcp.connected (snd (registerAll TOOLS server)) = Mcp.connected server.
Proof.
  revert server. induction TOOLS as [|tool rest IH]; intros server; [reflexivity|].
  cbn [registerAll]. destruct (register server tool) as [e|server'] eqn:E.
  - reflexivity.
  - rewrite IH. now apply register_inr in E.
Qed.

(** After a loop that ended without an error every name of the list is
    registered. *)
Lemma registerAll_registered (TOOLS : list ToolDescriptor) (server server' : Mcp.McpServer) :
  registerAll TOOLS server = (None, server') ->
  forall n,
    In n (map name TOOLS) \/ obj_has (Mcp._registeredTools server) n = true ->
    obj_has (Mcp._registeredTools server') n = true.
Proof.
  revert server. induction TOOLS as [|tool rest IH]; intros server H n Hn.
  - cbn in H. injection H as <-. destruct Hn as [[]|Hn]. exact Hn.
  - cbn [registerAll] in H.
    destruct (register server tool) as [e|server1] eqn:E; [discriminate|].
    apply (IH server1 H n). apply register_inr in E as [_ Ereg].
    rewrite Ereg. destruct Hn as [[Hn|Hn]|Hn].
    + right. subst n. now rewrite String.eqb_refl.
    + now left.
    + right. rewrite Hn. apply orb_true_r.
Qed.

Lemma registerAll_app (l1 l2 : list ToolDescriptor) (server : Mcp.McpServer) :
  registerAll (l1 ++ l2) server =
    match registerAll l1 server with
    | (Some e, server') => (Some e, server')
    | (None, server') => registerAll l2 server'
    end.
Proof.
  revert server. induction l1 as [|tool rest IH]; intros server; [reflexivity|].
  cbn [app registerAll]. destruct (register server tool); [reflexivity|apply IH].
Qed.

(** C5.  When two entries of the tool list have the same name, the
    registration loop ends with an error, thrown by [server.tool] at the
    second of the two at the latest; the evaluation of the module stops
    there, the server is never connected, and no tool can be invoked. *)
Theorem C5_duplicate_name_fails_at_startup
    (pre mid post : list ToolDescriptor) (t1 t2 : ToolDescriptor) :
  name t1 = name t2 ->
  exists e server,
    main (pre ++ t1 :: mid ++ t2 :: post) = (Some e, server) /\
    Mcp.connected server = false /\
    forall n, Mcp.invokable server n = false.
Proof.
  intros Hname.
  assert (Hloop : exists e server,
             registerAll (pre ++ t1 :: mid ++ t2 :: post) Mcp.new_McpServer
             = (Some e, server)).
  { replace (pre ++ t1 :: mid ++ t2 :: post)%list
      with ((pre ++ t1 :: mid) ++ t2 :: post)%list
      by (rewrite <- app_assoc; reflexivity).
    rewrite registerAll_app.
    destruct (registerAll (pre ++ t1 :: mid) Mcp.new_McpServer) as [[e|] server] eqn:E.
    - now exists e, server.
    - assert (Hreg : obj_has (Mcp._registeredTools server) (name t2) = true).
      { apply (registerAll_registered _ _ _ E). left.
        rewrite map_app. apply in_or_app. right. left. exact Hname. }
      destruct (register_inl server t2 Hreg) as [e He].
      exists e, server. cbn [registerAll]. now rewrite He. }
  destruct Hloop as (e & server & Hloop).
  assert (Hconn : Mcp.connected server = false).
  { pose proof (registerAll_connected (pre ++ t1 :: mid ++ t2 :: post) Mcp.new_McpServer)
      as H. now rewrite Hloop in H. }
  exists e, server. unfold main. rewrite Hloop.
  split; [reflexivity|]. split; [exact Hconn|].
  intros n. unfold Mcp.invokable. now rewrite Hconn.
Qed.

(** C5 at a list with two tools named [list_emails]: the loop fails with
    the error of [server.tool] and nothing is invokable. *)
Lemma C5_witness :
  exists e server,
    main [tool_list_emails recordingHandler; tool_create_event;
          tool_list_emails (fun _ => ret JNull)] = (Some e, server) /\
    Mcp.connected server = false /\
    forall n, Mcp.invokable server n = false.
Proof.
  exact (C5_duplicate_name_fails_at_startup [] [tool_create_event] []
           (tool_list_emails recordingHandler) (tool_list_emails (fun _ => ret JNull))
           eq_refl).
Defined.

(* ===================================================================== *)
(** ** The wrapped handler *)
(* ===================================================================== *)

(** *** Numbers in print *)

(** [String(n)] on integers below and beyond [2 ^ 53], where not every
    integer is a double, on fractions, and from [1e21] on, where the
    exponent form starts. *)
Example NumberToString_examples :
  NumberToString 42 = "42" /\
  NumberToString (-7) = "-7" /\
  NumberToString (2 ^ 53 + 1) = "9007199254740992" /\
  NumberToString (2 ^ 64) = "18446744073709552000" /\
  NumberToString (10 ^ 21) = "1e+21" /\
  NumberToString (2 ^ 70) = "1.1805916207174113e+21" /\
  NumberToString (mkNumber 15 (-1)) = "1.5" /\
  NumberToString (mkNumber 30000000000000004 (-17)) = "0.30000000000000004" /\
  NumberToString (mkNumber 1 (-7)) = "1e-7" /\
  NumberToString (mkNumber 5 (-324)) = "5e-324" /\
  NumberToString (mkNumber 1 400) = "Infinity".
Proof. vm_compute. repeat split. Qed.

(** [JSON.stringify] prints a number as [String] does, and [null] for an
    infinity. *)
Example stringify_number_examples :
  JSON.stringify (JNumber (10 ^ 21)) (Some 2%nat) = JString "1e+21" /\
  JSON.stringify (JArray [JNumber (mkNumber 25 (-1)); JNumber (mkNumber 1 400)]) None
    = JString "[2.5,null]".
Proof. vm_compute. split; reflexivity. Qed.

(** *** [JSON.stringify] with a gap of two blanks prints the lines of the
    specification *)

Import Pretty.

Lemma append_assoc (a b c : string) : (a ++ b) ++ c = a ++ b ++ c.
Proof. induction a as [|x a IH]; [reflexivity|]. cbn. now rewrite IH. Qed.

Lemma append_nil_r (a : string) : a ++ "" = a.
Proof. induction a as [|x a IH]; [reflexivity|]. cbn. now rewrite IH. Qed.

Lemma indentation_S (level : nat) : indentation level ++ "  " = indentation (S level).
Proof.
  induction level as [|level IH]; [reflexivity|].
  change (indentation (S level)) with ("  " ++ indentation level) at 1.
  rewrite append_assoc, IH. reflexivity.
Qed.

Lemma concat_following (x : string) (xs : list string) :
  String.concat JSON.newline (x :: xs)
  = x ++ fold_right (fun y acc => JSON.newline ++ y ++ acc) "" xs.
Proof.
  revert x. induction xs as [|y xs IH]; intros x.
  - cbn. now rewrite append_nil_r.
  - change (String.concat JSON.newline (x :: y :: xs))
      with (x ++ JSON.newline ++ String.concat JSON.newline (y :: xs)).
    rewrite IH. reflexivity.
Qed.

Lemma following_cons (l : Line) (rest : list Line) :
  following (l :: rest) = JSON.newline ++ indentation (fst l) ++ snd l ++ following rest.
Proof. reflexivity. Qed.

Lemma text_inline (block : list Line) : startsAt 0 block -> text block = inline block.
Proof.
  intros (s & rest & ->). unfold text. cbn [map fst snd indentation inline].
  rewrite concat_following. cbn [append]. f_equal.
  induction rest as [|l rest IH]; [reflexivity|].
  cbn [map fold_right]. rewrite IH, following_cons, append_assoc. reflexivity.
Qed.

Lemma following_app (a b : list Line) : following (a ++ b) = following a ++ following b.
Proof.
  induction a as [|l a IH]; [reflexivity|].
  rewrite <- app_comm_cons, !following_cons, IH. now rewrite !append_assoc.
Qed.

Lemma following_suffix (p : string) (block : list Line) :
  block <> [] -> following (suffix p block) = following block ++ p.
Proof.
  induction block as [|[level s] rest IH]; [congruence|]. intros _.
  destruct rest as [|l rest].
  - cbn. now rewrite !append_assoc, append_nil_r.
  - change (suffix p ((level, s) :: l :: rest)) with ((level, s) :: suffix p (l :: rest)).
    rewrite (following_cons (level, s)), (following_cons (level, s) (l :: rest)).
    rewrite IH by discriminate. now rewrite !append_assoc.
Qed.

Lemma following_startsAt (level : nat) (block : list Line) :
  startsAt level block ->
  following block = JSON.newline ++ indentation level ++ inline block.
Proof. intros (s & rest & ->). reflexivity. Qed.

Lemma startsAt_nonempty (level : nat) (block : list Line) : startsAt level block -> block <> [].
Proof. intros (s & rest & ->). discriminate. Qed.

Lemma startsAt_prefix (level : nat) (p : string) (block : list Line) :
  startsAt level block ->
  startsAt level (prefix p block) /\ inline (prefix p block) = p ++ inline block.
Proof.
  intros (s & rest & ->). split.
  - now exists (p ++ s), rest.
  - cbn. now rewrite append_assoc.
Qed.

Lemma following_separate (level : nat) (members : list (list Line)) :
  Forall (startsAt level) members ->
  members <> [] ->
  following (separate members)
  = JSON.newline ++ indentation level
      ++ JSON.join ("," ++ JSON.newline ++ indentation level) (map inline members).
Proof.
  induction members as [|m rest IH]; [congruence|]. intros Hall _.
  inversion Hall as [|m' rest' Hm Hrest]; subst.
  destruct rest as [|m2 rest].
  - cbn [separate map JSON.join]. now apply following_startsAt.
  - change (separate (m :: m2 :: rest)) with (suffix "," m ++ separate (m2 :: rest))%list.
    rewrite following_app, following_suffix by (now apply (startsAt_nonempty level)).
    rewrite (following_startsAt level m Hm), IH by (auto; discriminate).
    change (map inline (m :: m2 :: rest)) with (inline m :: map inline (m2 :: rest)).
    change (JSON.join ?sep (?p :: map inline (m2 :: rest)))
      with (p ++ sep ++ JSON.join sep (map inline (m2 :: rest))).
    now rewrite !append_assoc.
Qed.

Lemma wrap_bracket (level : nat) (open close : string) (members : list (list Line)) :
  Forall (startsAt (S level)) members ->
  JSON.wrap open close "  " (indentation level) (indentation level ++ "  ")
    (map inline members)
  = inline (bracket level open close members) /\
  startsAt level (bracket level open close members).
Proof.
  intros Hall. split.
  - destruct members as [|m rest];
      [unfold JSON.wrap, bracket; cbn [map inline following]; now rewrite append_nil_r|].
    unfold JSON.wrap, bracket. cbn [map String.eqb Ascii.eqb Bool.eqb inline].
    rewrite following_app, (following_separate (S level)) by (auto; discriminate).
    rewrite indentation_S. cbn [following fst snd].
    now rewrite !append_assoc, append_nil_r.
  - unfold bracket. destruct members; eexists; eexists; reflexivity.
Qed.

Lemma serialize_lines :
  forall (v : JsValue) (level : nat),
    startsAt level (lines level v) /\
    match JSON.SerializeJSONProperty "  " (indentation level) v with
    | Some strP => v <> JUndefined /\ strP = inline (lines level v)
    | None => v = JUndefined
    end.
Proof.
  fix IH 1. intros v level.
  destruct v as [| |b|n|s|elems|props].
  - split; [now exists "null", []|reflexivity].
  - split; [now exists "null", []|]. split; [discriminate|reflexivity].
  - split; [eexists; eexists; reflexivity|]. destruct b; (split; [discriminate|reflexivity]).
  - split; [eexists; eexists; reflexivity|]. split; [discriminate|].
    cbn. now rewrite append_nil_r.
  - split; [eexists; eexists; reflexivity|]. split; [discriminate|].
    cbn. now rewrite append_nil_r.
  - cbn [JSON.SerializeJSONProperty lines].
    match goal with
    | |- context [JSON.wrap _ _ _ _ _ ?partial] => set (strs := partial)
    end.
    match goal with
    | |- context [bracket _ _ _ ?ms] => set (members := ms)
    end.
    assert (H : Forall (startsAt (S level)) members /\ strs = map inline members).
    { subst strs members. induction elems as [|x rest IHl]; [split; [constructor|reflexivity]|].
      destruct IHl as [Hall Hstrs].
      destruct (IH x (S level)) as [Hstart Hx]. rewrite <- indentation_S in Hx.
      split; [constructor; assumption|].
      cbn [map]. rewrite <- Hstrs. f_equal.
      destruct (JSON.SerializeJSONProperty "  " (indentation level ++ "  ") x).
      - now destruct Hx.
      - subst x. reflexivity. }
    destruct H as [Hall ->].
    destruct (wrap_bracket level "[" "]" members Hall) as [Hw Hs].
    split; [exact Hs|]. split; [discriminate|exact Hw].
  - cbn [JSON.SerializeJSONProperty lines].
    match goal with
    | |- context [JSON.wrap _ _ _ _ _ ?partial] => set (strs := partial)
    end.
    match goal with
    | |- context [bracket _ _ _ ?ms] => set (members := ms)
    end.
    assert (H : Forall (startsAt (S level)) members /\ strs = map inline members).
    { subst strs members.
      induction props as [|[key x] rest IHl]; [split; [constructor|reflexivity]|].
      destruct IHl as [Hall Hstrs].
      destruct (IH x (S level)) as [Hstart Hx]. rewrite <- indentation_S in Hx.
      destruct (JSON.SerializeJSONProperty "  " (indentation level ++ "  ") x) as [strP|].
      - destruct Hx as [Hx ->].
        assert (Hu : is_undefined x = false) by (destruct x; [congruence|reflexivity..]).
        rewrite Hu.
        destruct (startsAt_prefix (S level) (JSON.QuoteJSONString key ++ ": ") _ Hstart)
          as [Hstart' Hinline].
        split; [constructor; assumption|].
        cbn [map]. rewrite Hinline, <- Hstrs. f_equal.
        cbn [String.eqb Ascii.eqb Bool.eqb]. now rewrite !append_assoc.
      - subst x. cbn [is_undefined]. split; assumption. }
    destruct H as [Hall ->].
    destruct (wrap_bracket level "{" "}" members Hall) as [Hw Hs].
    split; [exact Hs|]. split; [discriminate|exact Hw].
Qed.

Lemma stringify_pretty (v : JsValue) :
  JSON.stringify v (Some 2%nat) = if is_undefined v then JUndefined else JString (pretty v).
Proof.
  unfold JSON.stringify, pretty.
  change (JSON.spaces (Nat.min 2 10)) with "  ".
  destruct (serialize_lines v 0) as [Hstart H]. cbn [indentation] in H.
  rewrite (text_inline _ Hstart).
  destruct (JSON.SerializeJSONProperty "  " "" v) as [strP|].
  - destruct H as [Hv ->]. destruct v; [congruence|reflexivity..].
  - subst v. reflexivity.
Qed.

(** C6, as the code has it.  When the handler of a tool returns [result],
    the wrapped invocation returns the envelope [{content: [{type: 'text',
    text: t}]}] with one content element and logs nothing after the
    handler.  For every result but [undefined], [t] is the pretty-printed
    JSON text of the result: a literal on one line; an array or object
    with its members on lines of their own, two blanks deeper for every
    level of nesting and separated by commas, between the brackets; a
    member that is [undefined] left out of an object and printed as
    [null] in an array.  When the result is [undefined], [t] is
    [undefined] and no text. *)
Theorem C6_result_is_wrapped_as_pretty_json
    (tool : ToolDescriptor) (args result : JsValue) (log log' : list LogEntry) :
  handler tool (or_else args (JObject [])) (log ++ [calledEntry tool args])%list
    = (Fulfilled result, log') ->
  wrappedHandler tool args log
    = (Fulfilled
         (JObject [("content",
                    JArray [JObject [("type", JString "text");
                                     ("text", if is_undefined result then JUndefined
                                              else JString (pretty result))]])]),
       log').
Proof.
  intros H. unfold wrappedHandler, try_catch, bind, logger_info.
  fold (calledEntry tool args). rewrite H. cbn [ret envelope].
  now rewrite stringify_pretty.
Qed.

(** C6 at a handler that returns [{status: 'success', count: 2}]: the text
    of the envelope is the object printed on three lines with two blanks
    of indentation. *)
Lemma C6_witness :
  wrappedHandler tool_success JUndefined []
    = (Fulfilled
         (JObject [("content",
                    JArray [JObject [("type", JString "text");
                                     ("text", JString text_success)]])]),
       [calledEntry tool_success JUndefined]).
Proof.
  exact (C6_result_is_wrapped_as_pretty_json tool_success JUndefined result_success
           [] [calledEntry tool_success JUndefined] eq_refl).
Defined.

(** C6 as stated fails at a handler that returns nothing: the wrapped
    invocation returns an envelope whose [text] is [undefined], which is
    no JSON text and no string. *)
Lemma C6_counterexample :
  wrappedHandler tool_void (JObject []) []
    = (Fulfilled
         (JObject [("content",
                    JArray [JObject [("type", JString "text"); ("text", JUndefined)]])]),
       [calledEntry tool_void (JObject [])]) /\
  forall t, JSON.stringify JUndefined (Some 2%nat) <> JString t.
Proof.
  split; [reflexivity|]. intros t. discriminate.
Qed.

(** C7.  When the handler of a tool throws [e], or rejects with it, the
    wrapped invocation logs an error entry that names the tool and carries
    [e], and then rejects with the same [e]; it does not return an
    envelope. *)
Theorem C7_failure_is_logged_and_rethrown
    (tool : ToolDescriptor) (args : JsValue) (e : Thrown) (log log' : list LogEntry) :
  handler tool (or_else args (JObject [])) (log ++ [calledEntry tool args])%list
    = (Rejected e, log') ->
  wrappedHandler tool args log = (Rejected e, (log' ++ [failedEntry tool e])%list).
Proof.
  intros H. unfold wrappedHandler, try_catch, bind, logger_info.
  fold (calledEntry tool args). rewrite H. reflexivity.
Qed.

(** C7 at a handler that throws [Error('boom')]: the wrapped invocation
    rejects with the error of message [boom], after the log entry
    [Error in tool explode:] with that error. *)
Lemma C7_witness :
  wrappedHandler tool_boom (JObject []) []
    = (Rejected (ThrownError "boom"),
       [calledEntry tool_boom (JObject []);
        mkLogEntry error "Error in tool explode:" (MetaThrown (ThrownError "boom"))]).
Proof.
  exact (C7_failure_is_logged_and_rethrown tool_boom (JObject []) (ThrownError "boom")
           [] [calledEntry tool_boom (JObject [])] eq_refl).
Defined.

(** A field of type [object] gets a node that accepts every mapping,
    whatever its members. *)
Lemma object_field_accepts_every_mapping
    (schema : JsonSchema) (key : string) (value : FieldSpec)
    (members : list (string * JsValue)) :
  type value = TypeTag "object" ->
  accepts (fieldNode schema key value) (JObject members) = true.
Proof.
  intros Ht. rewrite accepts_fieldNode.
  rewrite (accepts_zodTypeOf_tag value "object" (JObject members) Ht eq_refl)
    by discriminate.
  apply orb_true_r.
Qed.

(** The output of the node of an [object] field has no members. *)
Lemma object_field_output_is_empty
    (schema : JsonSchema) (key : string) (value : FieldSpec)
    (members : list (string * JsValue)) :
  type value = TypeTag "object" ->
  _parse (fieldNode schema key value) (JObject members) = Some (JObject []).
Proof.
  intros Ht. unfold fieldNode, zodTypeOf. rewrite Ht. cbn [String.eqb Ascii.eqb Bool.eqb].
  destruct (isRequired schema key); reflexivity.
Qed.

(** Without arguments the wrapped handler calls the handler with [{}]. *)
Lemma wrappedHandler_without_arguments (tool : ToolDescriptor) (log : list LogEntry) :
  wrappedHandler tool JUndefined log
  = try_catch
      (bind (handler tool (JObject []))
            (fun result => ret (envelope (JSON.stringify result (Some 2)))))
      (fun e => bind (logger_error ("Error in tool " ++ name tool ++ ":") e)
                     (fun _ => throw e))
      (log ++ [calledEntry tool JUndefined])%list.
Proof. reflexivity. Qed.

(** C9 (the code at the failing input).  The claim wants the handler to be
    invoked with the mapping the caller supplied for a field of type
    [object].  The node of such a field is [z.object({})], whose output
    keeps the keys of its empty shape only: for the tool [create_event]
    with [location: {type: ['string', 'object']}], called with
    [{subject: 'Standup', location: {displayName: 'Room 123'}}], the
    validation succeeds and the handler is invoked with
    [{subject: 'Standup', location: {}}]. *)
Theorem C9_object_members_are_stripped :
  validate (Some schema_event) args_event = Some args_event_stripped /\
  exists server,
    main [tool_create_event] = (None, server) /\
    Mcp.invokable server "create_event" = true /\
    exists result log,
      Mcp.callTool server "create_event" args_event [] = (Fulfilled result, log) /\
      In (mkLogEntry info "handler invoked with" (MetaValue args_event_stripped)) log /\
      ~ In (mkLogEntry info "handler invoked with" (MetaValue args_event)) log.
Proof.
  split; [reflexivity|].
  eexists. split; [reflexivity|]. split; [reflexivity|].
  eexists. eexists. split; [reflexivity|]. split.
  - right. left. reflexivity.
  - intros [H|[H|[]]]; discriminate H.
Qed.

From Stdlib Require Import Permutation.

(* ===================================================================== *)
(** ** More on the registration loop and the dispatch *)
(* ===================================================================== *)

(** What the loop registers for a tool. *)
Lemma register_result (server : Mcp.McpServer) (tool : ToolDescriptor) :
  register server tool =
    if Mcp.taken server (name tool)
    then inl (ThrownError ("Tool " ++ name tool ++ " is already registered"))
    else inr (Mcp.mkMcpServer
                (obj_set (Mcp._registeredTools server) (name tool)
                   (Mcp.mkRegisteredTool (or_empty (description tool))
                      (z_object (jsonSchemaToZodShape (parameters tool)))
                      (wrappedHandler tool)))
                (Mcp.connected server)).
Proof. reflexivity. Qed.

Lemma registerAll_none_iff (TOOLS : list ToolDescriptor) (server : Mcp.McpServer) :
  (exists server', registerAll TOOLS server = (None, server')) <->
  NoDup (map name TOOLS) /\
  (forall n, In n (map name TOOLS) -> Mcp.taken server n = false).
Proof.
  revert server. induction TOOLS as [|tool rest IH]; intros server.
  - cbn. split.
    + intros _. split; [constructor|intros n []].
    + intros _. now exists server.
  - cbn [registerAll map]. rewrite register_result.
    destruct (Mcp.taken server (name tool)) eqn:Ehas.
    + split.
      * intros [server' H]. discriminate.
      * intros [_ H]. rewrite (H (name tool)) in Ehas by now left. discriminate.
    + rewrite IH. unfold Mcp.taken in *. cbn [Mcp._registeredTools]. split.
      * intros [Hnd Hfresh]. split.
        -- constructor; [|exact Hnd]. intros Hin.
           specialize (Hfresh _ Hin). rewrite obj_has_set, String.eqb_refl in Hfresh.
           discriminate.
        -- intros n [<-|Hin]; [exact Ehas|].
           specialize (Hfresh _ Hin). rewrite obj_has_set in Hfresh.
           destruct (name tool =? n); [discriminate|exact Hfresh].
      * intros [Hnd Hfresh]. inversion Hnd as [|x l Hnotin Hnd']; subst. split; [exact Hnd'|].
        intros n Hin. rewrite obj_has_set.
        replace (name tool =? n) with false; [apply Hfresh; now right|].
        symmetry. apply String.eqb_neq. intros <-. contradiction.
Qed.

(** X1.  The module registers all its tools and connects the server
    exactly when the names of the tools are pairwise distinct and none of
    them is the name of a property of [Object.prototype], such as
    [constructor] or [toString], under which the registry of the server
    reads as taken from the start; the server is then connected and every
    tool of the list can be invoked. *)
Theorem main_succeeds_iff_names_distinct (TOOLS : list ToolDescriptor) :
  (exists server,
      main TOOLS = (None, server) /\
      Mcp.connected server = true /\
      forall tool, In tool TOOLS -> Mcp.invokable server (name tool) = true)
  <-> NoDup (map name TOOLS) /\
      (forall tool, In tool TOOLS -> includes Object_prototype (name tool) = false).
Proof.
  unfold main. split.
  - intros (server & Hmain & _).
    destruct (registerAll TOOLS Mcp.new_McpServer) as [[e|] server'] eqn:E; [discriminate|].
    destruct (proj1 (registerAll_none_iff TOOLS Mcp.new_McpServer)) as [Hnd Hfresh];
      [now exists server'|].
    split; [exact Hnd|]. intros tool Hin. apply (Hfresh (name tool)). now apply in_map.
  - intros [Hnd Hproto].
    destruct (proj2 (registerAll_none_iff TOOLS Mcp.new_McpServer)) as [server' E].
    { split; [exact Hnd|]. intros n Hin. apply in_map_iff in Hin as (tool & <- & Hin).
      exact (Hproto tool Hin). }
    rewrite E. exists (Mcp.connect server'). split; [reflexivity|]. split; [reflexivity|].
    intros tool Hin. unfold Mcp.invokable, Mcp.connect. cbn.
    apply (registerAll_registered _ _ _ E). left. now apply in_map.
Qed.

(** An entry of the registry is never replaced by the loop, and every
    tool the loop has passed is registered with its description, the
    object schema over its derived shape, and its wrapped handler. *)
Lemma registerAll_entries (TOOLS : list ToolDescriptor) (server server' : Mcp.McpServer) :
  registerAll TOOLS server = (None, server') ->
  (forall n r, obj_get (Mcp._registeredTools server) n = Some r ->
               obj_get (Mcp._registeredTools server') n = Some r) /\
  (forall tool, In tool TOOLS ->
     obj_get (Mcp._registeredTools server') (name tool)
     = Some (Mcp.mkRegisteredTool (or_empty (description tool))
               (z_object (jsonSchemaToZodShape (parameters tool)))
               (wrappedHandler tool))).
Proof.
  revert server. induction TOOLS as [|tool rest IH]; intros server H.
  - cbn in H. injection H as <-. split; [auto|intros tool []].
  - cbn [registerAll] in H. rewrite register_result in H.
    destruct (Mcp.taken server (name tool)) eqn:Ehas; [discriminate|].
    apply orb_false_iff in Ehas as [Ehas _].
    destruct (IH _ H) as [Hkeep Hreg]. cbn [Mcp._registeredTools] in Hkeep.
    split.
    + intros n r Hn. apply Hkeep. rewrite obj_get_set.
      destruct (name tool =? n) eqn:En; [|exact Hn].
      apply String.eqb_eq in En; subst n.
      unfold obj_has in Ehas. rewrite Hn in Ehas. discriminate.
    + intros t [<-|Hin]; [|now apply Hreg].
      apply Hkeep. rewrite obj_get_set, String.eqb_refl. reflexivity.
Qed.

(** X2.  Once the module has started, a call of a tool of the list is
    validated against the shape derived from the parameters of that very
    tool: valid arguments reach its wrapped handler as the parsed data,
    and invalid arguments reject the call without the handler being
    invoked and without a log entry. *)
Theorem callTool_after_main
    (TOOLS : list ToolDescriptor) (server : Mcp.McpServer) (tool : ToolDescriptor)
    (arguments : JsValue) :
  main TOOLS = (None, server) ->
  In tool TOOLS ->
  Mcp.callTool server (name tool) arguments =
    match validate (parameters tool) arguments with
    | Some args => wrappedHandler tool args
    | None => throw (ThrownError ("Invalid arguments for tool " ++ name tool))
    end.
Proof.
  unfold main. intros Hmain Hin.
  destruct (registerAll TOOLS Mcp.new_McpServer) as [[e|] server'] eqn:E; [discriminate|].
  injection Hmain as <-.
  destruct (registerAll_entries _ _ _ E) as [_ Hreg].
  unfold Mcp.callTool, Mcp.connect. cbn [Mcp._registeredTools].
  rewrite (Hreg tool Hin). reflexivity.
Qed.

(** X2 at the tool [create_event]: the call with the number [42] as
    [subject] is rejected with an empty log, so its handler has not run. *)
Lemma callTool_after_main_witness :
  Mcp.callTool (snd (main [tool_create_event])) "create_event"
    (JObject [("subject", JNumber 42)]) []
  = (Rejected (ThrownError "Invalid arguments for tool create_event"), []).
Proof.
  etransitivity.
  - exact (f_equal (fun call => call [])
             (callTool_after_main [tool_create_event] (snd (main [tool_create_event]))
                tool_create_event (JObject [("subject", JNumber 42)]) eq_refl
                (or_introl eq_refl))).
  - reflexivity.
Defined.

(* ===================================================================== *)
(** ** More on the derived shape and the validation of a call *)
(* ===================================================================== *)

Section ObjectKeys.
Context {A : Type}.

Lemma obj_has_In (obj : list (string * A)) (key : string) :
  obj_has obj key = true <-> In key (map fst obj).
Proof.
  unfold obj_has. induction obj as [|[k v] rest IH]; cbn.
  - split; [discriminate|tauto].
  - destruct (k =? key) eqn:E.
    + apply String.eqb_eq in E. split; [now left|reflexivity].
    + apply String.eqb_neq in E. rewrite IH. split; [now right|].
      intros [H|H]; [contradiction|exact H].
Qed.

Lemma keys_obj_set (obj : list (string * A)) (key : string) (v : A) :
  map fst (obj_set obj key v) =
    if obj_has obj key then map fst obj else (map fst obj ++ [key])%list.
Proof.
  unfold obj_has. induction obj as [|[k w] rest IH]; cbn; [reflexivity|].
  destruct (k =? key) eqn:E; cbn; [reflexivity|].
  rewrite IH. now destruct (obj_get rest key).
Qed.

Lemma obj_get_In (obj : list (string * A)) (key : string) (v : A) :
  NoDup (map fst obj) -> (In (key, v) obj <-> obj_get obj key = Some v).
Proof.
  induction obj as [|[k w] rest IH]; cbn; intros Hnd.
  - split; [tauto|discriminate].
  - inversion Hnd as [|x l Hnotin Hnd']; subst.
    destruct (k =? key) eqn:E.
    + apply String.eqb_eq in E; subst k. split.
      * intros [H|H]; [now injection H as ->|].
        exfalso. apply Hnotin. now apply (in_map fst) in H.
      * intros H. injection H as ->. now left.
    + apply String.eqb_neq in E. rewrite <- (IH Hnd'). split.
      * intros [H|H]; [injection H as -> _; contradiction|exact H].
      * intros H. now right.
Qed.

End ObjectKeys.

Lemma fold_addField_keys (schema : JsonSchema) (props : list (string * FieldSpec))
    (acc : list (string * ZodType)) :
  (NoDup (map fst acc) -> NoDup (map fst (fold_left (addField schema) props acc))) /\
  (forall key, In key (map fst (fold_left (addField schema) props acc)) <->
               In key (map fst acc) \/ In key (map fst props)) /\
  (NoDup (map fst acc ++ map fst props) ->
   map fst (fold_left (addField schema) props acc) = (map fst acc ++ map fst props)%list).
Proof.
  revert acc. induction props as [|[k value] rest IH]; intros acc.
  - cbn. rewrite app_nil_r. repeat split; auto; tauto.
  - cbn [fold_left map fst]. rewrite addField_fieldNode.
    destruct (IH (obj_set acc k (fieldNode schema k value))) as (IH1 & IH2 & IH3).
    rewrite keys_obj_set in IH1, IH2, IH3.
    destruct (obj_has acc k) eqn:Ehas.
    + apply obj_has_In in Ehas. split; [exact IH1|]. split.
      * intros key. rewrite IH2. cbn. split; [tauto|].
        intros [H|[<-|H]]; tauto.
      * intros Hnd. exfalso. apply NoDup_remove_2 in Hnd. apply Hnd.
        apply in_or_app. now left.
    + assert (Hfresh : ~ In k (map fst acc)).
      { intros H. apply obj_has_In in H. congruence. }
      split; [|split].
      * intros Hnd. apply IH1. apply NoDup_app; [exact Hnd|repeat constructor; tauto|].
        intros a Ha [<-|[]]. contradiction.
      * intros key. rewrite IH2, in_app_iff. cbn. tauto.
      * intros Hnd. rewrite <- app_assoc in IH3. apply IH3. exact Hnd.
Qed.

(** The keys of the derived shape. *)
Lemma shape_keys
    (schema : JsonSchema) (props : list (string * FieldSpec)) :
  properties schema = Some props ->
  NoDup (map fst (jsonSchemaToZodShape (Some schema))) /\
  (forall key, In key (map fst (jsonSchemaToZodShape (Some schema)))
               <-> In key (map fst props)) /\
  (NoDup (map fst props) ->
   map fst (jsonSchemaToZodShape (Some schema)) = map fst props).
Proof.
  intros Hp. unfold jsonSchemaToZodShape. rewrite Hp.
  destruct (fold_addField_keys schema props []) as (H1 & H2 & H3).
  split; [apply H1; constructor|]. split.
  - intros key. rewrite H2. cbn. tauto.
  - exact H3.
Qed.



Lemma parse_object_cons (d : option string) (key : string) (t : ZodType)
    (shape : list (string * ZodType)) (props : list (string * JsValue)) :
  _parse (mkZodType (ZodObject ((key, t) :: shape)) d) (JObject props) =
    match _parse t (get_prop props key),
          _parse (mkZodType (ZodObject shape) d) (JObject props) with
    | Some v, Some (JObject r) =>
        Some (JObject (if negb (is_undefined v) || obj_has props key
                       then (key, v) :: r else r))
    | _, _ => None
    end.
Proof.
  cbn. destruct (_parse t (get_prop props key)) as [v|]; [|reflexivity].
  match goal with
  | |- _ = match option_map JObject ?e with _ => _ end => destruct e as [r|]
  end; reflexivity.
Qed.

Lemma parse_object_shape (d : option string) (shape : list (string * ZodType))
    (data parsed : JsValue) :
  _parse (mkZodType (ZodObject shape) d) data = Some parsed ->
  exists props out, data = JObject props /\ parsed = JObject out.
Proof.
  destruct data; cbn; try discriminate.
  match goal with
  | |- context [option_map JObject ?e] => destruct e as [r|]
  end; cbn; [|discriminate].
  intros H. injection H as <-. now exists props, r.
Qed.

(** The output of an object schema holds keys of its shape only, each
    with the output of its node on the value the data has under the key. *)
Lemma parse_object_entries (d : option string) (shape : list (string * ZodType))
    (props out : list (string * JsValue)) :
  _parse (mkZodType (ZodObject shape) d) (JObject props) = Some (JObject out) ->
  forall key v, In (key, v) out ->
    exists t, In (key, t) shape /\ _parse t (get_prop props key) = Some v.
Proof.
  revert out. induction shape as [|[k t] shape IH]; intros out H key v Hin.
  - cbn in H. injection H as <-. destruct Hin.
  - rewrite parse_object_cons in H.
    destruct (_parse t (get_prop props k)) as [v0|] eqn:Et; [|discriminate].
    destruct (_parse (mkZodType (ZodObject shape) d) (JObject props)) as [[| | | | | |r]|];
      try discriminate.
    injection H as <-.
    assert (Hcases : (k, v0) = (key, v) \/ In (key, v) r).
    { destruct (negb (is_undefined v0) || obj_has props k); [exact Hin|now right]. }
    destruct Hcases as [Heq|Hr].
    + injection Heq as <- <-. exists t. split; [now left|exact Et].
    + destruct (IH r eq_refl key v Hr) as (t' & Ht' & Hp).
      exists t'. split; [now right|exact Hp].
Qed.

(** X5.  The data a handler is invoked with after validation is an
    object that holds declared keys only, each with the output of the node
    of the key on the supplied value: what the caller sends under a key
    that is not in [properties] never reaches the handler, and arguments
    that are not an object never pass. *)
Theorem validated_data_holds_declared_keys_only
    (schema : JsonSchema) (props : list (string * FieldSpec))
    (arguments parsed : JsValue) :
  properties schema = Some props ->
  validate (Some schema) arguments = Some parsed ->
  exists args out,
    arguments = JObject args /\ parsed = JObject out /\
    forall key v, In (key, v) out ->
      exists value node,
        lastEntry props key = Some value /\
        obj_get (jsonSchemaToZodShape (Some schema)) key = Some node /\
        _parse node (get_prop args key) = Some v.
Proof.
  intros Hp Hv. unfold validate, z_object in Hv.
  destruct (parse_object_shape _ _ _ _ Hv) as (args & out & -> & ->).
  exists args, out. split; [reflexivity|]. split; [reflexivity|].
  intros key v Hin.
  destruct (parse_object_entries _ _ _ _ Hv key v Hin) as (node & Hnode & Hparse).
  destruct (shape_keys schema props Hp) as (Hnd & _ & _).
  apply (obj_get_In _ _ _ Hnd) in Hnode.
  pose proof Hnode as Hget. rewrite (shape_get schema props key Hp) in Hget.
  destruct (lastEntry props key) as [value|]; [|discriminate].
  exists value, node. now repeat split.
Qed.

(** X5 at the schema of [create_event]: of [{subject: 'Standup',
    extra: 1}] the handler gets [{subject: 'Standup'}]. *)
Lemma validated_data_holds_declared_keys_only_witness :
  validate (Some schema_event) (JObject [("subject", JString "Standup"); ("extra", JNumber 1)])
  = Some (JObject [("subject", JString "Standup")]) /\
  exists args out,
    JObject [("subject", JString "Standup"); ("extra", JNumber 1)] = JObject args /\
    JObject [("subject", JString "Standup")] = JObject out /\
    forall key v, In (key, v) out ->
      exists value node,
        lastEntry [("subject", mkFieldSpec (TypeTag "string") None None);
                   ("location", mkFieldSpec (TypeList ["string"; "object"]) None None)] key
        = Some value /\
        obj_get (jsonSchemaToZodShape (Some schema_event)) key = Some node /\
        _parse node (get_prop args key) = Some v.
Proof.
  split; [reflexivity|].
  exact (validated_data_holds_declared_keys_only schema_event
           [("subject", mkFieldSpec (TypeTag "string") None None);
            ("location", mkFieldSpec (TypeList ["string"; "object"]) None None)]
           (JObject [("subject", JString "Standup"); ("extra", JNumber 1)])
           (JObject [("subject", JString "Standup")]) eq_refl eq_refl).
Defined.

(* ===================================================================== *)
(** ** formatLocation *)
(* ===================================================================== *)

Lemma append_empty (a b : string) : a ++ b = "" -> a = "" /\ b = "".
Proof. destruct a; [now split|discriminate]. Qed.

Lemma decimal_nonempty (z : Z) : decimal z <> "".
Proof. unfold decimal. destruct (Z.to_int z) as [d|d]; destruct d; discriminate. Qed.

Lemma format_nonempty (ds : string) (n : Z) : ds <> "" -> format ds n <> "".
Proof.
  intros Hds. unfold format.
  repeat match goal with |- context [if ?c then _ else _] => destruct c end;
    intros H;
    repeat match goal with
           | H : (_ ++ _)%string = "" |- _ => apply append_empty in H as [? H]
           end;
    try discriminate; now auto.
Qed.

Lemma NumberToString_nonempty (n : Number) : NumberToString n <> "".
Proof.
  unfold NumberToString.
  destruct (_ && _); [apply decimal_nonempty|].
  destruct (fst (toDouble n) =? 0)%Z; [discriminate|].
  intros H. apply append_empty in H as [_ H]. revert H.
  destruct (ltq _ _); [|discriminate].
  destruct (shortest _ _ _ _) as [s e]. destruct (strip s e 20) as [s' e'].
  apply format_nonempty, decimal_nonempty.
Qed.

Lemma truthy_or_else_r (a b : JsValue) : truthy b = true -> truthy (or_else a b) = true.
Proof. intros H. unfold or_else. now destruct (truthy a) eqn:E. Qed.

(** The two shapes of a formatted location. *)
Lemma formatLocation_cases (location : JsValue) :
  (Calendar.formatLocation location = JNull <-> truthy location = false) /\
  (truthy location = true ->
   exists props,
     Calendar.formatLocation location = JObject props /\
     truthy (get_prop props "displayName") = true).
Proof.
  unfold Calendar.formatLocation.
  destruct location as [| |b|n|s|elems|props]; cbn [truthy negb typeof prop String.eqb
    Ascii.eqb Bool.eqb andb].
  - split; [tauto|discriminate].
  - split; [tauto|discriminate].
  - destruct b; cbn; split; try tauto; try discriminate.
    + split; discriminate.
    + intros _. eexists. split; [reflexivity|reflexivity].
  - destruct (isZero n) eqn:E; cbn; split; try tauto; try discriminate.
    + split; discriminate.
    + intros _. eexists. split; [reflexivity|]. cbn.
      destruct (NumberToString n) eqn:En; [|reflexivity].
      now apply NumberToString_nonempty in En.
  - destruct (s =? "") eqn:E; cbn; split; try tauto; try discriminate.
    + split; discriminate.
    + intros _. eexists. split; [reflexivity|]. cbn. now rewrite E.
  - cbn. split; [split; discriminate|].
    intros _. eexists. split; reflexivity.
  - cbn. destruct (truthy (get_prop props "displayName")) eqn:E.
    + split; [split; discriminate|]. intros _. now exists props.
    + split; [split; discriminate|]. intros _. eexists. split; [reflexivity|].
      cbn. now apply truthy_or_else_r.
Qed.

(** X6.  [formatLocation] returns [null] exactly for the falsy locations
    (missing, [null], the empty string, [0], [false]); for every other
    location it returns an object with a truthy [displayName]. *)
Theorem formatLocation_has_displayName (location : JsValue) :
  (Calendar.formatLocation location = JNull <-> truthy location = false) /\
  (truthy location = true ->
   exists props,
     Calendar.formatLocation location = JObject props /\
     truthy (get_prop props "displayName") = true).
Proof. exact (formatLocation_cases location). Qed.

(** X7.  [formatLocation] is idempotent: a formatted location is left as
    it is. *)
Theorem formatLocation_idempotent (location : JsValue) :
  Calendar.formatLocation (Calendar.formatLocation location)
  = Calendar.formatLocation location.
Proof.
  destruct (formatLocation_cases location) as [Hnull Hobj].
  destruct (truthy location) eqn:E.
  - destruct (Hobj eq_refl) as (props & -> & Hd).
    unfold Calendar.formatLocation. cbn. now rewrite Hd.
  - rewrite (proj2 Hnull eq_refl). reflexivity.
Qed.

(* ===================================================================== *)
(** ** The session store *)
(* ===================================================================== *)

Section ObjectUpdates.
Context {A : Type}.

Lemma obj_get_set_same (obj : list (string * A)) (key : string) (v : A) :
  obj_get (obj_set obj key v) key = Some v.
Proof. now rewrite obj_get_set, String.eqb_refl. Qed.

Lemma obj_set_set (obj : list (string * A)) (key : string) (v w : A) :
  obj_set (obj_set obj key v) key w = obj_set obj key w.
Proof.
  induction obj as [|[k x] rest IH]; cbn.
  - now rewrite String.eqb_refl.
  - destruct (k =? key) eqn:E; cbn; rewrite E; [reflexivity|now rewrite IH].
Qed.

End ObjectUpdates.

(** X8.  Reading the session of a user right after it was stored returns
    the fields of the stored session with [lastAccess] set to the time of
    the read, and leaves the map as if the session had been stored at that
    time. *)
Theorem getUserSession_after_store
    (userId : string) (session : JsValue) (stored read : Z) (userSessions : Sessions.SessionMap) :
  Sessions.getUserSession userId read
    (Sessions.storeUserSession userId session stored userSessions)
  = (JObject (obj_set (Sessions.spread session) "lastAccess" (JNumber read)),
     Sessions.storeUserSession userId session read userSessions).
Proof.
  unfold Sessions.getUserSession, Sessions.storeUserSession.
  rewrite obj_get_set_same, !obj_set_set. reflexivity.
Qed.

(** X9.  Storing the session of one user does not change what another
    user reads, and a user without a session reads [null] and leaves the
    map as it is. *)
Theorem sessions_do_not_interfere
    (userId other : string) (session : JsValue) (stored read : Z)
    (userSessions : Sessions.SessionMap) :
  userId <> other ->
  fst (Sessions.getUserSession other read
         (Sessions.storeUserSession userId session stored userSessions))
  = fst (Sessions.getUserSession other read userSessions) /\
  (obj_get userSessions other = None ->
   Sessions.getUserSession other read
     (Sessions.storeUserSession userId session stored userSessions)
   = (JNull, Sessions.storeUserSession userId session stored userSessions)).
Proof.
  intros Hne. unfold Sessions.getUserSession, Sessions.storeUserSession.
  rewrite obj_get_set. apply String.eqb_neq in Hne. rewrite Hne. split.
  - now destruct (obj_get userSessions other).
  - now intros ->.
Qed.

(** X9 with the users [alice] and [bob]: after the session of [alice] is
    stored in an empty map, [bob] reads [null]. *)
Lemma sessions_do_not_interfere_witness :
  Sessions.getUserSession "bob" 20
    (Sessions.storeUserSession "alice" (JObject [("token", JString "t")]) 10 [])
  = (JNull, [("alice", [("token", JString "t"); ("lastAccess", JNumber 10)])]).
Proof.
  destruct (sessions_do_not_interfere "alice" "bob" (JObject [("token", JString "t")])
              10 20 []) as [_ H]; [discriminate|].
  exact (H eq_refl).
Defined.

(** What the output of an object schema holds under a key of its shape:
    the output of the node of the key. *)
Lemma parse_object_get (d : option string) (shape : list (string * ZodType))
    (props out : list (string * JsValue)) (key : string) (t : ZodType) :
  NoDup (map fst shape) ->
  _parse (mkZodType (ZodObject shape) d) (JObject props) = Some (JObject out) ->
  In (key, t) shape ->
  _parse t (get_prop props key) = Some (get_prop out key).
Proof.
  revert out. induction shape as [|[k t0] shape IH]; intros out Hnd H Hin; [destruct Hin|].
  cbn [map fst] in Hnd. inversion Hnd as [|x l Hnotin Hnd']; subst.
  rewrite parse_object_cons in H.
  destruct (_parse t0 (get_prop props k)) as [v0|] eqn:Et; [|discriminate].
  destruct (_parse (mkZodType (ZodObject shape) d) (JObject props)) as [[| | | | | |r]|] eqn:Er;
    try discriminate.
  injection H as <-.
  assert (Hr : forall key', ~ In key' (map fst shape) -> get_prop r key' = JUndefined).
  { intros key' Hk. unfold get_prop. destruct (obj_get r key') as [v|] eqn:Eg; [|reflexivity].
    exfalso. apply Hk.
    assert (Hin' : In key' (map fst r)).
    { apply obj_has_In. unfold obj_has. now rewrite Eg. }
    apply in_map_iff in Hin' as ([k' v'] & <- & Hin').
    destruct (parse_object_entries _ _ _ _ Er k' v' Hin') as (t' & Ht' & _).
    now apply (in_map fst) in Ht'. }
  destruct Hin as [Heq|Hin].
  - injection Heq as -> ->. rewrite Et. f_equal.
    destruct (negb (is_undefined v0) || obj_has props key) eqn:Ec.
    + unfold get_prop. cbn. now rewrite String.eqb_refl.
    + rewrite (Hr key Hnotin). apply orb_false_iff in Ec as [Ec _].
      destruct v0; try discriminate. reflexivity.
  - assert (Hne : k <> key).
    { intros ->. apply Hnotin. now apply (in_map fst) in Hin. }
    rewrite (IH r Hnd' eq_refl Hin). f_equal.
    destruct (negb (is_undefined v0) || obj_has props k); [|reflexivity].
    unfold get_prop. cbn. apply String.eqb_neq in Hne. now rewrite Hne.
Qed.

(** What the handler finds under a declared key after validation. *)
Lemma validated_field (schema : JsonSchema) (props : list (string * FieldSpec))
    (key : string) (value : FieldSpec) (args out : list (string * JsValue)) :
  properties schema = Some props ->
  lastEntry props key = Some value ->
  validate (Some schema) (JObject args) = Some (JObject out) ->
  _parse (fieldNode schema key value) (get_prop args key) = Some (get_prop out key).
Proof.
  intros Hp He Hv.
  destruct (shape_keys schema props Hp) as (Hnd & _ & _).
  apply (parse_object_get None (jsonSchemaToZodShape (Some schema)) args out key);
    [exact Hnd|exact Hv|].
  apply (obj_get_In _ _ _ Hnd). rewrite (shape_get schema props key Hp), He. reflexivity.
Qed.

(** X10.  When [location] is declared with the type [['string',
    'object']], or ['object'], a location the caller supplies as an object
    reaches [formatLocation] without its members, and is formatted as the
    location named [Unknown Location], whatever [displayName], [address]
    or [coordinates] the caller gave. *)
Theorem object_location_becomes_unknown
    (schema : JsonSchema) (props : list (string * FieldSpec)) (value : FieldSpec)
    (arguments parsed : JsValue) (members : list (string * JsValue)) :
  properties schema = Some props ->
  lastEntry props "location" = Some value ->
  type value = TypeList ["string"; "object"] \/ type value = TypeTag "object" ->
  validate (Some schema) arguments = Some parsed ->
  prop arguments "location" = JObject members ->
  Calendar.formatLocation (prop parsed "location") = Calendar.unknownLocation.
Proof.
  intros Hp He Ht Hv Hloc.
  destruct (parse_object_shape _ _ _ _ Hv) as (args & out & -> & ->).
  pose proof (validated_field schema props "location" value args out Hp He Hv) as Hfield.
  cbn [prop] in Hloc |- *. rewrite Hloc in Hfield.
  assert (Hnode : _parse (fieldNode schema "location" value) (JObject members)
                  = Some (JObject [])).
  { unfold fieldNode, zodTypeOf.
    destruct Ht as [-> | ->]; destruct (isRequired schema "location"); reflexivity. }
  rewrite Hnode in Hfield. injection Hfield as <-. reflexivity.
Qed.

(** X10 at the tool [create_event], called with [{subject: 'Standup',
    location: {displayName: 'Room 123'}}]. *)
Lemma object_location_becomes_unknown_witness :
  Calendar.formatLocation (prop args_event_stripped "location") = Calendar.unknownLocation.
Proof.
  exact (object_location_becomes_unknown schema_event
           [("subject", mkFieldSpec (TypeTag "string") None None);
            ("location", mkFieldSpec (TypeList ["string"; "object"]) None None)]
           (mkFieldSpec (TypeList ["string"; "object"]) None None)
           args_event args_event_stripped [("displayName", JString "Room 123")]
           eq_refl eq_refl (or_introl eq_refl) eq_refl eq_refl).
Defined.

(* ===================================================================== *)
(** ** Strings *)
(* ===================================================================== *)

Lemma trimEnd_cons_nonws (c : ascii) (rest : string) :
  Str.isWhiteSpace c = false -> Str.trimEnd (String c rest) = String c (Str.trimEnd rest).
Proof. intros H. cbn. rewrite H. now destruct (Str.trimEnd rest). Qed.

Lemma trimEnd_cons_nonempty (c : ascii) (rest : string) :
  Str.trimEnd rest <> "" -> Str.trimEnd (String c rest) = String c (Str.trimEnd rest).
Proof. intros H. cbn. destruct (Str.trimEnd rest); [contradiction|reflexivity]. Qed.

Lemma trimEnd_cons_ws_empty (c : ascii) (rest : string) :
  Str.isWhiteSpace c = true -> Str.trimEnd rest = "" -> Str.trimEnd (String c rest) = "".
Proof. intros H E. cbn. now rewrite E, H. Qed.

Lemma trimEnd_idempotent (s : string) : Str.trimEnd (Str.trimEnd s) = Str.trimEnd s.
Proof.
  induction s as [|c rest IH]; [reflexivity|].
  destruct (Str.trimEnd rest) as [|d rest'] eqn:E.
  - cbn. rewrite E. destruct (Str.isWhiteSpace c) eqn:Ec; [reflexivity|].
    cbn. now rewrite Ec.
  - rewrite trimEnd_cons_nonempty by (rewrite E; discriminate).
    rewrite E. rewrite trimEnd_cons_nonempty by (rewrite IH; discriminate).
    now rewrite IH.
Qed.

Lemma trimStart_trimEnd (s : string) :
  Str.trimStart (Str.trimEnd s) = Str.trimEnd (Str.trimStart s).
Proof.
  induction s as [|c rest IH]; [reflexivity|].
  destruct (Str.isWhiteSpace c) eqn:Ec.
  - cbn [Str.trimStart]. rewrite Ec, <- IH.
    destruct (Str.trimEnd rest) as [|d rest'] eqn:E.
    + now rewrite trimEnd_cons_ws_empty.
    + rewrite trimEnd_cons_nonempty by (rewrite E; discriminate).
      cbn [Str.trimStart]. now rewrite Ec, E.
  - rewrite trimEnd_cons_nonws by exact Ec. cbn [Str.trimStart]. rewrite Ec.
    now rewrite trimEnd_cons_nonws.
Qed.

Lemma trimStart_idempotent (s : string) : Str.trimStart (Str.trimStart s) = Str.trimStart s.
Proof.
  induction s as [|c rest IH]; [reflexivity|].
  cbn. destruct (Str.isWhiteSpace c) eqn:Ec; [exact IH|]. cbn. now rewrite Ec.
Qed.

Lemma trim_idempotent (s : string) : Str.trim (Str.trim s) = Str.trim s.
Proof.
  unfold Str.trim. now rewrite trimStart_trimEnd, trimStart_idempotent, trimEnd_idempotent.
Qed.

Lemma trim_trimEnd (s : string) : Str.trim (Str.trimEnd s) = Str.trim s.
Proof.
  unfold Str.trim. now rewrite trimStart_trimEnd, trimEnd_idempotent.
Qed.

Lemma hasChar_trimStart (p : ascii -> bool) (s : string) :
  Str.hasChar p s = false -> Str.hasChar p (Str.trimStart s) = false.
Proof.
  induction s as [|c rest IH]; [reflexivity|].
  cbn. intros H. apply orb_false_iff in H as [Hc Hr].
  destruct (Str.isWhiteSpace c); [now apply IH|]. cbn. now rewrite Hc, Hr.
Qed.

Lemma hasChar_trimEnd (p : ascii -> bool) (s : string) :
  Str.hasChar p s = false -> Str.hasChar p (Str.trimEnd s) = false.
Proof.
  induction s as [|c rest IH]; [reflexivity|].
  cbn. intros H. apply orb_false_iff in H as [Hc Hr]. specialize (IH Hr).
  destruct (Str.trimEnd rest) as [|d rest'].
  - destruct (Str.isWhiteSpace c); [reflexivity|]. cbn. now rewrite Hc.
  - cbn [Str.hasChar]. cbn [Str.hasChar] in IH. now rewrite Hc, IH.
Qed.

Lemma hasChar_trim (p : ascii -> bool) (s : string) :
  Str.hasChar p s = false -> Str.hasChar p (Str.trim s) = false.
Proof. intros H. unfold Str.trim. now apply hasChar_trimEnd, hasChar_trimStart. Qed.

Lemma hasChar_split (p : ascii -> bool) (s : string) :
  Str.hasChar p s = false -> Forall (fun piece => Str.hasChar p piece = false) (Str.split s).
Proof.
  induction s as [|c rest IH]; cbn.
  - intros _. now repeat constructor.
  - intros H. apply orb_false_iff in H as [Hc Hr]. specialize (IH Hr).
    destruct (Str.isSeparator c); [now constructor|].
    destruct (Str.split rest) as [|piece pieces]; [now repeat constructor; cbn; rewrite Hc|].
    inversion IH as [|x l Hx Hl]; subst. constructor; [|exact Hl].
    cbn. now rewrite Hc, Hx.
Qed.

(** Without a [<] there is no match. *)
Lemma nameAddress_none (s : string) :
  Str.hasChar Str.isLt s = false -> Str.nameAddress s = None.
Proof.
  induction s as [|c rest IH]; [reflexivity|].
  intros H.
  assert (Hafter : Str.afterName (String c rest) = None).
  { unfold Str.afterName. apply hasChar_trimStart in H.
    destruct (Str.trimStart (String c rest)) as [|d r]; [reflexivity|].
    cbn in H. apply orb_false_iff in H as [Hd _]. now rewrite Hd. }
  cbn [Str.nameAddress]. rewrite Hafter.
  cbn in H. apply orb_false_iff in H as [_ Hr]. rewrite (IH Hr).
  now destruct (Str.isLineTerminator c).
Qed.

Lemma closing_spec (addr : string) :
  Str.hasChar Str.isGt addr = false ->
  Str.closing (addr ++ String (ascii_of_nat 62) "") = Some addr.
Proof.
  induction addr as [|c rest IH]; [reflexivity|].
  cbn [append Str.closing Str.hasChar]. intros H. apply orb_false_iff in H as [Hc Hr].
  now rewrite Hc, (IH Hr).
Qed.

(** The match of a name without [<] and line terminators followed by an
    address in angle brackets: the groups are the name without the white
    space at its end, and the address. *)
Lemma nameAddress_named (name addr : string) :
  Str.hasChar Str.isLt name = false ->
  Str.hasChar Str.isLineTerminator name = false ->
  Str.hasChar Str.isGt addr = false ->
  addr <> "" ->
  Str.nameAddress (name ++ String (ascii_of_nat 60) (addr ++ String (ascii_of_nat 62) ""))
  = Some (Str.trimEnd name, addr).
Proof.
  intros Hlt Hnl Hgt Hne.
  assert (Hbase : Str.afterName (String (ascii_of_nat 60) (addr ++ String (ascii_of_nat 62) ""))
                  = Some addr).
  { unfold Str.afterName. cbn [Str.trimStart]. 
    change (Str.isWhiteSpace (ascii_of_nat 60)) with false.
    change (Str.isLt (ascii_of_nat 60)) with true. cbv iota.
    rewrite (closing_spec addr Hgt). destruct addr; [contradiction|reflexivity]. }
  induction name as [|c rest IH].
  - cbn [append Str.nameAddress]. now rewrite Hbase.
  - cbn in Hlt, Hnl. apply orb_false_iff in Hlt as [Hc Hlt].
    apply orb_false_iff in Hnl as [Hcn Hnl]. specialize (IH Hlt Hnl).
    cbn [append].
    set (tail := String (ascii_of_nat 60) (addr ++ String (ascii_of_nat 62) "")) in *.
    destruct (Str.afterName (String c (rest ++ tail))) as [a|] eqn:Ea.
    + (* the rest of the name is white space *)
      assert (Hws : Str.isWhiteSpace c = true /\ Str.afterName (rest ++ tail) = Some a).
      { unfold Str.afterName in Ea |- *. cbn [Str.trimStart] in Ea.
        destruct (Str.isWhiteSpace c); [now split|]. now rewrite Hc in Ea. }
      destruct Hws as [Hcw Hrest].
      cbn [Str.nameAddress]. rewrite Ea.
      destruct rest as [|d rest'].
      * cbn [append] in Hrest. rewrite Hbase in Hrest. injection Hrest as <-.
        cbn. now rewrite Hcw.
      * cbn [append Str.nameAddress] in IH. cbn [append] in Hrest. rewrite Hrest in IH.
        injection IH as IH1 IH2. subst a. rewrite trimEnd_cons_ws_empty; auto.
    + cbn [Str.nameAddress]. rewrite Ea, Hcn, IH.
      f_equal. f_equal. symmetry.
      destruct (Str.isWhiteSpace c) eqn:Hcw; [|now apply trimEnd_cons_nonws].
      apply trimEnd_cons_nonempty. intros Hempty.
      (* an all-white rest would have matched *)
      assert (Hcontra : Str.afterName (String c (rest ++ tail)) = Some addr).
      { unfold Str.afterName. cbn [Str.trimStart]. rewrite Hcw.
        clear - Hempty Hbase. unfold Str.afterName in Hbase.
        induction rest as [|d rest' IHr]; [exact Hbase|].
        cbn in Hempty. destruct (Str.trimEnd rest') eqn:E; [|discriminate].
        destruct (Str.isWhiteSpace d) eqn:Ed; [|discriminate].
        cbn [append Str.trimStart]. rewrite Ed. now apply IHr. }
      congruence.
Qed.

(* ===================================================================== *)
(** ** formatEmailAddresses and formatAttendees *)
(* ===================================================================== *)

Section MapThrow.
Variable f : JsValue -> Thrown + JsValue.

Lemma mapThrow_inr (l l' : list JsValue) :
  Rules.mapThrow f l = inr l' -> Forall2 (fun x y => f x = inr y) l l'.
Proof.
  revert l'. induction l as [|x rest IH]; cbn; intros l' H.
  - injection H as <-. constructor.
  - destruct (f x) as [e|y] eqn:Ex; [discriminate|].
    destruct (Rules.mapThrow f rest) as [e|ys]; [discriminate|].
    injection H as <-. constructor; [exact Ex|now apply IH].
Qed.

Lemma mapThrow_fixed (l : list JsValue) :
  Forall (fun x => f x = inr x) l -> Rules.mapThrow f l = inr l.
Proof.
  induction 1 as [|x rest Hx _ IH]; cbn; [reflexivity|]. now rewrite Hx, IH.
Qed.

Lemma mapThrow_inl (l : list JsValue) :
  (exists e, Rules.mapThrow f l = inl e) <-> (exists x e, In x l /\ f x = inl e).
Proof.
  induction l as [|x rest IH]; cbn.
  - split; [intros [e H]; discriminate|intros (x & e & [] & _)].
  - destruct (f x) as [e|y] eqn:Ex.
    + split; [intros _; exists x, e; split; [now left|exact Ex]|intros _; now exists e].
    + destruct (Rules.mapThrow f rest) as [e|ys].
      * split; [|intros _; now exists e].
        intros _. destruct (proj1 IH (ex_intro _ e eq_refl)) as (x' & e' & Hin & Hx').
        exists x', e'. split; [now right|exact Hx'].
      * split; [intros [e H]; discriminate|].
        intros (x' & e' & [<-|Hin] & Hx'); [congruence|].
        destruct (proj2 IH) as [e He]; [now exists x', e'|discriminate].
Qed.

(** The body [formatEmailAddresses] and [formatAttendees] share, over the
    function they map. *)
Let formatList (addresses : JsValue) : Thrown + JsValue :=
  if negb (truthy addresses) then inr (JArray [])
  else
    let addresses1 :=
      if typeof addresses =? "string"
      then JArray (map JString (Str.items (ToString addresses)))
      else addresses in
    let addresses2 :=
      if negb (isArray addresses1) then JArray [addresses1] else addresses1 in
    match Rules.mapThrow f (Rules.elements addresses2) with
    | inl e => inl e
    | inr l => inr (JArray l)
    end.

Hypothesis f_formats : forall x y, f x = inr y -> Rules.formatted y = true.
Hypothesis f_keeps : forall y, Rules.formatted y = true -> f y = inr y.
Hypothesis f_throws : forall x e, f x = inl e -> x = JNull.
Hypothesis f_null : exists e, f JNull = inl e.

Lemma formatList_idempotent (addresses result : JsValue) :
  formatList addresses = inr result ->
  exists l,
    result = JArray l /\
    forallb Rules.formatted l = true /\
    formatList result = inr result.
Proof.
  unfold formatList at 1. intros H.
  assert (Hl : exists input l, Rules.mapThrow f input = inr l /\ result = JArray l).
  { destruct (negb (truthy addresses)).
    - injection H as <-. now exists [], [].
    - match type of H with
      | match Rules.mapThrow f ?input with _ => _ end = _ =>
          destruct (Rules.mapThrow f input) as [e|l] eqn:E; [discriminate|];
          injection H as <-; now exists input, l
      end. }
  destruct Hl as (input & l & Hmap & ->).
  apply mapThrow_inr in Hmap.
  assert (Hall : Forall (fun y => Rules.formatted y = true) l).
  { clear - Hmap f_formats. induction Hmap; constructor; eauto. }
  exists l. split; [reflexivity|]. split.
  - apply forallb_forall. now apply Forall_forall.
  - unfold formatList. cbn.
    rewrite mapThrow_fixed; [reflexivity|].
    eapply Forall_impl; [|exact Hall]. auto.
Qed.

Lemma formatList_throws (addresses : JsValue) :
  (exists e, formatList addresses = inl e) <->
  (exists l, addresses = JArray l /\ In JNull l).
Proof.
  assert (Hsingle : forall x, x <> JNull -> exists y, Rules.mapThrow f [x] = inr [y]).
  { intros x Hx. cbn. destruct (f x) as [e|y] eqn:E; [|now exists y].
    now apply f_throws in E. }
  assert (Hstrings : forall items, exists l,
             Rules.mapThrow f (map JString items) = inr l).
  { induction items as [|a items [l IH]]; [now exists []|].
    cbn. destruct (f (JString a)) as [e|y] eqn:E.
    - apply f_throws in E. discriminate.
    - rewrite IH. now eexists. }
  split.
  - intros [e H]. unfold formatList in H.
    destruct addresses as [| |b|n|s|l|props];
      cbn [truthy negb typeof isArray ToString Rules.elements String.eqb Ascii.eqb
           Bool.eqb] in H; try discriminate.
    + destruct b; cbn [negb] in H; [|discriminate].
      destruct (Hsingle (JBool true)) as [y Hy]; [discriminate|].
      rewrite Hy in H. discriminate.
    + destruct (isZero n); cbn [negb] in H; [discriminate|].
      destruct (Hsingle (JNumber n)) as [y Hy]; [discriminate|].
      rewrite Hy in H. discriminate.
    + destruct (s =? ""); cbn [negb] in H; [discriminate|].
      destruct (Hstrings (Str.items s)) as [l Hl]. rewrite Hl in H. discriminate.
    + exists l. split; [reflexivity|].
      destruct (Rules.mapThrow f l) as [e'|l'] eqn:E; [|discriminate].
      destruct (proj1 (mapThrow_inl l) (ex_intro _ e' E)) as (x & e'' & Hin & Hx).
      apply f_throws in Hx. now subst x.
    + destruct (Hsingle (JObject props)) as [y Hy]; [discriminate|].
      rewrite Hy in H. discriminate.
  - intros (l & -> & Hin). unfold formatList.
    cbn [truthy negb typeof isArray ToString Rules.elements String.eqb Ascii.eqb Bool.eqb].
    destruct f_null as [e0 He0].
    destruct (proj2 (mapThrow_inl l)) as [e He].
    { exists JNull, e0. now split. }
    rewrite He. now exists e.
Qed.

End MapThrow.

Lemma formatAddress_formats (x y : JsValue) :
  Rules.formatAddress x = inr y -> Rules.formatted y = true.
Proof.
  unfold Rules.formatAddress.
  destruct x as [| |b|n|s|l|props]; cbn; try discriminate;
    try (intros H; injection H as <-; reflexivity).
  - destruct (Str.nameAddress s) as [[name addr]|]; intros H; injection H as <-; reflexivity.
  - destruct (truthy (get_prop props "emailAddress")) eqn:E.
    + intros H. injection H as <-. exact E.
    + destruct (truthy (get_prop props "email")); intros H; injection H as <-; reflexivity.
Qed.

Lemma formatAddress_keeps (y : JsValue) :
  Rules.formatted y = true -> Rules.formatAddress y = inr y.
Proof.
  destruct y; cbn; try discriminate. intros H.
  unfold Rules.formatAddress. cbn. now rewrite H.
Qed.

Lemma formatAddress_throws (x : JsValue) (e : Thrown) :
  Rules.formatAddress x = inl e -> x = JNull.
Proof.
  unfold Rules.formatAddress.
  destruct x as [| |b|n|s|l|props]; cbn; try discriminate; try reflexivity.
  - now destruct (Str.nameAddress s) as [[name addr]|].
  - destruct (truthy (get_prop props "emailAddress")); [discriminate|].
    now destruct (truthy (get_prop props "email")).
Qed.

Lemma formatAttendee_formats (x y : JsValue) :
  Calendar.formatAttendee x = inr y -> Rules.formatted y = true.
Proof.
  unfold Calendar.formatAttendee.
  destruct x as [| |b|n|s|l|props]; cbn; try discriminate;
    try (intros H; injection H as <-; reflexivity).
  - destruct (Str.nameAddress s) as [[name addr]|]; intros H; injection H as <-; reflexivity.
  - destruct (truthy (get_prop props "emailAddress")) eqn:E.
    + intros H. injection H as <-. exact E.
    + destruct (truthy (get_prop props "email")); intros H; injection H as <-; reflexivity.
Qed.

Lemma formatAttendee_keeps (y : JsValue) :
  Rules.formatted y = true -> Calendar.formatAttendee y = inr y.
Proof.
  destruct y; cbn; try discriminate. intros H.
  unfold Calendar.formatAttendee. cbn. now rewrite H.
Qed.

Lemma formatAttendee_throws (x : JsValue) (e : Thrown) :
  Calendar.formatAttendee x = inl e -> x = JNull.
Proof.
  unfold Calendar.formatAttendee.
  destruct x as [| |b|n|s|l|props]; cbn; try discriminate; try reflexivity.
  - now destruct (Str.nameAddress s) as [[name addr]|].
  - destruct (truthy (get_prop props "emailAddress")); [discriminate|].
    now destruct (truthy (get_prop props "email")).
Qed.

(** What [formatEmailAddresses] returns is formatted, and stays. *)
Lemma formatEmailAddresses_fixed (addresses result : JsValue) :
  Rules.formatEmailAddresses addresses = inr result ->
  exists l,
    result = JArray l /\
    forallb Rules.formatted l = true /\
    Rules.formatEmailAddresses result = inr result.
Proof.
  exact (formatList_idempotent Rules.formatAddress formatAddress_formats
           formatAddress_keeps addresses result).
Qed.

(** X11.  Whatever [formatEmailAddresses] returns is an array of
    addresses in the format of the API, objects with a truthy
    [emailAddress], and formatting it again changes nothing. *)
Theorem formatEmailAddresses_idempotent (addresses result : JsValue) :
  Rules.formatEmailAddresses addresses = inr result ->
  exists l,
    result = JArray l /\
    forallb Rules.formatted l = true /\
    Rules.formatEmailAddresses result = inr result.
Proof. exact (formatEmailAddresses_fixed addresses result). Qed.

(** X11 on [{email: 'a@x.com'}], a single object that is not in an
    array. *)
Lemma formatEmailAddresses_idempotent_witness :
  exists l,
    JArray [JObject [("emailAddress",
                      JObject [("name", JString ""); ("address", JString "a@x.com")])]]
    = JArray l /\
    forallb Rules.formatted l = true /\
    Rules.formatEmailAddresses
      (JArray [JObject [("emailAddress",
                        JObject [("name", JString ""); ("address", JString "a@x.com")])]])
    = inr (JArray [JObject [("emailAddress",
                             JObject [("name", JString ""); ("address", JString "a@x.com")])]]).
Proof.
  exact (formatEmailAddresses_idempotent (JObject [("email", JString "a@x.com")]) _ eq_refl).
Defined.

(** X12.  [formatEmailAddresses] throws exactly when it is given an
    array with a [null] among its elements; [null] itself, like
    everything falsy, gives the empty array. *)
Theorem formatEmailAddresses_throws_on_null_element (addresses : JsValue) :
  ((exists e, Rules.formatEmailAddresses addresses = inl e) <->
   (exists l, addresses = JArray l /\ In JNull l)) /\
  Rules.formatEmailAddresses JNull = inr (JArray []).
Proof.
  split; [|reflexivity].
  apply (formatList_throws Rules.formatAddress formatAddress_throws).
  eexists. reflexivity.
Qed.

(** X13.  Whatever [formatAttendees] returns is an array of attendees
    with a truthy [emailAddress], formatting it again changes nothing, and
    it throws exactly on an array with a [null] among its elements. *)
Theorem formatAttendees_idempotent (attendees : JsValue) :
  (forall result,
      Calendar.formatAttendees attendees = inr result ->
      exists l,
        result = JArray l /\
        forallb Rules.formatted l = true /\
        Calendar.formatAttendees result = inr result) /\
  ((exists e, Calendar.formatAttendees attendees = inl e) <->
   (exists l, attendees = JArray l /\ In JNull l)).
Proof.
  split.
  - intros result.
    exact (formatList_idempotent Calendar.formatAttendee formatAttendee_formats
             formatAttendee_keeps attendees result).
  - apply (formatList_throws Calendar.formatAttendee formatAttendee_throws).
    eexists. reflexivity.
Qed.

(** X13 on the string ["a@x.com; b@y.com"]. *)
Lemma formatAttendees_idempotent_witness :
  exists l,
    Calendar.formatAttendees (JString "a@x.com; b@y.com") = inr (JArray l) /\
    length l = 2 /\
    forallb Rules.formatted l = true /\
    Calendar.formatAttendees (JArray l) = inr (JArray l).
Proof.
  destruct (proj1 (formatAttendees_idempotent (JString "a@x.com; b@y.com")) _ eq_refl)
    as (l & Hl & Hf & Hi).
  exists l. injection Hl as <-. split; [reflexivity|]. split; [reflexivity|].
  split; [exact Hf|exact Hi].
Defined.

(** X14.  An array element of the form [Name <address>], where the name
    has no [<] and no line break and the address is not empty and has no
    [>], is split into the trimmed name and the trimmed address. *)
Theorem formatEmailAddresses_named_address (name addr : string) :
  Str.hasChar Str.isLt name = false ->
  Str.hasChar Str.isLineTerminator name = false ->
  Str.hasChar Str.isGt addr = false ->
  addr <> "" ->
  Rules.formatEmailAddresses (JArray [JString (name ++ "<" ++ addr ++ ">")])
  = inr (JArray [JObject [("emailAddress",
                           JObject [("name", JString (Str.trim name));
                                    ("address", JString (Str.trim addr))])]]).
Proof.
  intros Hlt Hnl Hgt Hne.
  pose proof (nameAddress_named name addr Hlt Hnl Hgt Hne) as Hmatch.
  change (String (ascii_of_nat 60) (addr ++ String (ascii_of_nat 62) ""))
    with ("<" ++ addr ++ ">") in Hmatch.
  unfold Rules.formatEmailAddresses.
  cbn [truthy negb typeof isArray ToString Rules.elements String.eqb Ascii.eqb Bool.eqb
       Rules.mapThrow].
  unfold Rules.formatAddress.
  cbn [truthy negb typeof prop andb ToString String.eqb Ascii.eqb Bool.eqb].
  rewrite Hmatch, trim_trimEnd. reflexivity.
Qed.

(** X14 on [John Doe <john@example.com>]. *)
Lemma formatEmailAddresses_named_address_witness :
  Rules.formatEmailAddresses (JArray [JString "John Doe <john@example.com>"])
  = inr (JArray [JObject [("emailAddress",
                           JObject [("name", JString "John Doe");
                                    ("address", JString "john@example.com")])]]).
Proof.
  exact (formatEmailAddresses_named_address "John Doe " "john@example.com"
           eq_refl eq_refl eq_refl ltac:(discriminate)).
Defined.

Lemma items_plain (s : string) :
  Str.hasChar Str.isLt s = false ->
  Forall (fun a => Str.nameAddress a = None /\ Str.trim a = a) (Str.items s).
Proof.
  intros H. unfold Str.items. apply hasChar_split in H.
  induction H as [|piece pieces Hp _ IH]; cbn; [constructor|].
  destruct (negb (Str.trim piece =? "")); [|exact IH].
  constructor; [|exact IH]. split.
  - apply nameAddress_none. now apply hasChar_trim.
  - apply trim_idempotent.
Qed.

(** X15.  A string of addresses without a [<], separated by commas or
    semicolons, gives one entry per item that is not blank, in the order
    of the string, each with the trimmed item as its address. *)
Theorem formatEmailAddresses_plain_list (s : string) :
  Str.hasChar Str.isLt s = false ->
  s <> "" ->
  Rules.formatEmailAddresses (JString s)
  = inr (JArray (map (fun a => JObject [("emailAddress",
                                         JObject [("address", JString a)])])
                     (Str.items s))).
Proof.
  intros Hlt Hne. unfold Rules.formatEmailAddresses.
  cbn [truthy negb typeof isArray ToString Rules.elements String.eqb Ascii.eqb Bool.eqb].
  apply String.eqb_neq in Hne. rewrite Hne. cbn [negb isArray Rules.elements].
  pose proof (items_plain s Hlt) as Hitems.
  induction Hitems as [|a items [Hnone Htrim] _ IH]; [reflexivity|].
  cbn [map Rules.mapThrow]. unfold Rules.formatAddress at 1.
  cbn [truthy negb typeof prop andb ToString String.eqb Ascii.eqb Bool.eqb].
  rewrite Hnone, Htrim.
  destruct (Rules.mapThrow Rules.formatAddress (map JString items)) as [e|l];
    [discriminate|].
  injection IH as ->. reflexivity.
Qed.

(** X15 on [" a@x.com ;; b@y.com, "]. *)
Lemma formatEmailAddresses_plain_list_witness :
  Rules.formatEmailAddresses (JString " a@x.com ;; b@y.com, ")
  = inr (JArray [JObject [("emailAddress", JObject [("address", JString "a@x.com")])];
                 JObject [("emailAddress", JObject [("address", JString "b@y.com")])]]).
Proof.
  exact (formatEmailAddresses_plain_list " a@x.com ;; b@y.com, " eq_refl
           ltac:(discriminate)).
Defined.

(* ===================================================================== *)
(** ** formatRuleConditions and formatRuleActions *)
(* ===================================================================== *)

Lemma copyField_copied (c : JsValue) (formatted : list (string * JsValue))
    (step : Rules.Copy * string) :
  Rules.copyField c formatted step =
    if Rules.kept c step then
      match Rules.copied c step with
      | inl e => inl e
      | inr w => inr (obj_set formatted (snd step) w)
      end
    else inr formatted.
Proof.
  destruct step as [[] key]; unfold Rules.copyField, Rules.kept, Rules.copied;
    cbn [fst snd]; reflexivity.
Qed.

Lemma obj_set_fresh {A : Type} (obj : list (string * A)) (key : string) (v : A) :
  ~ In key (map fst obj) -> obj_set obj key v = (obj ++ [(key, v)])%list.
Proof.
  induction obj as [|[k w] rest IH]; cbn; intros H; [reflexivity|].
  destruct (k =? key) eqn:E.
  - apply String.eqb_eq in E. exfalso. apply H. now left.
  - rewrite IH; [reflexivity|]. intros Hin. apply H. now right.
Qed.

(** With distinct keys, none of them set before, the statements append
    their properties to the output. *)
Lemma copyFields_entries (c : JsValue) (steps : list (Rules.Copy * string))
    (formatted : list (string * JsValue)) :
  NoDup (map snd steps) ->
  (forall key, In key (map snd steps) -> ~ In key (map fst formatted)) ->
  Rules.copyFields c steps formatted =
    match Rules.entries c steps with
    | inl e => inl e
    | inr r => inr (formatted ++ r)%list
    end.
Proof.
  revert formatted. induction steps as [|step rest IH]; intros formatted Hnd Hfresh.
  - cbn. now rewrite app_nil_r.
  - cbn [map] in Hnd. inversion Hnd as [|x l Hnotin Hnd']; subst.
    cbn [Rules.copyFields Rules.entries]. rewrite copyField_copied.
    destruct (Rules.kept c step).
    + destruct (Rules.copied c step) as [e|w]; [reflexivity|].
      rewrite obj_set_fresh by (apply Hfresh; now left).
      rewrite IH; [| exact Hnd' |].
      * destruct (Rules.entries c rest); [reflexivity|]. now rewrite <- app_assoc.
      * intros key Hin. rewrite map_app, in_app_iff. cbn. intros [H|[<-|[]]].
        -- apply (Hfresh key); [now right|exact H].
        -- contradiction.
    + apply IH; [exact Hnd'|]. intros key Hin. apply Hfresh. now right.
Qed.

Lemma entries_keys (c : JsValue) (steps : list (Rules.Copy * string))
    (out : list (string * JsValue)) :
  Rules.entries c steps = inr out ->
  map fst out = map snd (filter (Rules.kept c) steps).
Proof.
  revert out. induction steps as [|step rest IH]; cbn; intros out H.
  - now injection H as <-.
  - destruct (Rules.kept c step).
    + destruct (Rules.copied c step) as [e|w]; [discriminate|].
      destruct (Rules.entries c rest) as [e|r]; [discriminate|].
      injection H as <-. cbn. now rewrite (IH r eq_refl).
    + now apply IH.
Qed.

(** What the output holds under the key of a statement. *)
Lemma entries_get (c : JsValue) (steps : list (Rules.Copy * string))
    (out : list (string * JsValue)) (step : Rules.Copy * string) :
  NoDup (map snd steps) ->
  Rules.entries c steps = inr out ->
  In step steps ->
  if Rules.kept c step
  then Rules.copied c step = inr (get_prop out (snd step))
  else get_prop out (snd step) = JUndefined.
Proof.
  revert out. induction steps as [|step0 rest IH]; intros out Hnd H Hin; [destruct Hin|].
  cbn [map] in Hnd. inversion Hnd as [|x l Hnotin Hnd']; subst.
  assert (Hmiss : forall r, Rules.entries c rest = inr r ->
                            get_prop r (snd step0) = JUndefined).
  { intros r Hr. unfold get_prop.
    destruct (obj_get r (snd step0)) as [v|] eqn:Eg; [|reflexivity].
    exfalso. apply Hnotin.
    assert (Hk : In (snd step0) (map fst r)).
    { apply obj_has_In. unfold obj_has. now rewrite Eg. }
    rewrite (entries_keys c rest r Hr) in Hk.
    apply in_map_iff in Hk as (s & Hs & Hf). apply filter_In in Hf as [Hf _].
    rewrite <- Hs. now apply in_map. }
  cbn [Rules.entries] in H.
  destruct Hin as [->|Hin].
  - destruct (Rules.kept c step) eqn:Ek.
    + destruct (Rules.copied c step) as [e|w]; [discriminate|].
      destruct (Rules.entries c rest) as [e|r]; [discriminate|].
      injection H as <-. unfold get_prop. cbn. now rewrite String.eqb_refl.
    + now apply Hmiss.
  - assert (Hne : snd step0 <> snd step).
    { intros Heq. apply Hnotin. rewrite Heq. now apply in_map. }
    apply String.eqb_neq in Hne.
    destruct (Rules.kept c step0).
    + destruct (Rules.copied c step0) as [e|w]; [discriminate|].
      destruct (Rules.entries c rest) as [e|r] eqn:Er; [discriminate|].
      injection H as <-. specialize (IH r Hnd' eq_refl Hin).
      unfold get_prop in *. cbn. now rewrite Hne.
    + now apply IH.
Qed.

Lemma entries_ext (c c' : JsValue) (steps : list (Rules.Copy * string)) :
  (forall step, In step steps ->
     Rules.kept c' step = Rules.kept c step /\
     (Rules.kept c step = true -> Rules.copied c' step = Rules.copied c step)) ->
  Rules.entries c' steps = Rules.entries c steps.
Proof.
  induction steps as [|step rest IH]; intros H; [reflexivity|].
  cbn. destruct (H step (or_introl eq_refl)) as [Hk Hc]. rewrite Hk.
  rewrite IH by (intros s Hs; apply H; now right).
  destruct (Rules.kept c step); [|reflexivity]. now rewrite Hc.
Qed.

(** Formatting the output of the statements again gives the same
    properties. *)
Lemma entries_idempotent (c : JsValue) (steps : list (Rules.Copy * string))
    (out : list (string * JsValue)) :
  NoDup (map snd steps) ->
  Rules.entries c steps = inr out ->
  Rules.entries (JObject out) steps = inr out.
Proof.
  intros Hnd H. rewrite <- H. apply entries_ext. intros step Hin.
  pose proof (entries_get c steps out step Hnd H Hin) as Hget.
  destruct step as [kind key]. unfold Rules.kept, Rules.copied in *.
  cbn [fst snd prop] in *.
  destruct kind.
  - destruct (truthy (prop c key)) eqn:Et.
    + injection Hget as Hget. rewrite <- Hget. split; [|intros _].
      * now destruct (isArray (prop c key)) eqn:Ea; [destruct (prop c key)|].
      * now destruct (isArray (prop c key)) eqn:Ea; [rewrite Ea|].
    + rewrite Hget. split; [reflexivity|discriminate].
  - destruct (truthy (prop c key)) eqn:Et.
    + destruct (formatEmailAddresses_fixed _ _ Hget) as (l & Hl & _ & Hi).
      split; [now rewrite Hl|intros _]. now rewrite Hi, Hget.
    + rewrite Hget. split; [reflexivity|discriminate].
  - destruct (negb (is_undefined (prop c key))) eqn:Et.
    + injection Hget as Hget. rewrite <- Hget. split; [exact Et|reflexivity].
    + rewrite Hget. split; [reflexivity|discriminate].
  - destruct (truthy (prop c key)) eqn:Et.
    + injection Hget as Hget. rewrite <- Hget. split; [exact Et|reflexivity].
    + rewrite Hget. split; [reflexivity|discriminate].
Qed.

Lemma conditionSteps_NoDup : NoDup (map snd Rules.conditionSteps).
Proof. repeat constructor; cbn; intuition discriminate. Qed.

Lemma actionSteps_NoDup : NoDup (map snd Rules.actionSteps).
Proof. repeat constructor; cbn; intuition discriminate. Qed.

Lemma formatWith_entries (steps : list (Rules.Copy * string)) (c result : JsValue) :
  NoDup (map snd steps) ->
  Rules.formatWith steps c = inr result ->
  exists out, result = JObject out /\ Rules.entries c steps = inr out.
Proof.
  intros Hnd. unfold Rules.formatWith.
  rewrite (copyFields_entries c steps [] Hnd) by (intros key _ []).
  destruct c; try discriminate;
    (destruct (Rules.entries _ steps) as [e|r]; [discriminate|];
     intros H; injection H as <-; now exists r).
Qed.

Lemma formatWith_object (steps : list (Rules.Copy * string)) (out : list (string * JsValue)) :
  NoDup (map snd steps) ->
  Rules.entries (JObject out) steps = inr out ->
  Rules.formatWith steps (JObject out) = inr (JObject out).
Proof.
  intros Hnd H. unfold Rules.formatWith.
  rewrite (copyFields_entries (JObject out) steps [] Hnd) by (intros key _ []).
  now rewrite H.
Qed.

(** X16.  The output of [formatRuleConditions] and of
    [formatRuleActions] holds exactly the keys whose statement passes its
    test on the input, in the order of the statements: a key of the input
    that no statement names is dropped. *)
Theorem formatRule_keeps_the_known_keys (c result : JsValue) :
  (Rules.formatRuleConditions c = inr result ->
   exists out,
     result = JObject out /\
     map fst out = map snd (filter (Rules.kept c) Rules.conditionSteps)) /\
  (Rules.formatRuleActions c = inr result ->
   exists out,
     result = JObject out /\
     map fst out = map snd (filter (Rules.kept c) Rules.actionSteps)).
Proof.
  split; intros H.
  - destruct (formatWith_entries _ _ _ conditionSteps_NoDup H) as (out & -> & He).
    exists out. split; [reflexivity|now apply entries_keys].
  - destruct (formatWith_entries _ _ _ actionSteps_NoDup H) as (out & -> & He).
    exists out. split; [reflexivity|now apply entries_keys].
Qed.

(** X16 on [{color: 'red', subjectContains: 'x', hasAttachments: false,
    importance: ''}]: [color] is dropped, [importance] is empty and
    dropped, [hasAttachments] comes before [subjectContains]. *)
Lemma formatRule_keeps_the_known_keys_witness :
  exists out,
    Rules.formatRuleConditions
      (JObject [("color", JString "red"); ("subjectContains", JString "x");
                ("hasAttachments", JBool false); ("importance", JString "")])
    = inr (JObject out) /\
    map fst out = ["hasAttachments"; "subjectContains"].
Proof.
  destruct (proj1 (formatRule_keeps_the_known_keys
                     (JObject [("color", JString "red"); ("subjectContains", JString "x");
                               ("hasAttachments", JBool false); ("importance", JString "")])
                     (JObject [("hasAttachments", JBool false);
                               ("subjectContains", JArray [JString "x"])]))
              eq_refl) as (out & Hout & Hkeys).
  exists out. split; [rewrite <- Hout; reflexivity|].
  rewrite Hkeys. reflexivity.
Defined.

(** X17.  [formatRuleConditions] and [formatRuleActions] are idempotent:
    formatting what they return gives it back. *)
Theorem formatRule_idempotent (c result : JsValue) :
  (Rules.formatRuleConditions c = inr result ->
   Rules.formatRuleConditions result = inr result) /\
  (Rules.formatRuleActions c = inr result ->
   Rules.formatRuleActions result = inr result).
Proof.
  split; intros H.
  - destruct (formatWith_entries _ _ _ conditionSteps_NoDup H) as (out & -> & He).
    apply (formatWith_object _ _ conditionSteps_NoDup).
    exact (entries_idempotent c _ out conditionSteps_NoDup He).
  - destruct (formatWith_entries _ _ _ actionSteps_NoDup H) as (out & -> & He).
    apply (formatWith_object _ _ actionSteps_NoDup).
    exact (entries_idempotent c _ out actionSteps_NoDup He).
Qed.

(** X17 on the actions [{forwardTo: 'a@x.com', markAsRead: true}]. *)
Lemma formatRule_idempotent_witness :
  Rules.formatRuleActions
    (JObject [("forwardTo",
               JArray [JObject [("emailAddress", JObject [("address", JString "a@x.com")])]]);
              ("markAsRead", JBool true)])
  = inr (JObject [("forwardTo",
                   JArray [JObject [("emailAddress",
                                     JObject [("address", JString "a@x.com")])]]);
                  ("markAsRead", JBool true)]).
Proof.
  exact (proj2 (formatRule_idempotent
                  (JObject [("forwardTo", JString "a@x.com"); ("markAsRead", JBool true)])
                  _) eq_refl).
Defined.

(* ===================================================================== *)
(** ** moveEmailsHandler and copyEmailsHandler *)
(* ===================================================================== *)

Lemma prop_orEmpty (params : JsValue) (key : string) :
  prop (Graph.orEmpty params) key = prop params key.
Proof. now destruct params. Qed.

(** The handler on parameters that are not [null], with the default
    applied. *)
Lemma transferEmailsHandler_unfold (mailbox : Graph.Mailbox) (w : Folder.Wording)
    (params : JsValue) :
  params <> JNull ->
  Folder.transferEmailsHandler mailbox w params =
  Folder.transferEmailsHandler mailbox w
    (JObject [("userId", prop params "userId");
              ("emailIds", prop params "emailIds");
              ("destinationFolderId", prop params "destinationFolderId")]).
Proof.
  intros Hp. unfold Folder.transferEmailsHandler.
  destruct params; try contradiction; reflexivity.
Qed.

(** X18.  When [emailIds] is not an array with at least one element,
    [moveEmailsHandler] and [copyEmailsHandler] return the error result
    that asks for an email id; otherwise, when [destinationFolderId] is
    falsy, the one that asks for the destination folder.  In both cases
    they send no request and log nothing. *)
Theorem transfer_refuses_bad_parameters
    (mailbox : Graph.Mailbox) (params : JsValue) (st : Graph.State) :
  params <> JNull ->
  isArray (prop params "emailIds") = false \/
  prop params "emailIds" = JArray [] \/
  truthy (prop params "destinationFolderId") = false ->
  let message :=
    match prop params "emailIds" with
    | JArray (_ :: _) => "Destination folder ID is required"
    | _ => "At least one email ID is required"
    end in
  Folder.moveEmailsHandler mailbox params st
    = (Fulfilled (Graph.errorResult message), st) /\
  Folder.copyEmailsHandler mailbox params st
    = (Fulfilled (Graph.errorResult message), st).
Proof.
  intros Hp Hbad. unfold Folder.moveEmailsHandler, Folder.copyEmailsHandler.
  rewrite !(transferEmailsHandler_unfold mailbox _ params Hp).
  unfold Folder.transferEmailsHandler.
  cbn [Graph.orEmpty prop get_prop obj_get String.eqb Ascii.eqb Bool.eqb].
  destruct (prop params "emailIds") as [| |b|n|s|ids|ps] eqn:Eids;
    cbn [truthy negb isArray orb Rules.elements length Nat.eqb];
    try (rewrite ?orb_true_r; split; reflexivity).
  destruct ids as [|id ids]; [split; reflexivity|].
  cbn [length Nat.eqb].
  destruct Hbad as [H|[H|H]]; try discriminate.
  rewrite H. split; reflexivity.
Qed.

(** X18 on parameters without [emailIds]. *)
Lemma transfer_refuses_bad_parameters_witness :
  Folder.moveEmailsHandler (fun _ _ => Graph.Ok JNull)
    (JObject [("destinationFolderId", JString "archive")]) (Graph.mkState [] [])
  = (Fulfilled (Graph.errorResult "At least one email ID is required"),
     Graph.mkState [] []).
Proof.
  exact (proj1 (transfer_refuses_bad_parameters (fun _ _ => Graph.Ok JNull)
                  (JObject [("destinationFolderId", JString "archive")])
                  (Graph.mkState [] []) ltac:(discriminate) (or_introl eq_refl))).
Defined.


(** The entry the loop pushes on [results.failed]. *)
Lemma transferLoop_step (mailbox : Graph.Mailbox) (w : Folder.Wording)
    (userId dest emailId : JsValue) (rest success failed : list JsValue) (st : Graph.State) :
  Folder.transferLoop mailbox w userId dest (emailId :: rest) success failed st =
    let r := Folder.transferRequest w userId dest emailId in
    match mailbox (Graph.calls st) r with
    | Graph.Ok _ =>
        Folder.transferLoop mailbox w userId dest rest (success ++ [emailId])%list failed
          (Graph.mkState (Graph.calls st ++ [r]) (Graph.log st))
    | Graph.Failed message =>
        Folder.transferLoop mailbox w userId dest rest success
          (failed ++ [JObject [("id", emailId); ("error", JString message)]])%list
          (Graph.mkState (Graph.calls st ++ [r])
             (Graph.log st ++
              [mkLogEntry error
                 ("Error " ++ Folder.doing w ++ " email " ++ ToString emailId ++ ": " ++ message)
                 (MetaValue JUndefined)]))
    end.
Proof.
  cbn [Folder.transferLoop]. unfold Graph.bind, Graph.try_catch, Graph.request.
  cbv zeta. destruct (mailbox (Graph.calls st) _); reflexivity.
Qed.

(** The loop ends, has sent one request per id in the order of the ids,
    and has pushed every id on one of the two arrays. *)
Lemma transferLoop_spec (mailbox : Graph.Mailbox) (w : Folder.Wording)
    (userId dest : JsValue) (emailIds success failed : list JsValue) (st : Graph.State) :
  exists moved notMoved st',
    Folder.transferLoop mailbox w userId dest emailIds success failed st
      = (Fulfilled ((success ++ moved)%list, (failed ++ notMoved)%list), st') /\
    Graph.calls st' =
      (Graph.calls st ++ map (Folder.transferRequest w userId dest) emailIds)%list /\
    Permutation emailIds (moved ++ map (fun entry => prop entry "id") notMoved) /\
    ((forall history r, exists json, mailbox history r = Graph.Ok json) ->
     moved = emailIds /\ notMoved = [] /\ Graph.log st' = Graph.log st).
Proof.
  revert success failed st. induction emailIds as [|emailId rest IH]; intros success failed st.
  - exists [], [], st. cbn. rewrite !app_nil_r. repeat split; constructor.
  - rewrite transferLoop_step. cbv zeta.
    destruct (mailbox (Graph.calls st) (Folder.transferRequest w userId dest emailId))
      as [json|message] eqn:E.
    + destruct (IH (success ++ [emailId])%list failed
                  (Graph.mkState (Graph.calls st ++ [Folder.transferRequest w userId dest emailId])
                     (Graph.log st)))
        as (moved & notMoved & st' & Hrun & Hcalls & Hperm & Hall).
      exists (emailId :: moved), notMoved, st'. rewrite Hrun, Hcalls.
      cbn [Graph.calls Graph.log map] in *. rewrite <- !app_assoc. cbn [app].
      repeat split.
      * now constructor.
      * destruct (Hall H) as (-> & _ & _). reflexivity.
      * now destruct (Hall H).
      * now destruct (Hall H).
    + destruct (IH success
                  (failed ++ [JObject [("id", emailId); ("error", JString message)]])%list
                  (Graph.mkState (Graph.calls st ++ [Folder.transferRequest w userId dest emailId])
                     (Graph.log st ++
                      [mkLogEntry error
                         ("Error " ++ Folder.doing w ++ " email " ++ ToString emailId ++ ": "
                          ++ message) (MetaValue JUndefined)])))
        as (moved & notMoved & st' & Hrun & Hcalls & Hperm & Hall).
      exists moved, (JObject [("id", emailId); ("error", JString message)] :: notMoved), st'.
      rewrite Hrun, Hcalls. cbn [Graph.calls Graph.log map] in *.
      rewrite <- !app_assoc. cbn [app].
      split; [reflexivity|]. split; [reflexivity|]. split.
      * cbn [map prop get_prop obj_get String.eqb Ascii.eqb Bool.eqb].
        now apply Permutation_cons_app.
      * intros H. destruct (H (Graph.calls st) (Folder.transferRequest w userId dest emailId))
          as [json Hjson]. congruence.
Qed.

(** X19.  With a non-empty array of email ids and a destination,
    [moveEmailsHandler] sends exactly one [POST] per id, to
    [/me/messages/<id>/move] with the destination as [destinationId], in
    the order of the ids and whatever the mailbox answers; it never
    rejects.  [copyEmailsHandler] does the same on [/me/messages/<id>/copy]. *)
Theorem transfer_sends_one_request_per_email
    (mailbox : Graph.Mailbox) (w : Folder.Wording) (params : JsValue)
    (emailId : JsValue) (emailIds : list JsValue) (st : Graph.State) :
  w = Folder.moving \/ w = Folder.copying ->
  prop params "emailIds" = JArray (emailId :: emailIds) ->
  truthy (prop params "destinationFolderId") = true ->
  exists result st',
    Folder.transferEmailsHandler mailbox w params st = (Fulfilled result, st') /\
    Graph.calls st' =
      (Graph.calls st ++
       map (fun id =>
              Graph.mkRequest (or_else (prop params "userId") (JString "default")) "POST"
                ("/me/messages/" ++ ToString id ++ "/" ++ Folder.verb w)
                (JObject [("destinationId", prop params "destinationFolderId")]))
           (emailId :: emailIds))%list.
Proof.
  intros _ Hids Hdest.
  assert (Hp : params <> JNull) by (intros ->; discriminate).
  rewrite (transferEmailsHandler_unfold mailbox w params Hp).
  unfold Folder.transferEmailsHandler.
  cbn [Graph.orEmpty prop get_prop obj_get String.eqb Ascii.eqb Bool.eqb].
  rewrite Hids, Hdest.
  cbn [truthy negb isArray orb Rules.elements length Nat.eqb].
  unfold Graph.try_catch, Graph.bind at 1, Graph.log_info.
  unfold Graph.bind at 1.
  destruct (transferLoop_spec mailbox w (or_else (prop params "userId") (JString "default"))
              (prop params "destinationFolderId") (emailId :: emailIds) [] []
              (Graph.mkState (Graph.calls st)
                 (Graph.log st ++
                  [mkLogEntry info
                     (Folder.Doing w ++ " " ++ Folder.lengthOf (emailId :: emailIds)
                      ++ " emails to folder " ++ ToString (prop params "destinationFolderId")
                      ++ " for user "
                      ++ ToString (or_else (prop params "userId") (JString "default")))
                     (MetaValue JUndefined)])))
    as (moved & notMoved & st' & Hrun & Hcalls & _).
  rewrite Hrun. eexists. exists st'. split; [reflexivity|]. exact Hcalls.
Qed.

(** X19 on two ids and a mailbox that refuses every request: both
    requests are sent all the same. *)
Lemma transfer_sends_one_request_per_email_witness :
  exists result st',
    Folder.moveEmailsHandler (fun _ _ => Graph.Failed "denied")
      (JObject [("emailIds", JArray [JString "m1"; JNumber 7]);
                ("destinationFolderId", JString "archive")])
      (Graph.mkState [] [])
    = (Fulfilled result, st') /\
    Graph.calls st' =
      [Graph.mkRequest (JString "default") "POST" "/me/messages/m1/move"
         (JObject [("destinationId", JString "archive")]);
       Graph.mkRequest (JString "default") "POST" "/me/messages/7/move"
         (JObject [("destinationId", JString "archive")])].
Proof.
  exact (transfer_sends_one_request_per_email (fun _ _ => Graph.Failed "denied")
           Folder.moving
           (JObject [("emailIds", JArray [JString "m1"; JNumber 7]);
                     ("destinationFolderId", JString "archive")])
           (JString "m1") [JNumber 7] (Graph.mkState [] [])
           (or_introl eq_refl) eq_refl eq_refl).
Defined.

(** X20.  The result of [moveEmailsHandler] and [copyEmailsHandler]
    reports every email id exactly once, in [results.success] or as the
    [id] of an entry of [results.failed]; the status is [success] when
    [results.failed] is empty and [partial] otherwise, and the message
    counts the successes.  When the mailbox answers every request, all
    ids are in [results.success]. *)
Theorem transfer_reports_every_email
    (mailbox : Graph.Mailbox) (w : Folder.Wording) (params : JsValue)
    (emailId : JsValue) (emailIds : list JsValue) (st : Graph.State) :
  w = Folder.moving \/ w = Folder.copying ->
  prop params "emailIds" = JArray (emailId :: emailIds) ->
  truthy (prop params "destinationFolderId") = true ->
  exists moved notMoved st',
    Folder.transferEmailsHandler mailbox w params st
    = (Fulfilled
         (JObject
            [("status", JString (match notMoved with [] => "success" | _ => "partial" end));
             ("message",
              JString (Folder.Done w ++ " " ++ Folder.lengthOf moved ++ " of "
                       ++ Folder.lengthOf (emailId :: emailIds) ++ " emails to folder"));
             ("destinationFolderId", prop params "destinationFolderId");
             ("results",
              JObject [("success", JArray moved); ("failed", JArray notMoved)])]),
       st') /\
    Permutation (emailId :: emailIds)
      (moved ++ map (fun entry => prop entry "id") notMoved) /\
    ((forall history r, exists json, mailbox history r = Graph.Ok json) ->
     moved = emailId :: emailIds /\ notMoved = []).
Proof.
  intros _ Hids Hdest.
  assert (Hp : params <> JNull) by (intros ->; discriminate).
  rewrite (transferEmailsHandler_unfold mailbox w params Hp).
  unfold Folder.transferEmailsHandler.
  cbn [Graph.orEmpty prop get_prop obj_get String.eqb Ascii.eqb Bool.eqb].
  rewrite Hids, Hdest.
  cbn [truthy negb isArray orb Rules.elements length Nat.eqb].
  unfold Graph.try_catch, Graph.bind at 1, Graph.log_info.
  unfold Graph.bind at 1.
  destruct (transferLoop_spec mailbox w (or_else (prop params "userId") (JString "default"))
              (prop params "destinationFolderId") (emailId :: emailIds) [] []
              (Graph.mkState (Graph.calls st)
                 (Graph.log st ++
                  [mkLogEntry info
                     (Folder.Doing w ++ " " ++ Folder.lengthOf (emailId :: emailIds)
                      ++ " emails to folder " ++ ToString (prop params "destinationFolderId")
                      ++ " for user "
                      ++ ToString (or_else (prop params "userId") (JString "default")))
                     (MetaValue JUndefined)])))
    as (moved & notMoved & st' & Hrun & _ & Hperm & Hall).
  rewrite Hrun. exists moved, notMoved, st'. split; [|split].
  - unfold Graph.ret. cbn [fst snd app]. now destruct notMoved.
  - exact Hperm.
  - intros H. now destruct (Hall H) as (-> & -> & _).
Qed.

(** X20 on two ids and a mailbox that refuses the second request. *)
Lemma transfer_reports_every_email_witness :
  exists moved notMoved st',
    Folder.copyEmailsHandler
      (fun history _ => match history with [] => Graph.Ok JNull | _ => Graph.Failed "denied" end)
      (JObject [("emailIds", JArray [JString "m1"; JString "m2"]);
                ("destinationFolderId", JString "archive")])
      (Graph.mkState [] [])
    = (Fulfilled
         (JObject
            [("status", JString (match notMoved with [] => "success" | _ => "partial" end));
             ("message",
              JString ("Copied " ++ Folder.lengthOf moved ++ " of 2 emails to folder"));
             ("destinationFolderId", JString "archive");
             ("results",
              JObject [("success", JArray moved); ("failed", JArray notMoved)])]),
       st') /\
    Permutation [JString "m1"; JString "m2"]
      (moved ++ map (fun entry => prop entry "id") notMoved).
Proof.
  destruct (transfer_reports_every_email
              (fun history _ =>
                 match history with [] => Graph.Ok JNull | _ => Graph.Failed "denied" end)
              Folder.copying
              (JObject [("emailIds", JArray [JString "m1"; JString "m2"]);
                        ("destinationFolderId", JString "archive")])
              (JString "m1") [JString "m2"] (Graph.mkState [] [])
              (or_intror eq_refl) eq_refl eq_refl)
    as (moved & notMoved & st' & Hrun & Hperm & _).
  exists moved, notMoved, st'. split; [exact Hrun|exact Hperm].
Defined.

(* ===================================================================== *)
(** ** createRuleHandler *)
(* ===================================================================== *)

Lemma createRuleHandler_unfold (mailbox : Graph.Mailbox) (params : JsValue) :
  params <> JNull ->
  RuleHandlers.createRuleHandler mailbox params =
  RuleHandlers.createRuleHandler mailbox
    (JObject [("userId", prop params "userId");
              ("displayName", prop params "displayName");
              ("conditions", prop params "conditions");
              ("actions", prop params "actions");
              ("sequence", prop params "sequence");
              ("isEnabled", prop params "isEnabled")]).
Proof.
  intros Hp. unfold RuleHandlers.createRuleHandler.
  destruct params; try contradiction; reflexivity.
Qed.

(** The three checks of [createRuleHandler]. *)
Lemma createRuleHandler_checks
    (mailbox : Graph.Mailbox) (params : JsValue) (st : Graph.State) :
  params <> JNull ->
  let noKeys v := negb (truthy v) || Nat.eqb (RuleHandlers.keysCount v) 0 in
  truthy (prop params "displayName") = false \/
  noKeys (prop params "conditions") = true \/
  noKeys (prop params "actions") = true ->
  RuleHandlers.createRuleHandler mailbox params st
  = (Fulfilled
       (Graph.errorResult
          (if negb (truthy (prop params "displayName"))
           then "Rule display name is required"
           else if noKeys (prop params "conditions")
           then "At least one condition is required for the rule"
           else "At least one action is required for the rule")),
     st).
Proof.
  intros Hp noKeys Hbad. subst noKeys.
  rewrite (createRuleHandler_unfold mailbox params Hp).
  unfold RuleHandlers.createRuleHandler.
  cbn [Graph.orEmpty prop get_prop obj_get String.eqb Ascii.eqb Bool.eqb].
  destruct (truthy (prop params "displayName")); cbn [negb]; [|reflexivity].
  destruct (negb (truthy (prop params "conditions"))
            || Nat.eqb (RuleHandlers.keysCount (prop params "conditions")) 0);
    [reflexivity|].
  destruct Hbad as [H|[H|H]]; try discriminate.
  cbv beta in H. rewrite H. reflexivity.
Qed.

(** X21.  [createRuleHandler] checks the display name, then the
    conditions, then the actions: a falsy display name, conditions
    without a key, or actions without a key give the error result of the
    first failed check, with no request sent and nothing logged. *)
Theorem createRule_refuses_incomplete_rule
    (mailbox : Graph.Mailbox) (params : JsValue) (st : Graph.State) :
  params <> JNull ->
  let noKeys v := negb (truthy v) || Nat.eqb (RuleHandlers.keysCount v) 0 in
  truthy (prop params "displayName") = false \/
  noKeys (prop params "conditions") = true \/
  noKeys (prop params "actions") = true ->
  RuleHandlers.createRuleHandler mailbox params st
  = (Fulfilled
       (Graph.errorResult
          (if negb (truthy (prop params "displayName"))
           then "Rule display name is required"
           else if noKeys (prop params "conditions")
           then "At least one condition is required for the rule"
           else "At least one action is required for the rule")),
     st).
Proof. exact (createRuleHandler_checks mailbox params st). Qed.

(** X21 on a rule with a name and the empty object as conditions. *)
Lemma createRule_refuses_incomplete_rule_witness :
  RuleHandlers.createRuleHandler (fun _ _ => Graph.Ok JNull)
    (JObject [("displayName", JString "Invoices"); ("conditions", JObject []);
              ("actions", JObject [("markAsRead", JBool true)])])
    (Graph.mkState [] [])
  = (Fulfilled (Graph.errorResult "At least one condition is required for the rule"),
     Graph.mkState [] []).
Proof.
  exact (createRule_refuses_incomplete_rule (fun _ _ => Graph.Ok JNull)
           (JObject [("displayName", JString "Invoices"); ("conditions", JObject []);
                     ("actions", JObject [("markAsRead", JBool true)])])
           (Graph.mkState [] []) ltac:(discriminate) (or_intror (or_introl eq_refl))).
Defined.

(** What a declared field of type [object] is after validation. *)
Lemma object_field_after_validation (schema : JsonSchema) (key : string)
    (value : FieldSpec) (v r : JsValue) :
  type value = TypeTag "object" ->
  _parse (fieldNode schema key value) v = Some r ->
  r = JObject [] \/ r = JUndefined.
Proof.
  intros Ht. unfold fieldNode, zodTypeOf. rewrite Ht.
  cbn [String.eqb Ascii.eqb Bool.eqb].
  destruct (isRequired schema key); destruct v; cbn; intros H;
    try discriminate; injection H as <-; auto.
Qed.

(** X22.  When [conditions] is declared with the type ['object'], no
    call that passes validation creates a rule: the conditions reach
    [createRuleHandler] as the empty object, or not at all, and the
    handler returns the error result of its first or second check
    without a request to the mailbox. *)
Theorem createRule_never_succeeds_behind_object_schema
    (mailbox : Graph.Mailbox) (schema : JsonSchema) (props : list (string * FieldSpec))
    (value : FieldSpec) (arguments parsed : JsValue) (st : Graph.State) :
  properties schema = Some props ->
  lastEntry props "conditions" = Some value ->
  type value = TypeTag "object" ->
  validate (Some schema) arguments = Some parsed ->
  RuleHandlers.createRuleHandler mailbox parsed st
  = (Fulfilled
       (Graph.errorResult
          (if negb (truthy (prop parsed "displayName"))
           then "Rule display name is required"
           else "At least one condition is required for the rule")),
     st).
Proof.
  intros Hp He Ht Hv.
  destruct (parse_object_shape _ _ _ _ Hv) as (args & out & -> & ->).
  pose proof (validated_field schema props "conditions" value args out Hp He Hv) as Hfield.
  apply (object_field_after_validation schema "conditions" value _ _ Ht) in Hfield.
  assert (Hnone : negb (truthy (prop (JObject out) "conditions"))
                  || Nat.eqb (RuleHandlers.keysCount (prop (JObject out) "conditions")) 0
                  = true).
  { cbn [prop]. destruct Hfield as [-> | ->]; reflexivity. }
  rewrite (createRuleHandler_checks mailbox (JObject out) st)
    by (try discriminate; right; left; exact Hnone).
  cbv zeta. now rewrite Hnone.
Qed.

(** X22 on a call with the condition [{subjectContains: 'invoice'}]. *)
Lemma createRule_never_succeeds_behind_object_schema_witness :
  RuleHandlers.createRuleHandler (fun _ _ => Graph.Ok (JObject [("id", JString "r1")]))
    (JObject [("displayName", JString "Invoices"); ("conditions", JObject [])])
    (Graph.mkState [] [])
  = (Fulfilled (Graph.errorResult "At least one condition is required for the rule"),
     Graph.mkState [] []).
Proof.
  exact (createRule_never_succeeds_behind_object_schema
           (fun _ _ => Graph.Ok (JObject [("id", JString "r1")]))
           (mkJsonSchema
              (Some [("displayName", mkFieldSpec (TypeTag "string") None None);
                     ("conditions", mkFieldSpec (TypeTag "object") None None)])
              (Some ["displayName"; "conditions"]))
           [("displayName", mkFieldSpec (TypeTag "string") None None);
            ("conditions", mkFieldSpec (TypeTag "object") None None)]
           (mkFieldSpec (TypeTag "object") None None)
           (JObject [("displayName", JString "Invoices");
                     ("conditions", JObject [("subjectContains", JString "invoice")])])
           (JObject [("displayName", JString "Invoices"); ("conditions", JObject [])])
           (Graph.mkState [] []) eq_refl eq_refl eq_refl eq_refl).
Defined.

Lemma mapThrow_error (f : JsValue -> Thrown + JsValue) (l : list JsValue) (e : Thrown) :
  Rules.mapThrow f l = inl e -> exists x, In x l /\ f x = inl e.
Proof.
  induction l as [|x rest IH]; cbn; [discriminate|].
  destruct (f x) as [e'|y] eqn:Ex.
  - intros H. injection H as <-. exists x. split; [now left|exact Ex].
  - destruct (Rules.mapThrow f rest) as [e'|ys]; [|discriminate].
    intros H. injection H as <-. destruct (IH eq_refl) as (x' & Hin & Hx').
    exists x'. split; [now right|exact Hx'].
Qed.

Lemma formatAddress_error (x : JsValue) (e : Thrown) :
  Rules.formatAddress x = inl e -> e = TypeError_read JNull "emailAddress".
Proof.
  intros H. pose proof (formatAddress_throws x e H) as ->.
  cbn in H. now injection H as <-.
Qed.

Lemma formatEmailAddresses_error (addresses : JsValue) (e : Thrown) :
  Rules.formatEmailAddresses addresses = inl e -> e = TypeError_read JNull "emailAddress".
Proof.
  unfold Rules.formatEmailAddresses.
  destruct (negb (truthy addresses)); [discriminate|].
  match goal with
  | |- match Rules.mapThrow _ ?input with _ => _ end = _ -> _ =>
      destruct (Rules.mapThrow Rules.formatAddress input) as [e'|l] eqn:E; [|discriminate]
  end.
  intros H. injection H as <-.
  destruct (mapThrow_error _ _ _ E) as (x & _ & Hx). now apply formatAddress_error in Hx.
Qed.

Lemma copyFields_error (c : JsValue) (steps : list (Rules.Copy * string))
    (formatted : list (string * JsValue)) (e : Thrown) :
  Rules.copyFields c steps formatted = inl e -> e = TypeError_read JNull "emailAddress".
Proof.
  revert formatted. induction steps as [|step rest IH]; intros formatted; cbn; [discriminate|].
  rewrite copyField_copied.
  destruct (Rules.kept c step); [|apply IH].
  destruct (Rules.copied c step) as [e'|w] eqn:Ec; [|apply IH].
  intros H. injection H as <-.
  destruct step as [[] key]; unfold Rules.copied in Ec; cbn [fst snd] in Ec;
    try discriminate.
  now apply formatEmailAddresses_error in Ec.
Qed.

Lemma formatWith_error (steps : list (Rules.Copy * string)) (c : JsValue) (e : Thrown) :
  Rules.formatWith steps c = inl e -> exists message, e = ThrownError message.
Proof.
  unfold Rules.formatWith.
  destruct c; try (intros H; injection H as <-; eexists; reflexivity);
    (destruct (Rules.copyFields _ steps []) as [e'|r] eqn:E; [|discriminate];
     intros H; injection H as <-; apply copyFields_error in E; subst e';
     eexists; reflexivity).
Qed.

(** An error result returned before any request. *)
Ltac refused :=
  eexists; eexists; split; [reflexivity|];
  split; [now right|]; split; [now left|intros H; discriminate H].

(** X23.  [createRuleHandler] never rejects when its parameters are not
    [null]: it returns a result whose status is [success] or [error]; it
    sends at most one request, and it reports [success] only when the
    mailbox has answered the [POST] of the rule. *)
Theorem createRule_never_rejects
    (mailbox : Graph.Mailbox) (params : JsValue) (st : Graph.State) :
  params <> JNull ->
  exists result st',
    RuleHandlers.createRuleHandler mailbox params st = (Fulfilled result, st') /\
    (prop result "status" = JString "success" \/ prop result "status" = JString "error") /\
    (Graph.calls st' = Graph.calls st \/
     exists r, Graph.calls st' = (Graph.calls st ++ [r])%list) /\
    (prop result "status" = JString "success" ->
     exists r json,
       Graph.calls st' = (Graph.calls st ++ [r])%list /\
       Graph.method r = "POST" /\
       Graph.path r = "/me/mailFolders/inbox/messageRules" /\
       mailbox (Graph.calls st) r = Graph.Ok json).
Proof.
  intros Hp.
  rewrite (createRuleHandler_unfold mailbox params Hp).
  unfold RuleHandlers.createRuleHandler.
  cbn [Graph.orEmpty prop get_prop obj_get String.eqb Ascii.eqb Bool.eqb].
  destruct (negb (truthy (prop params "displayName"))); [refused|].
  destruct (negb (truthy (prop params "conditions"))
            || Nat.eqb (RuleHandlers.keysCount (prop params "conditions")) 0); [refused|].
  destruct (negb (truthy (prop params "actions"))
            || Nat.eqb (RuleHandlers.keysCount (prop params "actions")) 0); [refused|].
  unfold Graph.try_catch, Graph.bind, Graph.log_info, Graph.log_error, Graph.lift,
    Graph.request, Graph.read, Graph.ret, Graph.throw.
  cbn [Graph.calls Graph.log].
  destruct (Rules.formatRuleConditions (prop params "conditions")) as [e|conditions] eqn:Ec.
  { destruct (formatWith_error _ _ _ Ec) as [message ->]. cbn [Graph.errorMessage].
    unfold Graph.ret. cbn [Graph.calls Graph.log].
    eexists. eexists. split; [reflexivity|]. cbn [Graph.calls].
    repeat split; [now right|now left|discriminate]. }
  destruct (Rules.formatRuleActions (prop params "actions")) as [e|actions] eqn:Ea.
  { destruct (formatWith_error _ _ _ Ea) as [message ->]. cbn [Graph.errorMessage].
    unfold Graph.ret. cbn [Graph.calls Graph.log].
    eexists. eexists. split; [reflexivity|]. cbn [Graph.calls].
    repeat split; [now right|now left|discriminate]. }
  cbn [Graph.calls Graph.log].
  match goal with
  | |- context [mailbox (Graph.calls st) ?r] =>
      destruct (mailbox (Graph.calls st) r) as [rule|message] eqn:Em
  end.
  - destruct rule as [| |b|n|s|l|ps];
      cbn [Graph.errorMessage TypeError_read]; unfold Graph.ret; cbn [Graph.calls Graph.log];
      (eexists; eexists; split; [reflexivity|]; cbn [Graph.calls];
       split; [first [now left|now right]|];
       split; [right; eexists; reflexivity|];
       first [discriminate
             | intros _; eexists; eexists; split; [reflexivity|];
               split; [reflexivity|]; split; [reflexivity|exact Em]]).
  - cbn [Graph.errorMessage]. unfold Graph.ret. cbn [Graph.calls Graph.log].
    eexists. eexists. split; [reflexivity|]. cbn [Graph.calls].
    split; [now right|]. split; [right; eexists; reflexivity|discriminate].
Qed.

(** X23 on a complete rule and a mailbox that refuses the request. *)
Lemma createRule_never_rejects_witness :
  exists result st',
    RuleHandlers.createRuleHandler (fun _ _ => Graph.Failed "Forbidden")
      (JObject [("displayName", JString "Invoices");
                ("conditions", JObject [("subjectContains", JString "invoice")]);
                ("actions", JObject [("markAsRead", JBool true)])])
      (Graph.mkState [] [])
    = (Fulfilled result, st') /\
    (prop result "status" = JString "success" \/ prop result "status" = JString "error").
Proof.
  destruct (createRule_never_rejects (fun _ _ => Graph.Failed "Forbidden")
              (JObject [("displayName", JString "Invoices");
                        ("conditions", JObject [("subjectContains", JString "invoice")]);
                        ("actions", JObject [("markAsRead", JBool true)])])
              (Graph.mkState [] []) ltac:(discriminate))
    as (result & st' & Hrun & Hstatus & _).
  now exists result, st'.
Defined.

(* ===================================================================== *)
(** ** The other rule and folder handlers *)
(* ===================================================================== *)

Lemma or_else_orDefault (v d : JsValue) :
  truthy v = true \/ v = JUndefined ->
  truthy d = true ->
  or_else v d = RulesDelete.orDefault v d.
Proof.
  intros [H| ->] Hd; unfold or_else; [|reflexivity].
  rewrite H. now destruct v.
Qed.

(** X24.  With a truthy [ruleId], the two [deleteRuleHandler]s, of
    rules/create.js and of rules/delete.js, each send exactly one
    [DELETE] for the rule and never reject.  The one of rules/delete.js
    logs nothing and keeps a falsy [userId] that is not [undefined], which
    the other replaces by [default]; when [userId] is truthy or missing
    the two send the same request and report the same status. *)
Theorem deleteRule_handlers_agree
    (mailbox : Graph.Mailbox) (params : JsValue) (st : Graph.State) :
  truthy (prop params "ruleId") = true ->
  let rulePath := "/me/mailFolders/inbox/messageRules/" ++ ToString (prop params "ruleId") in
  exists result1 result2 st1 st2,
    RuleHandlers.deleteRuleHandler mailbox params st = (Fulfilled result1, st1) /\
    RulesDelete.deleteRuleHandler mailbox params st = (Fulfilled result2, st2) /\
    Graph.calls st1 =
      (Graph.calls st ++
       [Graph.mkRequest (or_else (prop params "userId") (JString "default"))
          "DELETE" rulePath JUndefined])%list /\
    Graph.calls st2 =
      (Graph.calls st ++
       [Graph.mkRequest (RulesDelete.orDefault (prop params "userId") (JString "default"))
          "DELETE" rulePath JUndefined])%list /\
    Graph.log st2 = Graph.log st /\
    (truthy (prop params "userId") = true \/ prop params "userId" = JUndefined ->
     Graph.calls st1 = Graph.calls st2 /\
     prop result1 "status" = prop result2 "status").
Proof.
  intros Hrule rulePath. subst rulePath.
  destruct params as [| |b|n|s|l|ps]; try discriminate Hrule.
  unfold RuleHandlers.deleteRuleHandler, RulesDelete.deleteRuleHandler.
  cbn [Graph.orEmpty]. rewrite Hrule. cbn [negb].
  unfold Graph.try_catch, Graph.bind, Graph.log_info, Graph.log_error, Graph.request,
    Graph.ret. cbn [Graph.calls Graph.log].
  destruct (mailbox (Graph.calls st)
              (Graph.mkRequest (or_else (prop (JObject ps) "userId") (JString "default"))
                 "DELETE"
                 ("/me/mailFolders/inbox/messageRules/" ++ ToString (prop (JObject ps) "ruleId"))
                 JUndefined)) as [json1|message1] eqn:E1;
  destruct (mailbox (Graph.calls st)
              (Graph.mkRequest
                 (RulesDelete.orDefault (prop (JObject ps) "userId") (JString "default"))
                 "DELETE"
                 ("/me/mailFolders/inbox/messageRules/" ++ ToString (prop (JObject ps) "ruleId"))
                 JUndefined)) as [json2|message2] eqn:E2;
  cbn [Graph.errorMessage]; unfold Graph.ret; cbn [Graph.calls Graph.log];
  (eexists; eexists; eexists; eexists;
   split; [reflexivity|]; split; [reflexivity|]; cbn [Graph.calls Graph.log];
   split; [reflexivity|]; split; [reflexivity|]; split; [reflexivity|];
   intros Hu;
   rewrite (or_else_orDefault (prop (JObject ps) "userId") (JString "default") Hu eq_refl)
     in *;
   split; [reflexivity|]; first [reflexivity|congruence]).
Qed.

(** X24 on the user id [''], where the two handlers part: rules/create.js
    asks for the user [default], rules/delete.js for the user ['']. *)
Lemma deleteRule_handlers_agree_witness :
  exists result1 result2 st1 st2,
    RuleHandlers.deleteRuleHandler (fun _ _ => Graph.Ok JNull)
      (JObject [("userId", JString ""); ("ruleId", JString "r1")]) (Graph.mkState [] [])
    = (Fulfilled result1, st1) /\
    RulesDelete.deleteRuleHandler (fun _ _ => Graph.Ok JNull)
      (JObject [("userId", JString ""); ("ruleId", JString "r1")]) (Graph.mkState [] [])
    = (Fulfilled result2, st2) /\
    Graph.calls st1 =
      [Graph.mkRequest (JString "default") "DELETE" "/me/mailFolders/inbox/messageRules/r1"
         JUndefined] /\
    Graph.calls st2 =
      [Graph.mkRequest (JString "") "DELETE" "/me/mailFolders/inbox/messageRules/r1"
         JUndefined].
Proof.
  destruct (deleteRule_handlers_agree (fun _ _ => Graph.Ok JNull)
              (JObject [("userId", JString ""); ("ruleId", JString "r1")])
              (Graph.mkState [] []) eq_refl)
    as (result1 & result2 & st1 & st2 & H1 & H2 & Hc1 & Hc2 & _).
  exists result1, result2, st1, st2.
  split; [exact H1|]. split; [exact H2|]. split; [exact Hc1|exact Hc2].
Defined.

(** X25.  With a truthy [ruleId], and when the formatters do not throw,
    [updateRuleHandler] sends exactly one [PATCH] for the rule and does
    not reject; the data of the request hold, in this order, the display
    name when it is truthy, the sequence and the enabled flag when they
    are not [undefined], the conditions and the actions when they are
    truthy, and nothing else. *)
Theorem updateRule_patches_the_supplied_fields
    (mailbox : Graph.Mailbox) (params : JsValue) (st : Graph.State)
    (data : list (string * JsValue)) :
  truthy (prop params "ruleId") = true ->
  RuleHandlers.updateData params = inr data ->
  (exists result st',
      RuleHandlers.updateRuleHandler mailbox params st = (Fulfilled result, st') /\
      Graph.calls st' =
        (Graph.calls st ++
         [Graph.mkRequest (or_else (prop params "userId") (JString "default")) "PATCH"
            ("/me/mailFolders/inbox/messageRules/" ++ ToString (prop params "ruleId"))
            (JObject data)])%list) /\
  map fst data =
    ((if truthy (prop params "displayName") then ["displayName"] else []) ++
     (if negb (is_undefined (prop params "sequence")) then ["sequence"] else []) ++
     (if negb (is_undefined (prop params "isEnabled")) then ["isEnabled"] else []) ++
     (if truthy (prop params "conditions") then ["conditions"] else []) ++
     (if truthy (prop params "actions") then ["actions"] else []))%list.
Proof.
  intros Hrule Hdata. split.
  - destruct params as [| |b|n|s|l|ps]; try discriminate Hrule.
    unfold RuleHandlers.updateRuleHandler.
    cbn [Graph.orEmpty]. rewrite Hrule, Hdata. cbn [negb Graph.lift].
    unfold Graph.try_catch, Graph.bind, Graph.log_info, Graph.log_error, Graph.request,
      Graph.ret. cbn [Graph.calls Graph.log].
    match goal with
    | |- context [mailbox (Graph.calls st) ?r] =>
        destruct (mailbox (Graph.calls st) r) as [json|message]
    end; cbn [Graph.errorMessage]; unfold Graph.ret; cbn [Graph.calls Graph.log];
      eexists; eexists; split; reflexivity.
  - unfold RuleHandlers.updateData in Hdata.
    destruct (truthy (prop params "displayName"));
      destruct (negb (is_undefined (prop params "sequence")));
      destruct (negb (is_undefined (prop params "isEnabled")));
      destruct (truthy (prop params "conditions"));
      destruct (truthy (prop params "actions"));
      try (destruct (Rules.formatRuleConditions (prop params "conditions"));
           [discriminate Hdata|]);
      try (destruct (Rules.formatRuleActions (prop params "actions"));
           [discriminate Hdata|]);
      injection Hdata as <-; reflexivity.
Qed.

(** X25 on an update of the display name and the enabled flag. *)
Lemma updateRule_patches_the_supplied_fields_witness :
  exists result st',
    RuleHandlers.updateRuleHandler (fun _ _ => Graph.Ok JNull)
      (JObject [("ruleId", JString "r1"); ("displayName", JString "Invoices");
                ("isEnabled", JBool false); ("color", JString "red")])
      (Graph.mkState [] [])
    = (Fulfilled result, st') /\
    Graph.calls st' =
      [Graph.mkRequest (JString "default") "PATCH" "/me/mailFolders/inbox/messageRules/r1"
         (JObject [("displayName", JString "Invoices"); ("isEnabled", JBool false)])].
Proof.
  exact (proj1 (updateRule_patches_the_supplied_fields (fun _ _ => Graph.Ok JNull)
                  (JObject [("ruleId", JString "r1"); ("displayName", JString "Invoices");
                            ("isEnabled", JBool false); ("color", JString "red")])
                  (Graph.mkState [] [])
                  [("displayName", JString "Invoices"); ("isEnabled", JBool false)]
                  eq_refl eq_refl)).
Defined.

(** X26.  When [conditions] is declared with the type ['object'], an
    update whose caller supplies conditions sends the empty object as the
    conditions of the rule, whatever the caller supplied. *)
Theorem updateRule_empties_conditions_behind_object_schema
    (schema : JsonSchema) (props : list (string * FieldSpec)) (value : FieldSpec)
    (arguments parsed : JsValue) (members data : list (string * JsValue)) :
  properties schema = Some props ->
  lastEntry props "conditions" = Some value ->
  type value = TypeTag "object" ->
  validate (Some schema) arguments = Some parsed ->
  prop arguments "conditions" = JObject members ->
  RuleHandlers.updateData parsed = inr data ->
  get_prop data "conditions" = JObject [].
Proof.
  intros Hp He Ht Hv Hsupplied Hdata.
  destruct (parse_object_shape _ _ _ _ Hv) as (args & out & -> & ->).
  pose proof (validated_field schema props "conditions" value args out Hp He Hv) as Hfield.
  cbn [prop] in Hsupplied. rewrite Hsupplied in Hfield.
  rewrite (object_field_output_is_empty schema "conditions" value members Ht) in Hfield.
  injection Hfield as Hfield.
  unfold RuleHandlers.updateData in Hdata. cbn [prop] in Hdata. rewrite <- Hfield in Hdata.
  cbn [truthy] in Hdata.
  change (Rules.formatRuleConditions (JObject [])) with (@inr Thrown _ (JObject [])) in Hdata.
  cbv iota in Hdata.
  match type of Hdata with
  | context [obj_set ?d "conditions" (JObject [])] =>
      assert (Hget : get_prop (obj_set d "conditions" (JObject [])) "conditions" = JObject [])
        by (unfold get_prop; now rewrite obj_get_set_same);
      generalize dependent (obj_set d "conditions" (JObject []))
  end.
  intros data4 Hdata Hget.
  destruct (truthy (get_prop out "actions")).
  - destruct (Rules.formatRuleActions (get_prop out "actions")) as [e|actions];
      [discriminate|].
    injection Hdata as <-. unfold get_prop in *. now rewrite obj_get_set.
  - now injection Hdata as <-.
Qed.

(** X26 on an update with the conditions [{subjectContains: 'invoice'}]. *)
Lemma updateRule_empties_conditions_behind_object_schema_witness :
  RuleHandlers.updateData (JObject [("ruleId", JString "r1"); ("conditions", JObject [])])
  = inr [("conditions", JObject [])] /\
  get_prop [("conditions", JObject [])] "conditions" = JObject [].
Proof.
  split; [reflexivity|].
  exact (updateRule_empties_conditions_behind_object_schema
           (mkJsonSchema
              (Some [("ruleId", mkFieldSpec (TypeTag "string") None None);
                     ("conditions", mkFieldSpec (TypeTag "object") None None)])
              (Some ["ruleId"]))
           [("ruleId", mkFieldSpec (TypeTag "string") None None);
            ("conditions", mkFieldSpec (TypeTag "object") None None)]
           (mkFieldSpec (TypeTag "object") None None)
           (JObject [("ruleId", JString "r1");
                     ("conditions", JObject [("subjectContains", JString "invoice")])])
           (JObject [("ruleId", JString "r1"); ("conditions", JObject [])])
           [("subjectContains", JString "invoice")]
           [("conditions", JObject [])]
           eq_refl eq_refl eq_refl eq_refl eq_refl eq_refl).
Defined.

(** X27.  With a truthy [name], [createFolderHandler] sends exactly one
    [POST] with the name as [displayName], to the child folders of
    [parentFolderId] when that is truthy and to the top level otherwise,
    and does not reject: it returns a result of status [success] or
    [error]. *)
Theorem createFolder_posts_under_the_parent
    (mailbox : Graph.Mailbox) (params : JsValue) (st : Graph.State) :
  truthy (prop params "name") = true ->
  exists result st',
    FolderCreate.createFolderHandler mailbox params st = (Fulfilled result, st') /\
    Graph.calls st' =
      (Graph.calls st ++
       [Graph.mkRequest (RulesDelete.orDefault (prop params "userId") (JString "default"))
          "POST"
          (if truthy (prop params "parentFolderId")
           then "/me/mailFolders/" ++ ToString (prop params "parentFolderId") ++ "/childFolders"
           else "/me/mailFolders")
          (JObject [("displayName", prop params "name")])])%list /\
    (prop result "status" = JString "success" \/ prop result "status" = JString "error").
Proof.
  intros Hname.
  destruct params as [| |b|n|s|l|ps]; try discriminate Hname.
  unfold FolderCreate.createFolderHandler.
  cbn [Graph.orEmpty]. rewrite Hname. cbn [negb].
  unfold Graph.try_catch, Graph.bind, Graph.log_info, Graph.log_error, Graph.request,
    Graph.read, Graph.ret, Graph.throw. cbn [Graph.calls Graph.log].
  match goal with
  | |- context [mailbox (Graph.calls st) ?r] =>
      destruct (mailbox (Graph.calls st) r) as [folder|message]
  end.
  - destruct folder; cbn [Graph.errorMessage TypeError_read]; unfold Graph.ret;
      cbn [Graph.calls Graph.log];
      (eexists; eexists; split; [reflexivity|]; cbn [Graph.calls];
       split; [reflexivity|]; first [now left|now right]).
  - cbn [Graph.errorMessage]. unfold Graph.ret. cbn [Graph.calls Graph.log].
    eexists. eexists. split; [reflexivity|]. cbn [Graph.calls].
    split; [reflexivity|now right].
Qed.

(** X27 on a folder created under the parent [inbox]. *)
Lemma createFolder_posts_under_the_parent_witness :
  exists result st',
    FolderCreate.createFolderHandler (fun _ _ => Graph.Ok (JObject [("id", JString "f1")]))
      (JObject [("name", JString "Invoices"); ("parentFolderId", JString "inbox")])
      (Graph.mkState [] [])
    = (Fulfilled result, st') /\
    Graph.calls st' =
      [Graph.mkRequest (JString "default") "POST" "/me/mailFolders/inbox/childFolders"
         (JObject [("displayName", JString "Invoices")])].
Proof.
  destruct (createFolder_posts_under_the_parent
              (fun _ _ => Graph.Ok (JObject [("id", JString "f1")]))
              (JObject [("name", JString "Invoices"); ("parentFolderId", JString "inbox")])
              (Graph.mkState [] []) eq_refl)
    as (result & st' & Hrun & Hcalls & _).
  now exists result, st'.
Defined.

(* ===================================================================== *)
(** ** The properties above at concrete inputs *)
(* ===================================================================== *)

(** X1 on the one tool [create_event]. *)
Lemma main_succeeds_iff_names_distinct_witness :
  exists server,
    main [tool_create_event] = (None, server) /\
    Mcp.connected server = true /\
    forall tool, In tool [tool_create_event] -> Mcp.invokable server (name tool) = true.
Proof.
  apply (proj2 (main_succeeds_iff_names_distinct [tool_create_event])).
  split; [repeat constructor; intros []|].
  intros tool [<-|[]]. reflexivity.
Defined.

(** X6 on the number [5], which is neither a string nor an object: the
    location is named by its digits. *)
Lemma formatLocation_has_displayName_witness :
  exists props,
    Calendar.formatLocation (JNumber 5) = JObject props /\
    truthy (get_prop props "displayName") = true.
Proof.
  exact (proj2 (formatLocation_has_displayName (JNumber 5)) eq_refl).
Defined.

(** X12 on [[{email: 'a@x.com'}, null]]. *)
Lemma formatEmailAddresses_throws_on_null_element_witness :
  exists e,
    Rules.formatEmailAddresses (JArray [JObject [("email", JString "a@x.com")]; JNull])
    = inl e.
Proof.
  apply (proj2 (proj1 (formatEmailAddresses_throws_on_null_element
                         (JArray [JObject [("email", JString "a@x.com")]; JNull])))).
  eexists. split; [reflexivity|]. right. now left.
Defined.
